(** * Suspenders: query-set builder, result-set decoder and error taxonomy

    A shallow embedding of the Python package [suspenders] (an
    ElasticSearch object-document mapper) and the properties of its
    query-set builder, boolean-query validation, result-set decoding,
    transport-error classification and model reconstruction.

    Python objects are modelled as follows.
    - JSON-like Python values (what the client sends and receives) are the
      inductive [json]; a Python [dict] is an association list in insertion
      order, updated in place.
    - A raised exception is a value of [exn]; a computation that may raise
      returns [res A].
    - Objects with identity that the code mutates (query sets, their lists,
      their [FilterDict], result sets) live in a store, and the methods that
      touch them run in the state-and-exception monad [M].
    - The module [filters.py] (class [Filter], [parse_filter],
      [parse_kwargs]) is not part of the package as studied here; the query set uses
      it through the interface [IsFilter]. *)

From Stdlib Require Import ZArith List String Bool Lia.
From stdpp Require Import base list strings option.

Set Warnings "-register-all".

Local Open Scope string_scope.
Local Open Scope Z_scope.
Local Open Scope list_scope.

(** ** Python values *)

Module Py.

(** A float literal such as [0.5] is carried as the fraction [1/2]; the
    code only passes such numbers through. *)
Inductive json : Type :=
| JNull
| JBool (b : bool)
| JInt (n : Z)
| JFloat (num : Z) (den : positive)
| JStr (s : string)
| JList (l : list json)
| JDict (kv : list (string * json)).

(** Exceptions, by class.  [InvalidQuerySet] derives from [TypeError];
    the four search errors carry [error], [status] and [request_body]. *)
Inductive exn : Type :=
| ValueError (arg : json)
| TypeError (msg : string)
| KeyError (key : string)
| AttributeError (msg : string)
| RuntimeError (msg : string)
| NotImplementedError (msg : string)
| InvalidQuerySet (msg : string)
| UnknownError (error status request_body : json)
| NoServerAvailable (error status request_body : json)
| SearchError (error status request_body : json)
| IndexMissingException (error status request_body : json)
| DocumentMissingException (error status request_body : json)
| TooComplexToDetermine (error status request_body : json)
| OtherException (name : string)
| StoreFault.
(** [StoreFault] is not a Python exception: it marks a reference that does
    not point to an object of the expected class, which well-formed
    stores exclude. *)

(** [isinstance(e, TypeError)], as the [except TypeError] clause sees it. *)
Definition is_TypeError (e : exn) : bool :=
  match e with
  | TypeError _ | InvalidQuerySet _ => true
  | _ => false
  end.

Inductive res (A : Type) : Type :=
| OK (a : A)
| Raise (e : exn).
Arguments OK {A} a.
Arguments Raise {A} e.

Definition rbind {A B} (r : res A) (k : A -> res B) : res B :=
  match r with
  | OK a => k a
  | Raise e => Raise e
  end.

Definition raises {A} (r : res A) : bool :=
  match r with OK _ => false | Raise _ => true end.

(** *** Dictionaries *)

Fixpoint dict_get {V} (d : list (string * V)) (k : string) : option V :=
  match d with
  | [] => None
  | (k', v) :: d' => if String.eqb k' k then Some v else dict_get d' k
  end.

Definition dict_has {V} (d : list (string * V)) (k : string) : bool :=
  match dict_get d k with Some _ => true | None => false end.

(** [d[k] = v]: an existing key keeps its position, a new key goes last. *)
Fixpoint dict_set {V} (d : list (string * V)) (k : string) (v : V)
  : list (string * V) :=
  match d with
  | [] => [(k, v)]
  | (k', v') :: d' =>
      if String.eqb k' k then (k', v) :: d' else (k', v') :: dict_set d' k v
  end.

(** [d.update(e)] *)
Definition dict_update {V} (d e : list (string * V)) : list (string * V) :=
  fold_left (fun acc kv => dict_set acc (fst kv) (snd kv)) e d.

(** *** Built-in operations on values *)

(** [obj[key]] for a string [key]. *)
Definition getitem (obj : json) (key : string) : res json :=
  match obj with
  | JDict kv =>
      match dict_get kv key with
      | Some v => OK v
      | None => Raise (KeyError key)
      end
  | JStr _ => Raise (TypeError "string indices must be integers")
  | JList _ => Raise (TypeError "list indices must be integers or slices, not str")
  | _ => Raise (TypeError "object is not subscriptable")
  end.

Fixpoint is_substring (needle hay : string) : bool :=
  String.prefix needle hay
  || match hay with
     | EmptyString => false
     | String _ hay' => is_substring needle hay'
     end.

Definition is_str (v : json) (s : string) : bool :=
  match v with JStr t => String.eqb t s | _ => false end.

(** [key in obj] for a string [key]. *)
Definition contains (key : string) (obj : json) : res bool :=
  match obj with
  | JDict kv => OK (dict_has kv key)
  | JList l => OK (existsb (fun v => is_str v key) l)
  | JStr s => OK (is_substring key s)
  | _ => Raise (TypeError "argument is not iterable")
  end.

Fixpoint chars (s : string) : list json :=
  match s with
  | EmptyString => []
  | String c s' => JStr (String c EmptyString) :: chars s'
  end.

(** The elements a [for] loop over the value visits. *)
Definition iterate (obj : json) : res (list json) :=
  match obj with
  | JList l => OK l
  | JDict kv => OK (map (fun p => JStr (fst p)) kv)
  | JStr s => OK (chars s)
  | _ => Raise (TypeError "object is not iterable")
  end.

(** [len(obj)] *)
Definition len (obj : json) : res Z :=
  match obj with
  | JList l => OK (Z.of_nat (length l))
  | JDict kv => OK (Z.of_nat (length kv))
  | JStr s => OK (Z.of_nat (String.length s))
  | _ => Raise (TypeError "object has no len()")
  end.

(** [isinstance(v, int)]: [bool] is a subclass of [int]. *)
Definition isinstance_int (v : json) : bool :=
  match v with JInt _ | JBool _ => true | _ => false end.

Definition isinstance_dict (v : json) : bool :=
  match v with JDict _ => true | _ => false end.

Definition isinstance_str (v : json) : bool :=
  match v with JStr _ => true | _ => false end.

(** Truth value of an optional list ([None] and [[]] are false). *)
Definition truthy_list {A} (o : option (list A)) : bool :=
  match o with Some (_ :: _) => true | _ => false end.

(** Truth value of an optional integer ([None] and [0] are false). *)
Definition truthy_int (o : option Z) : bool :=
  match o with Some n => negb (n =? 0) | None => false end.

(** Truth value of a JSON-like value. *)
Definition truthy (v : json) : bool :=
  match v with
  | JNull => false
  | JBool b => b
  | JInt n => negb (n =? 0)
  | JFloat num _ => negb (num =? 0)
  | JStr s => negb (String.eqb s "")
  | JList l => match l with [] => false | _ => true end
  | JDict kv => match kv with [] => false | _ => true end
  end.

(** The entry [k: v] when [b] holds, nothing otherwise: an [if b:
    d[k] = v] on a dictionary that has no key [k] yet. *)
Definition opt_key {A} (b : bool) (k : string) (v : A) : list (string * A) :=
  if b then [(k, v)] else [].

End Py.
Export Py.

#[export] Instance res_ret : MRet res := fun A a => OK a.
#[export] Instance res_bind : MBind res := fun A B k r => rbind r k.

(** ** The filter interface

    [filters.py] is absent from the sources.  The query set reads a filter's
    [name] and [is_multi], calls [merge] and [to_dict] on it, and builds
    filters from keyword arguments with [parse_filter]; [match_text] splits
    its keyword arguments with [parse_kwargs].  Filters are immutable after
    construction, so [merge] is a function of its two arguments. *)
Class IsFilter (F : Type) : Type := {
  name : F -> string;
  is_multi : F -> bool;
  merge : F -> F -> option F;
  filter_to_dict : F -> json;
  parse_filter : string -> json -> res F;
  parse_kwargs : list (string * json) -> res (string * json * list (string * json));
}.

(** ** queries.py *)

Module queries.
Section Queries.
Context {F : Type} `{IsFilter F}.

(** The query classes.  A filter may stand wherever a query is expected
    (both answer [to_dict]); [FilterQ] is that case.  The arguments of
    [NegativeBoost] are whatever the caller passed: a ready dictionary, a
    list of queries, or a single query object. *)
Inductive Query : Type :=
| FilterQ (f : F)
| NegativeBoost (negative : inner_set) (positive : option inner_set)
    (negative_boost : json)
| TermQuery (field : string) (value : json)
| MatchAllQuery
| ConstantScoreQuery (filter : Query)
| FuzzyQuery (field : string) (value boost prefix_length : json)
| MultiMatchQuery (fields : list string) (value : string)
    (search_type tie_breaker operator : json) (extra : list (string * json))
| MatchQuery (field : string) (value : json) (search_type max_expansions : json)
| MatchPhrasePrefixQuery (field : string) (value : json) (max_expansions : json)
| BoolQuery (options : list (string * json))
    (must maybe must_not : option (list Query)) (filter : option Query)
    (minimum_should_match : option Z)
with inner_set : Type :=
| InnerDict (d : list (string * json))
| InnerList (l : list Query)
| InnerQuery (q : Query).

(** Truth value of an [inner_set]: an object without [__bool__] or
    [__len__] is true. *)
Definition truthy_inner (i : inner_set) : bool :=
  match i with
  | InnerDict [] => false
  | InnerList [] => false
  | _ => true
  end.

(** [to_dict] of every class, with the two [_serialize_inner_queries]
    helpers inlined as [ser]: the one of [NegativeBoost] returns a
    dictionary as it is and iterates anything else, so a single query
    object there raises [TypeError]. *)
Fixpoint to_dict (q : Query) : res json :=
  let ser := fix ser (l : list Query) : res (list json) :=
    match l with
    | [] => OK []
    | x :: r =>
        match to_dict x with
        | OK d => match ser r with OK ds => OK (d :: ds) | Raise e => Raise e end
        | Raise e => Raise e
        end
    end in
  let ser_opt (o : option (list Query)) : res (list json) :=
    match o with Some l => ser l | None => OK [] end in
  let ser_inner (i : inner_set) : res json :=
    match i with
    | InnerDict d => OK (JDict d)
    | InnerList l => match ser l with OK ds => OK (JList ds) | Raise e => Raise e end
    | InnerQuery _ => Raise (TypeError "object is not iterable")
    end in
  match q with
  | FilterQ f => OK (filter_to_dict f)
  | NegativeBoost negative positive negative_boost =>
      match (match positive with
             | Some p => if truthy_inner p
                         then match ser_inner p with
                              | OK d => OK [("positive", d)]
                              | Raise e => Raise e
                              end
                         else OK []
             | None => OK []
             end) with
      | Raise e => Raise e
      | OK pos =>
          match (if truthy_inner negative
                 then match ser_inner negative with
                      | OK d => OK [("negative", d)]
                      | Raise e => Raise e
                      end
                 else OK []) with
          | Raise e => Raise e
          | OK neg =>
              OK (JDict [("boosting",
                          JDict ([("negative_boost", negative_boost)] ++ pos ++ neg))])
          end
      end
  | TermQuery field value => OK (JDict [("term", JDict [(field, value)])])
  | MatchAllQuery => OK (JDict [("match_all", JDict [])])
  | ConstantScoreQuery filter =>
      match to_dict filter with
      | OK d => OK (JDict [("constant_score", JDict [("filter", d)])])
      | Raise e => Raise e
      end
  | FuzzyQuery field value boost prefix_length =>
      OK (JDict [("fuzzy",
                  JDict [(field, JDict [("value", value); ("boost", boost);
                                        ("prefix_length", prefix_length)])])])
  | MultiMatchQuery fields value search_type tie_breaker operator extra =>
      OK (JDict [("multi_match",
                  JDict (dict_update
                           [("query", JStr value);
                            ("fields", JList (map JStr fields));
                            ("type", search_type);
                            ("tie_breaker", tie_breaker);
                            ("operator", operator)] extra))])
  | MatchQuery field value _ max_expansions =>
      OK (JDict [("match",
                  JDict [(field, JDict [("query", value);
                                        ("max_expansions", max_expansions)])])])
  | MatchPhrasePrefixQuery field value max_expansions =>
      OK (JDict [("match_phrase_prefix",
                  JDict [(field, JDict [("query", value);
                                        ("max_expansions", max_expansions)])])])
  | BoolQuery _ must maybe must_not filter minimum_should_match =>
      match (if truthy_list must then ser_opt must else OK []) with
      | Raise e => Raise e
      | OK ms =>
      match (if truthy_list maybe then ser_opt maybe else OK []) with
      | Raise e => Raise e
      | OK ss =>
      match (if truthy_list must_not then ser_opt must_not else OK []) with
      | Raise e => Raise e
      | OK ns =>
      match (match filter with
             | Some f => match to_dict f with
                         | OK d => OK [("filter", d)]
                         | Raise e => Raise e
                         end
             | None => OK []
             end) with
      | Raise e => Raise e
      | OK fs =>
          OK (JDict [("bool",
                      JDict (match minimum_should_match with
                             | Some n => opt_key (negb (n =? 0))
                                           "minimum_should_match" (JInt n)
                             | None => []
                             end
                             ++ opt_key (truthy_list must) "must" (JList ms)
                             ++ opt_key (truthy_list maybe) "should" (JList ss)
                             ++ opt_key (truthy_list must_not) "must_not" (JList ns)
                             ++ fs))])
      end end end end
  end.

(** [[query.to_dict() for query in inner_query_set]] *)
Fixpoint _serialize_inner_queries (l : list Query) : res (list json) :=
  match l with
  | [] => OK []
  | x :: r =>
      match to_dict x with
      | OK d =>
          match _serialize_inner_queries r with
          | OK ds => OK (d :: ds)
          | Raise e => Raise e
          end
      | Raise e => Raise e
      end
  end.

(** [ConstantScoreQuery.__init__] *)
Definition ConstantScoreQuery_init (filter : option Query) : res Query :=
  match filter with
  | None => Raise (ValueError (JStr "Cannot run constant score without a filter"))
  | Some f => OK (ConstantScoreQuery f)
  end.

(** [MatchQuery.__init__] called as [MatchQuery(field=.., value=.., **options)]:
    the only further keywords it takes are [search_type] and
    [max_expansions]. *)
Definition MatchQuery_init (field : string) (value : json)
    (options : list (string * json)) : res Query :=
  if forallb (fun kv => String.eqb (fst kv) "search_type"
                        || String.eqb (fst kv) "max_expansions") options
  then OK (MatchQuery field value
             (default (JStr "boolean") (dict_get options "search_type"))
             (default (JInt 50) (dict_get options "max_expansions")))
  else Raise (TypeError "__init__() got an unexpected keyword argument").

(** [BoolQuery.__init__].  The three checks run in the order of the source;
    [self.name = hash(self)] is the identity hash of the new object and is
    not kept. *)
Definition BoolQuery_init (options : option (list (string * json)))
    (must maybe must_not : option (list Query)) (filter : option Query)
    (minimum_should_match : option Z) (acts_as_filter : bool) : res Query :=
  if truthy_int minimum_should_match && negb (truthy_list maybe) then
    Raise (ValueError (JStr
      "minimum_should_match can only be used in conjuction with optional matches."))
  else if truthy_list must_not
          && negb (truthy_list must || truthy_list maybe || acts_as_filter) then
    Raise (InvalidQuerySet
      "It is not possible to search on documents that only consists of a must_not clauses")
  else if negb (truthy_list must || truthy_list maybe || truthy_list must_not) then
    Raise (InvalidQuerySet
      "A must or should clause is necessary to execute a Boolean Query")
  else
    OK (BoolQuery (default [] options) must maybe must_not filter
          minimum_should_match).

End Queries.
Arguments Query F : clear implicits.
Arguments inner_set F : clear implicits.
End queries.
Export queries.

(** ** aggregations.py *)

Module aggregations.

Record TopHits : Type := {
  th_name : string;
  th_size : json;
  th_sort : json;
}.

(** [TopHits.__init__], keyword-only: [sort], [size=10], [name="top_hits"]. *)
Definition TopHits_init (sort : json) (size : option json) (name : option string)
  : TopHits :=
  {| th_name := default "top_hits" name;
     th_size := default (JInt 10) size;
     th_sort := sort |}.

(** [TopHits.serialize] *)
Definition TopHits_serialize (t : TopHits) : json :=
  JDict [(th_name t,
          JDict [("top_hits", JDict [("sort", th_sort t); ("size", th_size t)])])].

(** The terms aggregation (class [TermsFilter] in [aggregations.py], which
    the query set imports as [TermsAggregation]). *)
Record TermsAggregation : Type := {
  ta_name : string;
  ta_field : string;
  ta_size : json;
  ta_order : json;
  ta_include : json;
  ta_exclude : json;
  ta_regex : json;
  ta_regex_flags : json;
  ta_script : json;
  ta_min_doc_count : json;
  ta_with_top_hits : option TopHits;
}.

(** [__init__(field, name, size, order, include, exclude, min_doc_count,
    with_top_hits, **kwargs)] as the query set calls it.  The keywords
    [regex], [regex_flags] and [script] are parameters; any other keyword
    reaches [object.__init__], which takes none. *)
Definition TermsAggregation_init (field : string) (name : option string)
    (size order include exclude min_doc_count : json)
    (with_top_hits : option TopHits) (kwargs : list (string * json))
  : res TermsAggregation :=
  if forallb (fun kv => String.eqb (fst kv) "regex"
                        || String.eqb (fst kv) "regex_flags"
                        || String.eqb (fst kv) "script") kwargs
  then OK {| ta_name := default field name;
             ta_field := field;
             ta_size := size;
             ta_order := order;
             ta_include := include;
             ta_exclude := if truthy exclude then exclude else JList [];
             ta_regex := default JNull (dict_get kwargs "regex");
             ta_regex_flags := default (JStr "DOTALL") (dict_get kwargs "regex_flags");
             ta_script := default JNull (dict_get kwargs "script");
             ta_min_doc_count := min_doc_count;
             ta_with_top_hits := with_top_hits |}
  else Raise (TypeError "object.__init__() takes exactly one argument").

Definition valid_order (order : json) : bool :=
  existsb (is_str order) ["count"; "term"; "reverse_count"; "reverse_term"].

(** [serialize] (and [to_dict], which calls it). *)
Definition TermsAggregation_to_dict (a : TermsAggregation) : res json :=
  if truthy (ta_order a) && negb (valid_order (ta_order a)) then
    Raise (RuntimeError "Invalid order value")
  else
    let data :=
      [("field", JStr (ta_field a))]
      ++ opt_key (negb (match ta_min_doc_count a with JNull => true | _ => false end))
           "min_doc_count" (ta_min_doc_count a)
      ++ opt_key (truthy (ta_size a)) "size" (ta_size a)
      ++ opt_key (truthy (ta_order a)) "order" (ta_order a)
      ++ opt_key (truthy (ta_include a)) "include" (ta_include a)
      ++ opt_key (truthy (ta_exclude a)) "exclude" (ta_exclude a)
      ++ (if truthy (ta_regex a)
          then [("regex", ta_regex a)]
               ++ opt_key (truthy (ta_regex_flags a)) "regex_flags" (ta_regex_flags a)
          else opt_key (truthy (ta_script a)) "script" (ta_script a)) in
    let inner :=
      [("terms", JDict data)]
      ++ match ta_with_top_hits a with
         | Some t => [("aggregations", TopHits_serialize t)]
         | None => []
         end in
    OK (JDict [(ta_name a, JDict inner)]).

End aggregations.
Export aggregations.

(** ** result_set.py *)

Module result_set.

Record ResultSet : Type := {
  _raw : json;
  _hits : json;
  _documents : json;
  _shards : json;
  total : json;
  (** [None]: the attribute [total_relation] was never assigned. *)
  total_relation : option json;
  max_score : json;
  aggregations : list (string * json);
  explain : list json;
  _objects : list json;
  _object_dictionary : list json;
}.

(** The total and its relation, as [__init__] reads them off
    [response["hits"]]. *)
Definition decode_total (hits : json) : res (json * option json) :=
  b ← contains "total" hits;
  if b : bool then
    t ← getitem hits "total";
    if isinstance_int t then OK (t, Some (JStr "eq"))
    else
      v ← getitem t "value";
      r ← getitem t "relation";
      OK (v, Some r)
  else OK (JNull, None).

(** [aggregation_items.items()] *)
Definition items (v : json) : res (list (string * json)) :=
  match v with
  | JDict kv => OK kv
  | _ => Raise (AttributeError "object has no attribute 'items'")
  end.

Fixpoint collect_buckets (entries : list (string * json))
    (acc : list (string * json)) : res (list (string * json)) :=
  match entries with
  | [] => OK acc
  | (name, results) :: rest =>
      if isinstance_dict results then
        b ← getitem results "buckets";
        collect_buckets rest (dict_set acc name b)
      else collect_buckets rest acc
  end.

Definition decode_aggregations (response : json) : res (list (string * json)) :=
  b ← contains "aggregations" response;
  if b : bool then
    aggs ← getitem response "aggregations";
    s ← contains "__sampler__" aggs;
    aggregation_items ← (if s : bool then getitem aggs "__sampler__" else OK aggs);
    entries ← items aggregation_items;
    collect_buckets entries []
  else OK [].

(** [ResultSet.__init__] *)
Definition ResultSet_init (response : json) : res ResultSet :=
  hits ← getitem response "hits";
  documents ← getitem hits "hits";
  shards ← getitem response "_shards";
  tr ← decode_total hits;
  max_score ← getitem hits "max_score";
  aggs ← decode_aggregations response;
  OK {| _raw := response;
        _hits := hits;
        _documents := documents;
        _shards := shards;
        total := fst tr;
        total_relation := snd tr;
        max_score := max_score;
        aggregations := aggs;
        explain := [];
        _objects := [];
        _object_dictionary := [] |}.

(** [ResultSet.__len__] *)
Definition ResultSet_len (rs : ResultSet) : res Z := len (_documents rs).

(** [ResultSet.__bool__] *)
Definition ResultSet_bool (rs : ResultSet) : res bool :=
  n ← len (_documents rs);
  OK (n =? 0).

End result_set.
Export result_set.

(** ** utils.py: classification of transport errors *)

Module utils.

(** [__match_error]: always raises. *)
Definition __match_error (error status request_body : json) : res unit :=
  error_type ← getitem error "type";
  if is_str error_type "index_not_found_exception" then
    Raise (IndexMissingException error status request_body)
  else if is_str error_type "document_missing_exception" then
    Raise (DocumentMissingException error status request_body)
  else if is_str error_type "too_complex_to_determinize_exception" then
    Raise (TooComplexToDetermine error status request_body)
  else
    Raise (SearchError error status request_body).

Fixpoint for_each (l : list json) (body : json -> res unit) : res unit :=
  match l with
  | [] => OK tt
  | x :: r => body x ;; for_each r body
  end.

(** [raise_on_transport_error(e, request_body)], with [result = e.info] and
    [status = e.status_code].  [UnknownError] is built from [str(result)];
    the value itself is kept here. *)
Definition raise_on_transport_error (result status request_body : json) : res unit :=
  if negb (isinstance_dict result)
     || negb (match contains "error" result with OK b => b | Raise _ => false end)
  then Raise (UnknownError result status request_body)
  else
    raw_error ← getitem result "error";
    match (error_list ← getitem raw_error "root_cause";
           errors ← iterate error_list;
           for_each errors (fun error => __match_error error status request_body)) with
    | Raise e => if is_TypeError e then Raise (ValueError raw_error) else Raise e
    | OK u => OK u
    end.

End utils.
Export utils.

(** ** app/models.py: the head of [SuspendersModel.type_from_fields] *)

Module models.

(** A declared field of a map: a nested map ([BaseMap]) or a search field,
    which may be a [DateField] and may be nullable. *)
Inductive field : Type :=
| SubMap
| SearchField (is_date nullable : bool).

Definition complex_field_names (fields : list (string * field)) : list string :=
  flat_map (fun kf => match snd kf with SubMap => [fst kf] | _ => [] end) fields.

Definition nullable_fields (fields : list (string * field)) : list string :=
  flat_map (fun kf => match snd kf with
                      | SearchField _ true => [fst kf]
                      | _ => []
                      end) fields.

Definition datetime_fields (fields : list (string * field)) : list string :=
  flat_map (fun kf => match snd kf with
                      | SearchField true _ => [fst kf]
                      | _ => []
                      end) fields.

Section Models.
(** [int(s)] on a string and [pendulum.parse(s).replace(tzinfo=utc)] are
    library functions. *)
Variable int_of_string : string -> option Z.
Variable parse_datetime : string -> res json.
Variable fields : list (string * field).

(** [int(v)] *)
Definition int (v : json) : res Z :=
  match v with
  | JInt n => OK n
  | JBool b => OK (if b then 1 else 0)
  | JFloat num den => OK (Z.quot num (Z.pos den))
  | JStr s =>
      match int_of_string s with
      | Some n => OK n
      | None => Raise (ValueError (JStr "invalid literal for int() with base 10"))
      end
  | _ => Raise (TypeError "int() argument must be a string or a number")
  end.

(** [convert_str_to_datetime] *)
Definition convert_str_to_datetime (obj : json) : res json :=
  match obj with
  | JStr s => parse_datetime s
  | _ => OK obj
  end.

Fixpoint load_datetimes (keys : list string) (load_fields : list (string * json))
  : res (list (string * json)) :=
  match keys with
  | [] => OK load_fields
  | key :: rest =>
      v ← convert_str_to_datetime (default JNull (dict_get load_fields key));
      load_datetimes rest (dict_set load_fields key v)
  end.

Fixpoint add_nulls (names : list string) (load_fields : list (string * json))
  : list (string * json) :=
  match names with
  | [] => load_fields
  | field_name :: rest =>
      add_nulls rest (if dict_has load_fields field_name then load_fields
                      else dict_set load_fields field_name JNull)
  end.

(** [process_load_fields] *)
Definition process_load_fields (load_fields : list (string * json))
  : res (list (string * json)) :=
  id ← getitem (JDict load_fields) "id";
  n ← int id;
  load_fields ← load_datetimes (datetime_fields fields)
                  (dict_set load_fields "id" (JInt n));
  OK (add_nulls (nullable_fields fields) load_fields).

(** [type_from_fields] up to and including the check that an id is present;
    [process] is the [process_load_fields] in force (a subclass may
    override it).  The value returned is the [load_fields] from which the
    model object is then built. *)
Definition type_from_fields_with
    (process : list (string * json) -> res (list (string * json)))
    (base : list (string * json)) : res (list (string * json)) :=
  let load_fields :=
    flat_map (fun kv => if existsb (String.eqb (fst kv)) (complex_field_names fields)
                        then [] else [kv]) base in
  load_fields ← process load_fields;
  if negb (dict_has load_fields "id") then
    Raise (TypeError "id not present in load_fields")
  else OK load_fields.

Definition type_from_fields := type_from_fields_with process_load_fields.

End Models.
End models.

(** ** The object store *)

Module store.

(** References are positions in the store. *)
Abbreviation loc := nat (only parsing).

(** What the code asks of the outside world, in order. *)
Inductive event : Type :=
| Search (body index : json) (query_params : list (string * json))
| Count (body index : json)
| Log (message : json).

(** How a call of the client ends: a response, an [IOError] or
    [urllib3.exceptions.HTTPError], a [TransportError] with its [info] and
    [status_code], or any other exception. *)
Inductive reply : Type :=
| Response (raw : json)
| IOError (msg : string)
| TransportError (info status_code : json)
| Failure (e : exn).

(** The [Elasticsearch] client: its answer may depend on what happened
    before. *)
Record Elasticsearch : Type := {
  es_search : list event -> json -> json -> list (string * json) -> reply;
  es_count : list event -> json -> json -> reply;
}.

(** The two tags a [FilterDict] files a filter under: the literals ["+"]
    and ["-"] of the source. *)
Inductive polarity : Type := Plus | Minus.

Definition polarity_eqb (p q : polarity) : bool :=
  match p, q with
  | Plus, Plus | Minus, Minus => true
  | _, _ => false
  end.

Definition polarity_str (p : polarity) : string :=
  match p with Plus => "+" | Minus => "-" end.

(** The number of search requests, and of count requests, in a trace. *)
Definition searches (t : list event) : nat :=
  length (List.filter (fun e => match e with Search _ _ _ => true | _ => false end) t).

Definition counts (t : list event) : nat :=
  length (List.filter (fun e => match e with Count _ _ => true | _ => false end) t).

Section Store.
Context {F : Type} `{IsFilter F}.

(** The attributes of a [SuspendersQuerySet] instance.  Lists and the
    [FilterDict] are references into the store. *)
Record QuerySetObj : Type := {
  conn : Elasticsearch;
  _min_score : json;
  _from : Z;
  _page_size : Z;
  _sort : loc;
  _must_search_set : loc;
  _optional_search_set : loc;
  _filters : loc;
  _negative_boost_queries : loc;
  _aggs_fields : loc;
  _is_none_set : bool;
  _result_set : option loc;
  minimum_should_match : Z;
  aggregations_use_sampler : bool;
  _track_total_hits : bool;
}.

Inductive cell : Type :=
| CSortList (l : list json)
| CQueries (l : list (Query F))
| CAggs (l : list TermsAggregation)
| CDict (d : list (string * (polarity * F)))
| CFilterDict (filters : loc)
| CResultSet (rs : ResultSet)
| CQuerySet (o : QuerySetObj).

Record world : Type := {
  heap : list cell;
  trace : list event;
  (** [settings.DEBUG] *)
  DEBUG : bool;
}.

(** State and exceptions; the state survives a raise. *)
Definition M (A : Type) : Type := world -> world * res A.

Definition ret {A} (a : A) : M A := fun w => (w, OK a).

Definition bind {A B} (m : M A) (k : A -> M B) : M B :=
  fun w => match m w with
           | (w', OK a) => k a w'
           | (w', Raise e) => (w', Raise e)
           end.

Definition raise {A} (e : exn) : M A := fun w => (w, Raise e).

Definition lift {A} (r : res A) : M A := fun w => (w, r).

Definition alloc (c : cell) : M loc :=
  fun w => ({| heap := heap w ++ [c]; trace := trace w; DEBUG := DEBUG w |},
            OK (length (heap w))).

Definition read (l : loc) : M cell :=
  fun w => match heap w !! l with
           | Some c => (w, OK c)
           | None => (w, Raise StoreFault)
           end.

Definition write (l : loc) (c : cell) : M unit :=
  fun w => ({| heap := <[l:=c]> (heap w); trace := trace w; DEBUG := DEBUG w |},
            OK tt).

Definition emit (e : event) : M unit :=
  fun w => ({| heap := heap w; trace := trace w ++ [e]; DEBUG := DEBUG w |}, OK tt).

Definition get_trace : M (list event) := fun w => (w, OK (trace w)).

Definition get_DEBUG : M bool := fun w => (w, OK (DEBUG w)).

End Store.
Arguments QuerySetObj : clear implicits.
Arguments cell F : clear implicits.
Arguments world F : clear implicits.
Arguments M F A : clear implicits.
End store.
Export store.

#[export] Instance M_ret {F} : MRet (M F) := fun A a => ret a.
#[export] Instance M_bind {F} : MBind (M F) := fun A B k m => bind m k.

(** ** query_set.py: [FilterDict] *)

Module FilterDict.
Section FilterDict.
Context {F : Type} `{IsFilter F}.

Definition get_dict (d : loc) : M F (list (string * (polarity * F))) :=
  c ← read d;
  match c with
  | CDict kv => mret kv
  | _ => raise StoreFault
  end.

(** [self.filters] *)
Definition filters (self : loc) : M F loc :=
  c ← read self;
  match c with
  | CFilterDict d => mret d
  | _ => raise StoreFault
  end.

(** [__init__(filters=None)]: [self.filters = filters or {}] *)
Definition init (filters : option loc) : M F loc :=
  d ← match filters with
      | Some d =>
          kv ← get_dict d;
          match kv with
          | [] => alloc (CDict [])
          | _ => mret d
          end
      | None => alloc (CDict [])
      end;
  alloc (CFilterDict d).

(** [copy]: [FilterDict(filters=self.filters.copy())] *)
Definition copy (self : loc) : M F loc :=
  d ← filters self;
  kv ← get_dict d;
  d' ← alloc (CDict kv);
  init (Some d').

(** The text of the warning, kept as its parts. *)
Definition overwrite_message (key : string) (prev_key_type : polarity) (filter : F)
    (filter_type : polarity) (value : F) : json :=
  JList [JStr key; JStr (polarity_str prev_key_type); filter_to_dict filter;
         JStr (polarity_str filter_type); filter_to_dict value].

(** [__check] *)
Definition __check (self : loc) (key : string) (value : F) (filter_type : polarity)
  : M F F :=
  d ← filters self;
  kv ← get_dict d;
  match dict_get kv key with
  | Some (prev_key_type, filter) =>
      match merge filter value with
      | Some next_value => mret next_value
      | None =>
          let message := overwrite_message key prev_key_type filter filter_type value in
          debug ← get_DEBUG;
          if debug : bool then raise (ValueError message)
          else emit (Log message);; mret value
      end
  | None => mret value
  end.

(** [has_values] *)
Definition has_values (kv : list (string * (polarity * F))) : bool :=
  match kv with [] => false | _ => true end.

Definition set_item (self : loc) (key : string) (entry : polarity * F) : M F unit :=
  d ← filters self;
  kv ← get_dict d;
  write d (CDict (dict_set kv key entry)).

(** [add_positive] *)
Definition add_positive (self : loc) (key : string) (value : F) : M F unit :=
  let key := if is_multi value then String.append "+" key else key in
  next_value ← __check self key value Plus;
  set_item self key (Plus, next_value).

(** [add_negative] *)
Definition add_negative (self : loc) (key : string) (value : F) : M F unit :=
  let key := if is_multi value then String.append "-" key else key in
  next_value ← __check self key value Minus;
  set_item self key (Minus, next_value).

(** [positive_filters] and [negative_filters], on the dictionary's content. *)
Definition filters_of_type (t : polarity) (kv : list (string * (polarity * F)))
  : list F :=
  flat_map (fun e => if polarity_eqb (fst (snd e)) t then [snd (snd e)] else []) kv.

Definition positive_filters := filters_of_type Plus.
Definition negative_filters := filters_of_type Minus.

End FilterDict.
End FilterDict.

(** ** query_set.py: [SuspendersQuerySet] *)

Module SuspendersQuerySet.
Section QuerySet.
Context {F : Type} `{IsFilter F}.

(** The values a query set holds, with every reference followed: what
    [to_dict] reads. *)
Record QState : Type := {
  s_min_score : json;
  s_from : Z;
  s_page_size : Z;
  s_sort : list json;
  s_must_search_set : list (Query F);
  s_optional_search_set : list (Query F);
  s_filters : list (string * (polarity * F));
  s_negative_boost_queries : list (Query F);
  s_aggs_fields : list TermsAggregation;
  s_is_none_set : bool;
  s_minimum_should_match : Z;
  s_aggregations_use_sampler : bool;
  s_track_total_hits : bool;
}.

Definition nonempty {A} (l : list A) : bool :=
  match l with [] => false | _ => true end.

(** The filter-context query built in both branches of
    [_serialized_query]. *)
Definition filter_context (st : QState) : res (Query F) :=
  BoolQuery_init None
    (Some (map FilterQ (FilterDict.positive_filters (s_filters st))))
    None
    (Some (map FilterQ (FilterDict.negative_filters (s_filters st))))
    None None true.

(** [_serialized_query] *)
Definition _serialized_query (st : QState) : res json :=
  let has_search_context :=
    nonempty (s_must_search_set st) || nonempty (s_optional_search_set st) in
  let has_filter_context := FilterDict.has_values (s_filters st) in
  res ←
    (if has_search_context then
       res ← BoolQuery_init None
               (Some (s_must_search_set st))
               (Some (s_optional_search_set st))
               (Some [])
               None
               (if nonempty (s_optional_search_set st)
                then Some (s_minimum_should_match st) else None)
               false;
       if has_filter_context then
         f ← filter_context st;
         BoolQuery_init None (Some [res]) None None (Some f) None false
       else OK res
     else
       if has_filter_context then
         f ← filter_context st;
         ConstantScoreQuery_init (Some f)
       else OK MatchAllQuery);
  let res :=
    if nonempty (s_negative_boost_queries st)
    then NegativeBoost (InnerList (s_negative_boost_queries st))
           (Some (InnerQuery res)) (JFloat 1 2)
    else res in
  queries.to_dict res.

(** [_serialized_aggregations] *)
Fixpoint _serialized_aggregations_from (aggs : list TermsAggregation)
    (res : list (string * json)) : Py.res (list (string * json)) :=
  match aggs with
  | [] => OK res
  | agg :: rest =>
      d ← TermsAggregation_to_dict agg;
      _serialized_aggregations_from rest
        (dict_update res (match d with JDict kv => kv | _ => [] end))
  end.

Definition _serialized_aggregations (st : QState) : res json :=
  kv ← _serialized_aggregations_from (s_aggs_fields st) [];
  OK (JDict kv).

(** [to_dict] *)
Definition to_dict (st : QState) : res json :=
  if s_is_none_set st then OK (JDict [("is_none", JBool true)])
  else
    query ← _serialized_query st;
    let res :=
      [("sort", if nonempty (s_sort st) then JList (s_sort st)
                else JList [JStr "_score"; JStr "id"]);
       ("size", JInt (s_page_size st));
       ("query", query);
       ("track_total_hits", JBool (s_track_total_hits st))]
      ++ opt_key (negb (match s_min_score st with JNull => true | _ => false end))
           "min_score" (s_min_score st)
      ++ opt_key (negb (s_from st =? 0)) "from" (JInt (s_from st)) in
    if nonempty (s_aggs_fields st) then
      aggs ← _serialized_aggregations st;
      OK (JDict (res ++
            [("aggregations",
              if s_aggregations_use_sampler st
              then JDict [("__sampler__",
                           JDict [("sampler", JDict [("shard_size", JInt 10)]);
                                  ("aggs", aggs)])]
              else aggs)]))
    else OK (JDict res).

(** *** Instances in the store *)

Definition get_qs (self : loc) : M F QuerySetObj :=
  c ← read self;
  match c with
  | CQuerySet o => mret o
  | _ => raise StoreFault
  end.

Definition get_queries (l : loc) : M F (list (Query F)) :=
  c ← read l;
  match c with
  | CQueries qs => mret qs
  | _ => raise StoreFault
  end.

Definition get_sort (l : loc) : M F (list json) :=
  c ← read l;
  match c with
  | CSortList s => mret s
  | _ => raise StoreFault
  end.

Definition get_aggs (l : loc) : M F (list TermsAggregation) :=
  c ← read l;
  match c with
  | CAggs a => mret a
  | _ => raise StoreFault
  end.

Definition get_result_set (l : loc) : M F ResultSet :=
  c ← read l;
  match c with
  | CResultSet rs => mret rs
  | _ => raise StoreFault
  end.

(** [list(value)] for a list attribute. *)
Definition list_copy (l : loc) : M F loc :=
  c ← read l;
  match c with
  | CSortList _ | CQueries _ | CAggs _ => alloc c
  | _ => raise StoreFault
  end.

(** Follows the references of an instance. *)
Definition snapshot (self : loc) : M F QState :=
  o ← get_qs self;
  sort ← get_sort (_sort o);
  must ← get_queries (_must_search_set o);
  optional ← get_queries (_optional_search_set o);
  fd ← FilterDict.filters (_filters o);
  kv ← FilterDict.get_dict fd;
  boost ← get_queries (_negative_boost_queries o);
  aggs ← get_aggs (_aggs_fields o);
  mret {| s_min_score := _min_score o;
          s_from := _from o;
          s_page_size := _page_size o;
          s_sort := sort;
          s_must_search_set := must;
          s_optional_search_set := optional;
          s_filters := kv;
          s_negative_boost_queries := boost;
          s_aggs_fields := aggs;
          s_is_none_set := _is_none_set o;
          s_minimum_should_match := minimum_should_match o;
          s_aggregations_use_sampler := aggregations_use_sampler o;
          s_track_total_hits := _track_total_hits o |}.

(** [self.to_dict()] on an instance. *)
Definition to_dict_of (self : loc) : M F json :=
  st ← snapshot self;
  lift (to_dict st).

(** [__init__(conn)] *)
Definition init (conn : Elasticsearch) : M F loc :=
  sort ← alloc (CSortList []);
  must ← alloc (CQueries []);
  optional ← alloc (CQueries []);
  filters ← FilterDict.init None;
  boost ← alloc (CQueries []);
  aggs ← alloc (CAggs []);
  alloc (CQuerySet
           {| conn := conn;
              _min_score := JNull;
              _from := 0;
              _page_size := 10;
              _sort := sort;
              _must_search_set := must;
              _optional_search_set := optional;
              _filters := filters;
              _negative_boost_queries := boost;
              _aggs_fields := aggs;
              _is_none_set := false;
              _result_set := None;
              minimum_should_match := 1;
              aggregations_use_sampler := false;
              _track_total_hits := false |}).

(** [copy]: a new instance, then one [setattr] per copied attribute, in the
    order of [attrs]; the new values are written here in one step.
    [_result_set] is not among the copied attributes. *)
Definition copy (self : loc) : M F loc :=
  o ← get_qs self;
  qs ← init (conn o);
  sort ← list_copy (_sort o);
  must ← list_copy (_must_search_set o);
  optional ← list_copy (_optional_search_set o);
  filters ← FilterDict.copy (_filters o);
  aggs ← list_copy (_aggs_fields o);
  boost ← list_copy (_negative_boost_queries o);
  write qs (CQuerySet
              {| conn := conn o;
                 _min_score := _min_score o;
                 _from := _from o;
                 _page_size := _page_size o;
                 _sort := sort;
                 _must_search_set := must;
                 _optional_search_set := optional;
                 _filters := filters;
                 _negative_boost_queries := boost;
                 _aggs_fields := aggs;
                 _is_none_set := _is_none_set o;
                 _result_set := None;
                 minimum_should_match := minimum_should_match o;
                 aggregations_use_sampler := aggregations_use_sampler o;
                 _track_total_hits := _track_total_hits o |});;
  mret qs.

(** The decorator [clone] *)
Definition clone {A} (function : loc -> M F A) (self : loc) : M F A :=
  self ← copy self;
  function self.

Definition modify (self : loc) (f : QuerySetObj -> QuerySetObj) : M F unit :=
  o ← get_qs self;
  write self (CQuerySet (f o)).

Definition set_min_score (v : json) (o : QuerySetObj) : QuerySetObj :=
  {| conn := conn o; _min_score := v; _from := _from o;
     _page_size := _page_size o; _sort := _sort o;
     _must_search_set := _must_search_set o;
     _optional_search_set := _optional_search_set o; _filters := _filters o;
     _negative_boost_queries := _negative_boost_queries o;
     _aggs_fields := _aggs_fields o; _is_none_set := _is_none_set o;
     _result_set := _result_set o;
     minimum_should_match := minimum_should_match o;
     aggregations_use_sampler := aggregations_use_sampler o;
     _track_total_hits := _track_total_hits o |}.

Definition set_page (from page_size : Z) (o : QuerySetObj) : QuerySetObj :=
  {| conn := conn o; _min_score := _min_score o; _from := from;
     _page_size := page_size; _sort := _sort o;
     _must_search_set := _must_search_set o;
     _optional_search_set := _optional_search_set o; _filters := _filters o;
     _negative_boost_queries := _negative_boost_queries o;
     _aggs_fields := _aggs_fields o; _is_none_set := _is_none_set o;
     _result_set := _result_set o;
     minimum_should_match := minimum_should_match o;
     aggregations_use_sampler := aggregations_use_sampler o;
     _track_total_hits := _track_total_hits o |}.

Definition set_sort (l : loc) (o : QuerySetObj) : QuerySetObj :=
  {| conn := conn o; _min_score := _min_score o; _from := _from o;
     _page_size := _page_size o; _sort := l;
     _must_search_set := _must_search_set o;
     _optional_search_set := _optional_search_set o; _filters := _filters o;
     _negative_boost_queries := _negative_boost_queries o;
     _aggs_fields := _aggs_fields o; _is_none_set := _is_none_set o;
     _result_set := _result_set o;
     minimum_should_match := minimum_should_match o;
     aggregations_use_sampler := aggregations_use_sampler o;
     _track_total_hits := _track_total_hits o |}.

Definition set_is_none_set (b : bool) (o : QuerySetObj) : QuerySetObj :=
  {| conn := conn o; _min_score := _min_score o; _from := _from o;
     _page_size := _page_size o; _sort := _sort o;
     _must_search_set := _must_search_set o;
     _optional_search_set := _optional_search_set o; _filters := _filters o;
     _negative_boost_queries := _negative_boost_queries o;
     _aggs_fields := _aggs_fields o; _is_none_set := b;
     _result_set := _result_set o;
     minimum_should_match := minimum_should_match o;
     aggregations_use_sampler := aggregations_use_sampler o;
     _track_total_hits := _track_total_hits o |}.

Definition set_track_total_hits (b : bool) (o : QuerySetObj) : QuerySetObj :=
  {| conn := conn o; _min_score := _min_score o; _from := _from o;
     _page_size := _page_size o; _sort := _sort o;
     _must_search_set := _must_search_set o;
     _optional_search_set := _optional_search_set o; _filters := _filters o;
     _negative_boost_queries := _negative_boost_queries o;
     _aggs_fields := _aggs_fields o; _is_none_set := _is_none_set o;
     _result_set := _result_set o;
     minimum_should_match := minimum_should_match o;
     aggregations_use_sampler := aggregations_use_sampler o;
     _track_total_hits := b |}.

Definition set_result_set (r : option loc) (o : QuerySetObj) : QuerySetObj :=
  {| conn := conn o; _min_score := _min_score o; _from := _from o;
     _page_size := _page_size o; _sort := _sort o;
     _must_search_set := _must_search_set o;
     _optional_search_set := _optional_search_set o; _filters := _filters o;
     _negative_boost_queries := _negative_boost_queries o;
     _aggs_fields := _aggs_fields o; _is_none_set := _is_none_set o;
     _result_set := r;
     minimum_should_match := minimum_should_match o;
     aggregations_use_sampler := aggregations_use_sampler o;
     _track_total_hits := _track_total_hits o |}.

(** [some_list.append(q)] *)
Definition append_query (l : loc) (q : Query F) : M F unit :=
  qs ← get_queries l;
  write l (CQueries (qs ++ [q])).

Definition append_agg (l : loc) (a : TermsAggregation) : M F unit :=
  aggs ← get_aggs l;
  write l (CAggs (aggs ++ [a])).

(** A [for] loop whose body may raise. *)
Fixpoint for_ {A} (l : list A) (body : A -> M F unit) : M F unit :=
  match l with
  | [] => mret tt
  | x :: r => body x;; for_ r body
  end.

(** [_make_filter_list]: a positional argument is a
    [Filter] (left) or some other value (right). *)
Definition __ensure_is_filter (value : F + json) : res F :=
  match value with
  | inl f => OK f
  | inr _ => Raise (AttributeError "value is not a filter class")
  end.

Fixpoint parse_filters (kwargs : list (string * json)) : res (list F) :=
  match kwargs with
  | [] => OK []
  | (key, value) :: rest =>
      f ← parse_filter key value;
      fs ← parse_filters rest;
      OK (f :: fs)
  end.

Fixpoint ensure_filters (args : list (F + json)) : res (list F) :=
  match args with
  | [] => OK []
  | value :: rest =>
      f ← __ensure_is_filter value;
      fs ← ensure_filters rest;
      OK (f :: fs)
  end.

Definition _make_filter_list (args : list (F + json)) (kwargs : list (string * json))
  : res (list F) :=
  ks ← parse_filters kwargs;
  vs ← ensure_filters args;
  OK (ks ++ vs).

(** *** The chainable methods *)

Definition min_score (score : json) : loc -> M F loc :=
  clone (fun self => modify self (set_min_score score);; mret self).

(** [is_string_or_not_iterable] *)
Definition is_string_or_not_iterable (arg : json) : bool :=
  match arg with
  | JList _ | JDict _ => false
  | _ => true
  end.

Definition match_text (kwargs : list (string * json)) : loc -> M F loc :=
  clone (fun self =>
    '(key, values, options) ← lift (parse_kwargs kwargs);
    values ← lift (if is_string_or_not_iterable values then OK [values]
                   else iterate values);
    o ← get_qs self;
    for_ values (fun value =>
      q ← lift (MatchQuery_init key value options);
      append_query (_must_search_set o) q);;
    mret self).

Definition add_optional_query (query : Query F) : loc -> M F loc :=
  clone (fun self =>
    o ← get_qs self;
    append_query (_optional_search_set o) query;;
    mret self).

Definition startswith (s : string) (p : string) : bool := String.prefix p s.

Definition tail (s : string) : string :=
  match s with EmptyString => EmptyString | String _ r => r end.

Fixpoint orderings_to_sort (orderings : list string) : res (list json) :=
  match orderings with
  | [] => OK []
  | order :: rest =>
      kv ← (if String.eqb order "_score" then OK (order, "desc")
            else if startswith order "_" then
              Raise (ValueError (JStr (String.append "Invalid ordering " order)))
            else if startswith order "-" then OK (tail order, "desc")
            else if startswith order "+" then OK (tail order, "asc")
            else OK (order, "asc"));
      result ← orderings_to_sort rest;
      OK (JDict [(fst kv, JStr (snd kv))] :: result)
  end.

Definition sorted_by (orderings : list string) : loc -> M F loc :=
  clone (fun self =>
    result ← lift (orderings_to_sort orderings);
    l ← alloc (CSortList result);
    modify self (set_sort l);;
    mret self).

Fixpoint dict_del {V} (d : list (string * V)) (k : string) : list (string * V) :=
  match d with
  | [] => []
  | (k', v) :: d' => if String.eqb k' k then d' else (k', v) :: dict_del d' k
  end.

Definition aggregation (term : json) (size min_doc_count order exclude include : json)
    (with_top_hits : option TopHits) (kwargs : list (string * json))
  : loc -> M F loc :=
  clone (fun self =>
    let kwargs := dict_del kwargs "name" in
    facet ← lift (match term with
                  | JStr term =>
                      TermsAggregation_init term (Some term) size order include
                        exclude min_doc_count with_top_hits kwargs
                  | _ => Raise (NotImplementedError
                                  "Aggregation does not understand type of term")
                  end);
    o ← get_qs self;
    append_agg (_aggs_fields o) facet;;
    mret self).

Definition filter (args : list (F + json)) (kwargs : list (string * json))
  : loc -> M F loc :=
  clone (fun self =>
    fs ← lift (_make_filter_list args kwargs);
    o ← get_qs self;
    for_ fs (fun f => FilterDict.add_positive (_filters o) (name f) f);;
    mret self).

Definition exclude (args : list (F + json)) (kwargs : list (string * json))
  : loc -> M F loc :=
  clone (fun self =>
    fs ← lift (_make_filter_list args kwargs);
    o ← get_qs self;
    for_ fs (fun f => FilterDict.add_negative (_filters o) (name f) f);;
    mret self).

Definition suppress (args : list (F + json)) (kwargs : list (string * json))
  : loc -> M F loc :=
  clone (fun self =>
    filters ← lift (_make_filter_list args kwargs);
    o ← get_qs self;
    for_ filters (fun f => append_query (_negative_boost_queries o) (FilterQ f));;
    mret self).

Definition none : loc -> M F loc :=
  clone (fun self => modify self (set_is_none_set true);; mret self).

Definition no_pages : loc -> M F loc :=
  clone (fun self =>
    modify self (fun o => set_track_total_hits false (set_page 0 0 o));;
    mret self).

Definition enable_hit_counter : loc -> M F loc :=
  clone (fun self => modify self (set_track_total_hits true);; mret self).

Definition disable_hit_counter : loc -> M F loc :=
  clone (fun self => modify self (set_track_total_hits false);; mret self).

(** [int(x)] where callers pass an integer or leave the default [None]. *)
Definition int_arg (x : option Z) : res Z :=
  match x with
  | Some n => OK n
  | None => Raise (TypeError "int() argument must be a string or a number")
  end.

Definition paginate (page page_size : option Z) : loc -> M F loc :=
  clone (fun self =>
    page ← lift (int_arg page);
    page_size ← lift (int_arg page_size);
    if page <=? 0 then raise (ValueError (JStr "Page must be > 0"))
    else if page_size <=? 0 then
      raise (ValueError (JStr "Page_size must an integer > 0"))
    else
      modify self (fun o => set_page ((page - 1) * page_size) page_size o);;
      mret self).

Definition slice (start end_ : option Z) : loc -> M F loc :=
  clone (fun self =>
    start ← lift (int_arg start);
    end_ ← lift (int_arg end_);
    let page_size := end_ - start in
    if 0 >? start then
      raise (ValueError (JStr "Start must be an integer greater than 0"))
    else if start >? end_ then
      raise (ValueError (JStr "End must be an integer greater than start"))
    else if 1 >? page_size then
      raise (ValueError (JStr "Derived page size must be at least 1"))
    else
      modify self (fun o => set_page start page_size o);;
      mret self).

Definition all : loc -> M F loc :=
  clone (fun self => mret self).

(** A call of one of the chainable methods, with its arguments. *)
Inductive call : Type :=
| call_filter (args : list (F + json)) (kwargs : list (string * json))
| call_exclude (args : list (F + json)) (kwargs : list (string * json))
| call_suppress (args : list (F + json)) (kwargs : list (string * json))
| call_match_text (kwargs : list (string * json))
| call_add_optional_query (query : Query F)
| call_sorted_by (orderings : list string)
| call_aggregation (term size min_doc_count order exclude include : json)
    (with_top_hits : option TopHits) (kwargs : list (string * json))
| call_paginate (page page_size : option Z)
| call_slice (start end_ : option Z)
| call_min_score (score : json)
| call_none
| call_no_pages
| call_enable_hit_counter
| call_disable_hit_counter
| call_all.

Definition apply_call (c : call) : loc -> M F loc :=
  match c with
  | call_filter args kwargs => filter args kwargs
  | call_exclude args kwargs => exclude args kwargs
  | call_suppress args kwargs => suppress args kwargs
  | call_match_text kwargs => match_text kwargs
  | call_add_optional_query query => add_optional_query query
  | call_sorted_by orderings => sorted_by orderings
  | call_aggregation term size min_doc_count order exclude include with_top_hits
      kwargs =>
      aggregation term size min_doc_count order exclude include with_top_hits kwargs
  | call_paginate page page_size => paginate page page_size
  | call_slice start end_ => slice start end_
  | call_min_score score => min_score score
  | call_none => none
  | call_no_pages => no_pages
  | call_enable_hit_counter => enable_hit_counter
  | call_disable_hit_counter => disable_hit_counter
  | call_all => all
  end.

(** Calls that cannot raise: the methods without argument checks, and
    [paginate] and [slice] on arguments that pass theirs. *)
Definition always_returns (c : call) : bool :=
  match c with
  | call_add_optional_query _ | call_min_score _ | call_none | call_no_pages
  | call_enable_hit_counter | call_disable_hit_counter | call_all => true
  | call_paginate (Some page) (Some page_size) => (0 <? page) && (0 <? page_size)
  | call_slice (Some start) (Some end_) => (0 <=? start) && (start <? end_)
  | _ => false
  end.

(** *** Execution *)

(** [empty_result_set] *)
Definition empty_result_set : M F loc :=
  rs ← lift (ResultSet_init
               (JDict [("hits", JDict [("hits", JList []); ("total", JInt 0);
                                       ("max_score", JInt 0)]);
                       ("_shards", JInt 0)]));
  alloc (CResultSet rs).

(** [_execute_callback] of the base class. *)
Definition _execute_callback (self : loc) (result_set : loc) : M F (option loc) :=
  mret (Some result_set).

(** [utils.raw_search].  [handle_elastic_search_errors] turns an [IOError]
    into [NoServerAvailable] and hands a [TransportError] to
    [raise_on_transport_error]; when that returns without raising, the
    context manager swallows the error and [raw_search] returns [None]. *)
Definition raw_search (conn : Elasticsearch) (body indexes : json)
    (callback : loc -> M F (option loc)) (query_params : list (string * json))
  : M F (option loc) :=
  history ← get_trace;
  emit (Search body indexes query_params);;
  match es_search conn history body indexes query_params with
  | Response raw_results =>
      rs ← lift (ResultSet_init raw_results);
      results ← alloc (CResultSet rs);
      callback results
  | IOError msg => raise (NoServerAvailable (JStr msg) (JInt 500) body)
  | TransportError info status =>
      lift (raise_on_transport_error info status body);;
      mret None
  | Failure e => raise e
  end.

(** [utils.raw_count]; the request body attached to errors is the text
    [COUNT <indexes>]. *)
Definition raw_count (conn : Elasticsearch) (body indexes : json) : M F json :=
  history ← get_trace;
  emit (Count body indexes);;
  match es_count conn history body indexes with
  | Response raw_results => lift (getitem raw_results "count")
  | IOError msg =>
      raise (NoServerAvailable (JStr msg) (JInt 500) (JList [JStr "COUNT"; indexes]))
  | TransportError info status =>
      lift (raise_on_transport_error info status (JList [JStr "COUNT"; indexes]));;
      mret JNull
  | Failure e => raise e
  end.

(** [execute]; the result is [None] only when [raw_search] returned it. *)
Definition execute (indexes : json) (query_params : list (string * json))
    (self : loc) : M F (option loc) :=
  o ← get_qs self;
  match _result_set o with
  | Some r => mret (Some r)
  | None =>
      if _is_none_set o then
        r ← empty_result_set;
        mret (Some r)
      else
        body ← to_dict_of self;
        results ← raw_search (conn o) body indexes (_execute_callback self)
                    query_params;
        modify self (set_result_set results);;
        mret results
  end.

(** [count] *)
Definition count (indexes : json) (self : loc) : M F json :=
  o ← get_qs self;
  match _result_set o with
  | Some r =>
      rs ← get_result_set r;
      mret (total rs)
  | None =>
      if _is_none_set o then mret (JInt 0)
      else
        body ← to_dict_of self;
        query ← lift (getitem body "query");
        has_from ← lift (contains "from" body);
        from ← (if has_from : bool then
                  v ← lift (getitem body "from"); mret [("from", v)]
                else mret []);
        raw_count (conn o) (JDict ([("query", query)] ++ from)) indexes
  end.

(** [execute] called once and then [k] more times. *)
Fixpoint execute_again (k : nat) (indexes : json)
    (query_params : list (string * json)) (self : loc) : M F (option loc) :=
  match k with
  | O => execute indexes query_params self
  | S k' =>
      execute indexes query_params self;;
      execute_again k' indexes query_params self
  end.

End QuerySet.
Arguments call F : clear implicits.
End SuspendersQuerySet.

(** ** filters.py *)

Module filters.

(** Structural equality of values. *)
Fixpoint json_eqb (a b : json) : bool :=
  match a, b with
  | JNull, JNull => true
  | JBool x, JBool y => Bool.eqb x y
  | JInt x, JInt y => x =? y
  | JFloat n d, JFloat n' d' => (n =? n') && (d =? d')%positive
  | JStr s, JStr t => String.eqb s t
  | JList l, JList l' =>
      (fix go (l l' : list json) : bool :=
         match l, l' with
         | [], [] => true
         | x :: r, y :: r' => json_eqb x y && go r r'
         | _, _ => false
         end) l l'
  | JDict kv, JDict kv' =>
      (fix go (kv kv' : list (string * json)) : bool :=
         match kv, kv' with
         | [], [] => true
         | (k, x) :: r, (k', y) :: r' => String.eqb k k' && json_eqb x y && go r r'
         | _, _ => false
         end) kv kv'
  | _, _ => false
  end.

Definition mem (v : json) (l : list json) : bool := existsb (json_eqb v) l.

(** The values of [a], then those of [b] that [a] lacks. *)
Fixpoint union (a b : list json) : list json :=
  match b with
  | [] => a
  | v :: r => union (if mem v a then a else a ++ [v]) r
  end.

(** Modelled from the spec: the operator kinds of a [Filter], as far as the
    spec names them. *)
Inductive kind : Type := OpEq | OpRange | OpIn | OpPrefix | OpExists.

Definition kind_eqb (k k' : kind) : bool :=
  match k, k' with
  | OpEq, OpEq | OpRange, OpRange | OpIn, OpIn | OpPrefix, OpPrefix
  | OpExists, OpExists => true
  | _, _ => false
  end.

Definition kind_name (k : kind) : string :=
  match k with
  | OpEq => "eq" | OpRange => "range" | OpIn => "in" | OpPrefix => "prefix"
  | OpExists => "exists"
  end.

(** Modelled from the spec: the class [Filter] of [filters.py], which is not
    among the sources.  The spec gives a filter a field name, an operator
    kind, its values and the [is_multi] flag (set for membership), and makes
    it immutable after construction. *)
Record Filter : Type := {
  field : string;
  op : kind;
  values : list json;
}.

(** Modelled from the spec: [Filter.merge], which is not among the sources.
    Two [in] filters on the same field merge into one whose value set is the
    union; filters of different field or kind do not merge.  The spec leaves
    the combined value of the other kinds open, and they are not merged
    here. *)
Definition Filter_merge (f g : Filter) : option Filter :=
  if String.eqb (field f) (field g) && kind_eqb (op f) (op g) then
    match op f with
    | OpIn => Some {| field := field f; op := OpIn;
                    values := union (values f) (values g) |}
    | _ => None
    end
  else None.

(** Modelled from the spec: [Filter.to_dict], which is not among the
    sources; the spec asks only for one fragment per filter, naming its kind,
    field and values. *)
Definition Filter_to_dict (f : Filter) : json :=
  JDict [(kind_name (op f), JDict [(field f, JList (values f))])].

Fixpoint strip_suffix_in (s : string) : option string :=
  match s with
  | EmptyString => None
  | String c r =>
      if String.eqb s "__in" then Some EmptyString
      else match strip_suffix_in r with
           | Some p => Some (String c p)
           | None => None
           end
  end.

(** Modelled from the spec: [parse_filter], which is not among the sources.
    The spec shows [field__in=values] giving a membership filter on [field];
    a key without that suffix is taken as equality on the key. *)
Definition Filter_parse (key : string) (value : json) : res Filter :=
  match strip_suffix_in key with
  | Some f =>
      vs ← iterate value;
      OK {| field := f; op := OpIn; values := vs |}
  | None => OK {| field := key; op := OpEq; values := [value] |}
  end.

(** Modelled from the spec: [parse_kwargs], which is not among the sources
    and of which the spec says nothing beyond its use by [match_text]: the
    first keyword is the field and its value, the others are options. *)
Definition Filter_parse_kwargs (kwargs : list (string * json))
  : res (string * json * list (string * json)) :=
  match kwargs with
  | (k, v) :: options => OK (k, v, options)
  | [] => Raise (ValueError (JStr "no field given"))
  end.

#[global] Instance Filter_IsFilter : IsFilter Filter := {|
  name := field;
  is_multi := fun f => kind_eqb (op f) OpIn;
  merge := Filter_merge;
  filter_to_dict := Filter_to_dict;
  parse_filter := Filter_parse;
  parse_kwargs := Filter_parse_kwargs;
|}.

End filters.

(** ** result_set.py: the documents of a result set *)

Module documents.

(** [obj.copy()]: dictionaries and lists have the method. *)
Definition copy (obj : json) : res json :=
  match obj with
  | JDict _ | JList _ => OK obj
  | _ => Raise (AttributeError "object has no attribute 'copy'")
  end.

(** [obj.get(key, default)] *)
Definition get (obj : json) (key : string) (default : json) : res json :=
  match obj with
  | JDict kv => OK (option.default default (dict_get kv key))
  | _ => Raise (AttributeError "object has no attribute 'get'")
  end.

(** [_clean_doc_value]: a dictionary is rebuilt entry by entry, its values
    cleaned; any other value, a list included, is returned as it is. *)
Fixpoint _clean_doc_value (value : json) : json :=
  match value with
  | JDict kv =>
      JDict ((fix go (kv ret : list (string * json)) : list (string * json) :=
                match kv with
                | [] => ret
                | (k, v) :: r => go r (dict_set ret k (_clean_doc_value v))
                end) kv [])
  | _ => value
  end.

(** The inner loop of [_clean_doc]. *)
Fixpoint add_cleaned (entries cleaned_doc : list (string * json))
  : list (string * json) :=
  match entries with
  | [] => cleaned_doc
  | (key, value) :: rest =>
      add_cleaned rest (dict_set cleaned_doc key (_clean_doc_value value))
  end.

(** One round of the outer loop of [_clean_doc], for [field_name]. *)
Definition add_fields_of (doc : json) (field_name : string)
    (cleaned_doc : list (string * json)) : res (list (string * json)) :=
  present ← contains field_name doc;
  if present : bool then
    source ← getitem doc field_name;
    entries ← items source;
    OK (add_cleaned entries cleaned_doc)
  else OK cleaned_doc.

(** [_clean_doc] *)
Definition _clean_doc (doc : json) : res json :=
  doc ← copy doc;
  cleaned_doc ← add_fields_of doc "_source" [];
  cleaned_doc ← add_fields_of doc "fields" cleaned_doc;
  _id ← get doc "_id" JNull;
  id ← get doc "id" _id;
  let cleaned_doc := dict_set cleaned_doc "id" id in
  _score ← getitem doc "_score";
  OK (JDict (dict_set cleaned_doc "_score" _score)).

Definition set_object_dictionary (objects : list json) (rs : ResultSet) : ResultSet :=
  {| _raw := _raw rs; _hits := _hits rs; _documents := _documents rs;
     _shards := _shards rs; total := total rs; total_relation := total_relation rs;
     max_score := max_score rs; aggregations := aggregations rs;
     explain := explain rs; _objects := _objects rs;
     _object_dictionary := objects |}.

Definition set_objects (objects : list json) (rs : ResultSet) : ResultSet :=
  {| _raw := _raw rs; _hits := _hits rs; _documents := _documents rs;
     _shards := _shards rs; total := total rs; total_relation := total_relation rs;
     max_score := max_score rs; aggregations := aggregations rs;
     explain := explain rs; _objects := objects;
     _object_dictionary := _object_dictionary rs |}.

Fixpoint clean_all (docs : list json) : res (list json) :=
  match docs with
  | [] => OK []
  | doc :: rest =>
      cleaned ← _clean_doc doc;
      objects ← clean_all rest;
      OK (cleaned :: objects)
  end.

(** [as_dict]: the result set as it is afterwards, and what is returned.
    The cleaned documents are kept only when the loop has run to its end. *)
Definition as_dict (rs : ResultSet) : ResultSet * res (list json) :=
  match _object_dictionary rs with
  | [] =>
      match docs ← iterate (_documents rs); clean_all docs with
      | OK objects => (set_object_dictionary objects rs, OK objects)
      | Raise e => (rs, Raise e)
      end
  | kept => (rs, OK kept)
  end.

Section Objects.
(** The function a result set builds its objects with: [Result] by
    default, or the one a callback has installed on the result set.  An
    object is carried as a value, and is dropped when it is false. *)
Variable type_from_fields : json -> res json.

Fixpoint build_all (docs : list json) : res (list json) :=
  match docs with
  | [] => OK []
  | doc :: rest =>
      obj ← type_from_fields doc;
      objects ← build_all rest;
      OK (if truthy obj then obj :: objects else objects)
  end.

(** [as_objects] *)
Definition as_objects (rs : ResultSet) : ResultSet * res (list json) :=
  match _objects rs with
  | [] =>
      match as_dict rs with
      | (rs, OK docs) =>
          match build_all docs with
          | OK objects => (set_objects objects rs, OK objects)
          | Raise e => (rs, Raise e)
          end
      | (rs, Raise e) => (rs, Raise e)
      end
  | kept => (rs, OK kept)
  end.

(** The key of [__getitem__]: an integer, a slice [start:stop] (either
    bound may be left out), or a value that is neither. *)
Inductive key : Type :=
| Index (k : Z)
| Slice (start stop : option Z)
| Other (v : json).

(** [objects[start:stop]] for bounds that are not negative. *)
Definition slice_of {A} (l : list A) (start stop : option Z) : list A :=
  let lo := Z.to_nat (default 0 start) in
  let hi := match stop with Some s => Z.to_nat s | None => length l end in
  take (hi - lo) (drop lo l).

(** [__getitem__]: what is returned is an object for an index and a list of
    objects for a slice. *)
Definition __getitem__ (rs : ResultSet) (k : key)
  : ResultSet * res (json + list json) :=
  match k with
  | Other _ => (rs, Raise (TypeError ""))
  | Index i =>
      if i <? 0 then
        (rs, Raise (OtherException "AssertionError: Negative indexing is not supported."))
      else
        match as_objects rs with
        | (rs, OK objects) =>
            match objects !! Z.to_nat i with
            | Some obj => (rs, OK (inl obj))
            | None => (rs, Raise (OtherException "IndexError: list index out of range"))
            end
        | (rs, Raise e) => (rs, Raise e)
        end
  | Slice start stop =>
      if (default 0 start <? 0) || (default 0 stop <? 0) then
        (rs, Raise (OtherException "AssertionError: Negative indexing is not supported."))
      else
        match as_objects rs with
        | (rs, OK objects) => (rs, OK (inr (slice_of objects start stop)))
        | (rs, Raise e) => (rs, Raise e)
        end
  end.

End Objects.

End documents.

(** ** query_set.py: reading results off a query set *)

Module reads.
Import SuspendersQuerySet.
Section Reads.
Context {F : Type} `{IsFilter F}.
(** The function result sets build their objects with. *)
Variable type_from_fields : json -> res json.

(** [result_set.documents], on the result set at [r]: what [as_objects]
    did to the result set stays, also when it raises. *)
Definition documents_of (r : loc) : M F (list json) :=
  rs ← get_result_set r;
  let '(rs, objects) := documents.as_objects type_from_fields rs in
  write r (CResultSet rs);;
  lift objects.

(** [first]; [len(None)] raises when [execute] has returned [None]. *)
Definition first (self : loc) : M F (option json) :=
  result_set ← execute JNull [] self;
  match result_set with
  | None => raise (TypeError "object of type 'NoneType' has no len()")
  | Some r =>
      rs ← get_result_set r;
      n ← lift (ResultSet_len rs);
      if n >? 0 then
        objects ← documents_of r;
        match objects with
        | obj :: _ => mret (Some obj)
        | [] => raise (OtherException "IndexError: list index out of range")
        end
      else mret None
  end.

(** [get] *)
Definition get (args : list (F + json)) (kwargs : list (string * json))
    (self : loc) : M F json :=
  qs ← filter args kwargs self;
  result ← first qs;
  match result with
  | None => raise (OtherException "ObjectDoesNotExist")
  | Some obj => mret obj
  end.

(** [result_set_from_dict] *)
Definition result_set_from_dict (a_dict : json) (self : loc) : M F (option loc) :=
  rs ← lift (ResultSet_init a_dict);
  results ← alloc (CResultSet rs);
  results ← _execute_callback self results;
  modify self (set_result_set results);;
  mret results.

End Reads.
End reads.

(** ** mappings/fields.py *)

Module fields.

(** A [SearchField] instance.  [type_] is the attribute [type] that
    [IntegerField] and [DoubleField] set besides. *)
Record SearchField : Type := {
  model_attr : json;
  nullable : json;
  kwargs : list (string * json);
  type_ : option string;
}.

(** The method call [f(k1=v1, ..., **kwargs)]: an argument given twice, be
    it one of the explicit keywords or [self], is a [TypeError]; otherwise the
    callee sees the explicit keywords, then those of [kwargs]. *)
Definition keywords (explicit kwargs : list (string * json))
  : res (list (string * json)) :=
  if existsb (fun kv => dict_has explicit (fst kv) || String.eqb (fst kv) "self") kwargs
  then Raise (TypeError "got multiple values for argument")
  else OK (explicit ++ kwargs).

(** [SearchField.__init__(self, model_attr=None, nullable=False, **kwargs)],
    by the keywords it is called with. *)
Definition SearchField_init (keywords : list (string * json)) : SearchField :=
  {| model_attr := default JNull (dict_get keywords "model_attr");
     nullable := default (JBool false) (dict_get keywords "nullable");
     kwargs := List.filter (fun kv => negb (String.eqb (fst kv) "model_attr"
                                            || String.eqb (fst kv) "nullable"))
                 keywords;
     type_ := None |}.

Definition set_type (t : string) (f : SearchField) : SearchField :=
  {| model_attr := model_attr f; nullable := nullable f; kwargs := kwargs f;
     type_ := Some t |}.

(** [to_json] *)
Definition to_json (f : SearchField) : json := JDict (kwargs f).

Definition TextField_init (kwargs : list (string * json)) : res SearchField :=
  kw ← keywords [("type", JStr "text")] kwargs;
  OK (SearchField_init kw).

Definition KeywordField_init (kwargs : list (string * json)) : res SearchField :=
  kw ← keywords [("type", JStr "keyword")] kwargs;
  OK (SearchField_init kw).

(** [AggregationField.__init__]: its [super().__init__] is
    [KeywordField.__init__]. *)
Definition AggregationField_init (kwargs : list (string * json)) : res SearchField :=
  kw ← keywords [("type", JStr "keyword"); ("eager_global_ordinals", JBool true);
                 ("fielddata", JBool true)] kwargs;
  KeywordField_init kw.

Definition IntegerField_init (kwargs : list (string * json)) : res SearchField :=
  kw ← keywords [("type", JStr "integer")] kwargs;
  OK (set_type "integer" (SearchField_init kw)).

Definition DoubleField_init (kwargs : list (string * json)) : res SearchField :=
  kw ← keywords [("type", JStr "double")] kwargs;
  OK (set_type "double" (SearchField_init kw)).

Definition DateField_init (kwargs : list (string * json)) : res SearchField :=
  kw ← keywords [("type", JStr "date")] kwargs;
  OK (SearchField_init kw).

Definition BooleanField_init (kwargs : list (string * json)) : res SearchField :=
  kw ← keywords [("type", JStr "boolean")] kwargs;
  OK (SearchField_init kw).

End fields.

(** ** pyes_filters.py *)

Module pyes_filters.

Record ESRange : Type := {
  field : json;
  from_value : json;
  to_value : json;
  include_lower : json;
  include_upper : json;
}.

(** [x is None] *)
Definition is_None (x : json) : bool :=
  match x with JNull => true | _ => false end.

(** [ESRange.__init__]; further keywords are accepted and dropped. *)
Definition ESRange_init (field from_value to_value include_lower include_upper : json)
  : ESRange :=
  {| field := field; from_value := from_value; to_value := to_value;
     include_lower := include_lower; include_upper := include_upper |}.

(** [negate]: the object after the call. *)
Definition negate (self : ESRange) : ESRange :=
  {| field := field self;
     from_value := to_value self;
     to_value := from_value self;
     include_lower := include_upper self;
     include_upper := include_lower self |}.

(** [serialize] *)
Definition serialize (self : ESRange) : json * list (string * json) :=
  let filters := [] in
  let filters :=
    if negb (is_None (from_value self)) then
      dict_set filters (if truthy (include_lower self) then "gte" else "gt")
        (from_value self)
    else filters in
  let filters :=
    if negb (is_None (to_value self)) then
      dict_set filters (if truthy (include_upper self) then "lte" else "lt")
        (to_value self)
    else filters in
  (field self, filters).

(** One round of the loop of [ESRangeOp.__init__], on the four local
    variables. *)
Definition read_op (op value : json) (bounds : json * json * json * json)
  : json * json * json * json :=
  let '(from_value, to_value, include_lower, include_upper) := bounds in
  let '(from_value, include_lower) :=
    if is_str op "gt" then (value, JBool false)
    else if is_str op "gte" then (value, JBool true)
    else (from_value, include_lower) in
  let '(to_value, include_upper) :=
    if is_str op "lt" then (value, JBool false)
    else if is_str op "lte" then (value, JBool true)
    else (to_value, include_upper) in
  (from_value, to_value, include_lower, include_upper).

(** [ESRangeOp.__init__(field, op1, value1, op2=None, value2=None)] *)
Definition ESRangeOp_init (field op1 value1 op2 value2 : json) : ESRange :=
  let '(from_value, to_value, include_lower, include_upper) :=
    read_op op2 value2 (read_op op1 value1 (JNull, JNull, JNull, JNull)) in
  ESRange_init field from_value to_value include_lower include_upper.

End pyes_filters.

(** ** mappings/bulk_manager.py *)

Module bulk_manager.
Section BulkManager.
(** The connections, and [elasticsearch.helpers.bulk] as far as the manager
    sees it: it returns or raises. *)
Variable Conn : Type.
Variable bulk_helper : Conn -> list json -> Z -> res unit.

(** A [BulkManager] instance.  [own_actions] is the instance attribute
    [actions], which exists only once [flush] has assigned it; until then
    [self.actions] is the list of the class. *)
Record BulkManager : Type := {
  conn : Conn;
  chunk_size : Z;
  own_actions : option (list json);
}.

(** The list [BulkManager.actions] of the class, the instances, and the
    calls of [bulk_helper] so far. *)
Record bulk_world : Type := {
  class_actions : list json;
  managers : list BulkManager;
  calls : list (Conn * list json * Z);
}.

Definition B (A : Type) : Type := bulk_world -> bulk_world * res A.

(** [BulkManager(conn, chunk_size)] *)
Definition init (conn : Conn) (chunk_size : Z) : B nat :=
  fun w =>
    ({| class_actions := class_actions w;
        managers := managers w ++ [{| conn := conn; chunk_size := chunk_size;
                                      own_actions := None |}];
        calls := calls w |}, OK (length (managers w))).

(** [self.actions] *)
Definition actions (w : bulk_world) (m : BulkManager) : list json :=
  match own_actions m with
  | Some l => l
  | None => class_actions w
  end.

(** [flush] *)
Definition flush (self : nat) : B unit :=
  fun w =>
    match managers w !! self with
    | None => (w, Raise StoreFault)
    | Some m =>
        let actions := actions w m in
        let w := {| class_actions := class_actions w; managers := managers w;
                    calls := calls w ++ [(conn m, actions, chunk_size m)] |} in
        match bulk_helper (conn m) actions (chunk_size m) with
        | Raise e => (w, Raise e)
        | OK _ =>
            ({| class_actions := class_actions w;
                managers := <[self:={| conn := conn m; chunk_size := chunk_size m;
                                       own_actions := Some [] |}]> (managers w);
                calls := calls w |}, OK tt)
        end
    end.

(** [append_action]; [len(action)] is the number of keys of the action. *)
Definition append_action (self : nat) (action : list (string * json)) : B unit :=
  fun w =>
    match managers w !! self with
    | None => (w, Raise StoreFault)
    | Some m =>
        let w :=
          match own_actions m with
          | Some l =>
              {| class_actions := class_actions w;
                 managers := <[self:={| conn := conn m; chunk_size := chunk_size m;
                                        own_actions := Some (l ++ [JDict action]) |}]>
                               (managers w);
                 calls := calls w |}
          | None =>
              {| class_actions := class_actions w ++ [JDict action];
                 managers := managers w;
                 calls := calls w |}
          end in
        if Z.of_nat (length action) >=? chunk_size m then flush self w
        else (w, OK tt)
    end.

(** [index] *)
Definition index (self : nat) (id doc index : json) : B unit :=
  append_action self [("_op_type", JStr "index"); ("_index", index); ("_id", id);
                      ("_source", doc)].

(** [delete] *)
Definition delete (self : nat) (id index : json) : B unit :=
  append_action self [("_op_type", JStr "delete"); ("_index", index); ("_id", id)].

End BulkManager.
Arguments conn {Conn}.
Arguments chunk_size {Conn}.
Arguments own_actions {Conn}.
Arguments class_actions {Conn}.
Arguments managers {Conn}.
Arguments calls {Conn}.
Arguments actions {Conn}.
End bulk_manager.

(** ** mappings/base_map.py: the indexes of a map *)

Module base_map.




End base_map.

(** * Vocabulary of the properties *)

(** ** Boolean-query validation *)

Module BoolQuerySpec.
Section BoolQuerySpec.
Context {F : Type} `{IsFilter F}.

(** The clause combinations the constructor rejects, as the specification
    words them; a clause list is present when it holds at least one clause. *)
Definition no_clause_at_all (must maybe must_not : option (list (Query F))) : Prop :=
  truthy_list must = false /\ truthy_list maybe = false
  /\ truthy_list must_not = false.

Definition must_not_alone (must maybe must_not : option (list (Query F)))
    (acts_as_filter : bool) : Prop :=
  truthy_list must_not = true /\ truthy_list must = false
  /\ truthy_list maybe = false /\ acts_as_filter = false.

(** [minimum_should_match] was given a value, whatever it is. *)
Definition msm_set_without_should (maybe : option (list (Query F)))
    (minimum_should_match : option Z) : Prop :=
  minimum_should_match <> None /\ truthy_list maybe = false.

(** [minimum_should_match] was given a value other than zero. *)
Definition msm_nonzero_without_should (maybe : option (list (Query F)))
    (minimum_should_match : option Z) : Prop :=
  (exists n, minimum_should_match = Some n /\ n <> 0)
  /\ truthy_list maybe = false.

End BoolQuerySpec.
End BoolQuerySpec.

(** ** Responses *)

Module ResultSetSpec.

(** What [__init__] needs of a response besides the total: the hit list,
    the shard information, the maximal score and decodable aggregations. *)
Record well_formed (response : list (string * json)) (hits : list (string * json))
  : Prop := {
  wf_hits : dict_get response "hits" = Some (JDict hits);
  wf_documents : dict_has hits "hits" = true;
  wf_shards : dict_has response "_shards" = true;
  wf_max_score : dict_has hits "max_score" = true;
  wf_aggregations : raises (decode_aggregations (JDict response)) = false;
}.

(** The response of an engine that reports totals as objects. *)
Definition response_gte : list (string * json) :=
  [("took", JInt 2);
   ("_shards", JDict [("total", JInt 5); ("successful", JInt 5); ("failed", JInt 0)]);
   ("hits", JDict [("total", JDict [("value", JInt 5); ("relation", JStr "gte")]);
                   ("max_score", JNull);
                   ("hits", JList [])])].

Definition hits_gte : list (string * json) :=
  [("total", JDict [("value", JInt 5); ("relation", JStr "gte")]);
   ("max_score", JNull);
   ("hits", JList [])].

(** A response with a single hit. *)
Definition hits_one : list (string * json) :=
  [("total", JInt 1);
   ("max_score", JInt 1);
   ("hits", JList [JDict [("_index", JStr "twitter"); ("_id", JStr "1");
                          ("_score", JInt 1);
                          ("_source", JDict [("user", JStr "kimchy")])]])].

Definition response_one : list (string * json) :=
  [("_shards", JDict [("total", JInt 5); ("successful", JInt 5); ("failed", JInt 0)]);
   ("hits", JDict hits_one)].

End ResultSetSpec.

(** ** Error payloads *)

Module ErrorSpec.

(** The error payload cannot be indexed by a string: it is a string, a
    list, a number, a boolean or [None]. *)
Definition not_subscriptable (raw_error : json) : Prop :=
  match raw_error with JDict _ => False | _ => True end.

Definition index_missing_payload : list (string * json) :=
  [("error",
    JDict [("root_cause",
            JList [JDict [("type", JStr "index_not_found_exception");
                          ("reason", JStr "no such index")]]);
           ("type", JStr "index_not_found_exception")]);
   ("status", JInt 404)].

End ErrorSpec.

(** ** Compiled fragments *)

Module CompileSpec.
Import SuspendersQuerySet.
Section CompileSpec.
Context {F : Type} `{IsFilter F}.

Definition ser_opt (o : option (list (Query F))) : res (list json) :=
  if truthy_list o then _serialize_inner_queries (default [] o) else OK [].

(** The filter-context fragment: a [bool] whose [must] holds the positive
    filters and whose [must_not] holds the negative ones, each key present
    when its list is not empty. *)
Definition filter_bool (kv : list (string * (polarity * F))) : json :=
  let pos := map filter_to_dict (FilterDict.positive_filters kv) in
  let neg := map filter_to_dict (FilterDict.negative_filters kv) in
  JDict [("bool", JDict (opt_key (nonempty pos) "must" (JList pos)
                         ++ opt_key (nonempty neg) "must_not" (JList neg)))].

(** The search-context fragment: a [bool] with the must and should
    queries, and [minimum_should_match] only next to should queries. *)
Definition search_bool (msm : Z) (must should : list (Query F)) (ms ss : list json)
  : json :=
  JDict [("bool",
          JDict (opt_key (nonempty should && negb (msm =? 0))
                   "minimum_should_match" (JInt msm)
                 ++ opt_key (nonempty must) "must" (JList ms)
                 ++ opt_key (nonempty should) "should" (JList ss)))].

End CompileSpec.

(** A query set as [__init__] leaves it. *)
Definition fresh_state : QState (F := filters.Filter) :=
  {| s_min_score := JNull; s_from := 0; s_page_size := 10; s_sort := [];
     s_must_search_set := []; s_optional_search_set := []; s_filters := [];
     s_negative_boost_queries := []; s_aggs_fields := [];
     s_is_none_set := false; s_minimum_should_match := 1;
     s_aggregations_use_sampler := false; s_track_total_hits := false |}.

Definition tags_in : filters.Filter :=
  {| filters.field := "tags"; filters.op := filters.OpIn;
     filters.values := [JStr "hello"; JStr "world"] |}.

Definition draft_eq : filters.Filter :=
  {| filters.field := "draft"; filters.op := filters.OpEq;
     filters.values := [JBool true] |}.

(** One must query, one should query, a positive and a negative filter. *)
Definition both_contexts : QState (F := filters.Filter) :=
  {| s_min_score := JNull; s_from := 0; s_page_size := 10; s_sort := [];
     s_must_search_set := [MatchQuery "name" (JStr "Baloney") (JStr "boolean") (JInt 50)];
     s_optional_search_set := [TermQuery "uuid" (JStr "2")];
     s_filters := [("+tags", (Plus, tags_in)); ("draft", (Minus, draft_eq))];
     s_negative_boost_queries := []; s_aggs_fields := [];
     s_is_none_set := false; s_minimum_should_match := 1;
     s_aggregations_use_sampler := false; s_track_total_hits := false |}.

(** A query set on which only [suppress] was called. *)
Definition suppressed_only : QState (F := filters.Filter) :=
  {| s_min_score := JNull; s_from := 0; s_page_size := 10; s_sort := [];
     s_must_search_set := []; s_optional_search_set := []; s_filters := [];
     s_negative_boost_queries := [FilterQ draft_eq]; s_aggs_fields := [];
     s_is_none_set := false; s_minimum_should_match := 1;
     s_aggregations_use_sampler := false; s_track_total_hits := false |}.

End CompileSpec.

(** ** Instances in the store *)

Module StoreSpec.
Import SuspendersQuerySet.
Local Open Scope nat_scope.
Section StoreSpec.
Context {F : Type} `{IsFilter F}.

Inductive kind : Type :=
| KSort | KQueries | KAggs | KDict | KFilterDict | KResultSet | KQuerySet.

Definition kind_of (c : cell F) : kind :=
  match c with
  | CSortList _ => KSort
  | CQueries _ => KQueries
  | CAggs _ => KAggs
  | CDict _ => KDict
  | CFilterDict _ => KFilterDict
  | CResultSet _ => KResultSet
  | CQuerySet _ => KQuerySet
  end.

(** [l] is a reference, not below [n], to an object of kind [k]. *)
Definition points (n : nat) (h : list (cell F)) (l : loc) (k : kind) : Prop :=
  n <= l /\ exists c, h !! l = Some c /\ kind_of c = k.

Definition filters_ok (n : nat) (h : list (cell F)) (l : loc) : Prop :=
  n <= l /\ exists d, h !! l = Some (CFilterDict d) /\ points n h d KDict.

Definition fields_ok (n : nat) (h : list (cell F)) (o : QuerySetObj) : Prop :=
  points n h (_sort o) KSort
  /\ points n h (_must_search_set o) KQueries
  /\ points n h (_optional_search_set o) KQueries
  /\ filters_ok n h (_filters o)
  /\ points n h (_negative_boost_queries o) KQueries
  /\ points n h (_aggs_fields o) KAggs.

(** [q] is a query-set instance all of whose parts lie at or above [n]. *)
Definition instance_from (n : nat) (h : list (cell F)) (q : loc) : Prop :=
  n <= q /\ exists o, h !! q = Some (CQuerySet o) /\ fields_ok n h o.

(** [q] is a query-set instance of the store of [w]. *)
Definition is_instance (w : world F) (q : loc) : Prop :=
  instance_from 0 (heap w) q.

(** Every object of [h] is, unchanged, an object of [h']. *)
Definition extends (h h' : list (cell F)) : Prop :=
  forall l c, h !! l = Some c -> h' !! l = Some c.

Definition hoare {A} (P : world F -> Prop) (m : M F A)
    (Q : res A -> world F -> Prop) : Prop :=
  forall w, P w -> Q (m w).2 (m w).1.

(** [q] is the instance [o]; it and all its parts lie at or above [n], and
    the store below [n] is [h0]. *)
Definition owns (n : nat) (h0 : list (cell F)) (q : loc) (o : QuerySetObj)
    (w : world F) : Prop :=
  take n (heap w) = h0 /\ n <= q /\ heap w !! q = Some (CQuerySet o)
  /\ fields_ok n (heap w) o.

(** What adding [v] with tag [t] under [key] does to a dictionary [kv]:
    merge with the filter already there when that works; otherwise, when a
    filter is there, raise in [DEBUG] mode or log and overwrite; otherwise
    insert. *)
Definition add_outcome (w : world F) (d : loc) (kv : list (string * (polarity * F)))
    (key : string) (t : polarity) (v : F) : world F * res unit :=
  match dict_get kv key with
  | Some (prev, f) =>
      match merge f v with
      | Some merged =>
          ({| heap := <[d:=CDict (dict_set kv key (t, merged))]> (heap w);
              trace := trace w; DEBUG := DEBUG w |}, OK tt)
      | None =>
          if DEBUG w then
            (w, Raise (ValueError (FilterDict.overwrite_message key prev f t v)))
          else
            ({| heap := <[d:=CDict (dict_set kv key (t, v))]> (heap w);
                trace := trace w ++ [Log (FilterDict.overwrite_message key prev f t v)];
                DEBUG := DEBUG w |}, OK tt)
      end
  | None =>
      ({| heap := <[d:=CDict (dict_set kv key (t, v))]> (heap w);
          trace := trace w; DEBUG := DEBUG w |}, OK tt)
  end.

(** The attributes [copy] carries over as they are. *)
Definition same_scalars (o o' : QuerySetObj) : Prop :=
  conn o' = conn o /\ _min_score o' = _min_score o /\ _from o' = _from o
  /\ _page_size o' = _page_size o /\ _is_none_set o' = _is_none_set o
  /\ minimum_should_match o' = minimum_should_match o
  /\ aggregations_use_sampler o' = aggregations_use_sampler o
  /\ _track_total_hits o' = _track_total_hits o.

(** What a body may do to the two flags that decide [execute] and
    [count]: a none-set stays one, and the cached result is untouched. *)
Definition flags_kept (o o2 : QuerySetObj) : Prop :=
  (_is_none_set o = true -> _is_none_set o2 = true)
  /\ _result_set o2 = _result_set o.

(** The clone [q], which was the instance [o], is still an instance whose
    parts are its own, and the method, if it returns, returns [q]. *)
Definition kept (n : nat) (h0 : list (cell F)) (q : loc) (o : QuerySetObj)
    (r : res loc) (w : world F) : Prop :=
  (exists o2, owns n h0 q o2 w /\ flags_kept o o2)
  /\ forall a, r = OK a -> a = q.

(** After the body of the call [c] has run on the clone [q]: the clone
    still owns its parts, and the body has returned [q], or has raised, which
    only a call that may raise does. *)
Definition outcome (c : call F) (n : nat) (h0 : list (cell F)) (q : loc)
    (o : QuerySetObj) (r : res loc) (w : world F) : Prop :=
  (exists o2, owns n h0 q o2 w /\ flags_kept o o2)
  /\ (r = OK q \/ (always_returns c = false /\ exists e, r = Raise e)).

(** The result set [empty_result_set] builds. *)
Definition the_empty_result_set : ResultSet :=
  {| _raw := JDict [("hits", JDict [("hits", JList []); ("total", JInt 0);
                                    ("max_score", JInt 0)]);
                    ("_shards", JInt 0)];
     _hits := JDict [("hits", JList []); ("total", JInt 0); ("max_score", JInt 0)];
     _documents := JList [];
     _shards := JInt 0;
     total := JInt 0;
     total_relation := Some (JStr "eq");
     max_score := JInt 0;
     aggregations := [];
     explain := [];
     _objects := [];
     _object_dictionary := [] |}.

(** An instance on which [none()] was called, and which has not been
    handed a result set. *)
Definition none_instance (w : world F) (q : loc) : Prop :=
  is_instance w q
  /\ exists o, heap w !! q = Some (CQuerySet o)
               /\ _is_none_set o = true /\ _result_set o = None.

End StoreSpec.
End StoreSpec.

(** ** Induction on values *)

Module JsonInduction.

Section json_induction.
Variable P : json -> Prop.
Hypothesis HNull : P JNull.
Hypothesis HBool : forall b, P (JBool b).
Hypothesis HInt : forall n, P (JInt n).
Hypothesis HFloat : forall n d, P (JFloat n d).
Hypothesis HStr : forall s, P (JStr s).
Hypothesis HList : forall l, Forall P l -> P (JList l).
Hypothesis HDict : forall kv, Forall (fun e => P (snd e)) kv -> P (JDict kv).

Fixpoint json_induction (j : json) : P j :=
  match j with
  | JNull => HNull
  | JBool b => HBool b
  | JInt n => HInt n
  | JFloat n d => HFloat n d
  | JStr s => HStr s
  | JList l =>
      HList l
        ((fix go (l : list json) : Forall P l :=
            match l with
            | [] => Forall_nil P
            | x :: r => Forall_cons P x r (json_induction x) (go r)
            end) l)
  | JDict kv =>
      HDict kv
        ((fix go (kv : list (string * json)) : Forall (fun e => P (snd e)) kv :=
            match kv with
            | [] => Forall_nil _
            | e :: r => Forall_cons _ e r (json_induction (snd e)) (go r)
            end) kv)
  end.
End json_induction.

End JsonInduction.

(** ** A concrete client and store *)

Module Fixtures.
Import SuspendersQuerySet.

(** A client that answers every search with one hit and every count with
    six. *)
Definition es : Elasticsearch :=
  {| es_search := fun _ _ _ _ => Response (JDict ResultSetSpec.response_one);
     es_count := fun _ _ _ => Response (JDict [("count", JInt 6)]) |}.

Definition empty_world : world filters.Filter :=
  {| heap := []; trace := []; DEBUG := false |}.

(** The store after [SuspendersQuerySet(es)], and the new instance. *)
Definition w0 : world filters.Filter :=
  Eval cbv in (init es empty_world).1.

Definition q0 : nat := 7.

(** [qs.filter(field__in=[1, 2])] and [.filter(field__in=[2, 3])]. *)
Definition filter_12 : nat -> M filters.Filter nat :=
  filter [] [("field__in", JList [JInt 1; JInt 2])].

Definition filter_23 : nat -> M filters.Filter nat :=
  filter [] [("field__in", JList [JInt 2; JInt 3])].

Definition in_field (vs : list json) : filters.Filter :=
  {| filters.field := "field"; filters.op := filters.OpIn; filters.values := vs |}.

Definition tags_in_field : filters.Filter :=
  {| filters.field := "tags"; filters.op := filters.OpIn;
     filters.values := [JStr "hello"; JStr "world"] |}.

(** The call [filter(field__in=[1, 2])]. *)
Definition call_filter_12 : call filters.Filter :=
  call_filter [] [("field__in", JList [JInt 1; JInt 2])].

(** The store after [filter(field__in=[1, 2])] on the new instance. *)
Definition w1 : world filters.Filter := Eval vm_compute in (filter_12 q0 w0).1.

End Fixtures.

(** ** Orderings *)

Module SortSpec.
Import SuspendersQuerySet.

(** An ordering that [sorted_by] refuses: a name that starts with an
    underscore and is not [_score]. *)
Definition refused (order : string) : bool :=
  negb (String.eqb order "_score") && startswith order "_".

(** The sort entry of an accepted ordering. *)
Definition sort_entry (order : string) : json :=
  if String.eqb order "_score" then JDict [(order, JStr "desc")]
  else if startswith order "-" then JDict [(tail order, JStr "desc")]
  else if startswith order "+" then JDict [(tail order, JStr "asc")]
  else JDict [(order, JStr "asc")].

End SortSpec.

(** ** Aggregations *)

Module AggregationSpec.

(** A terms aggregation named [tags] over the field of that name. *)
Definition tags_of_size (size : Z) : TermsAggregation :=
  {| ta_name := "tags"; ta_field := "tags"; ta_size := JInt size; ta_order := JNull;
     ta_include := JNull; ta_exclude := JList []; ta_regex := JNull;
     ta_regex_flags := JStr "DOTALL"; ta_script := JNull;
     ta_min_doc_count := JNull; ta_with_top_hits := None |}.

End AggregationSpec.

(** ** The layout of a copy in the store *)

Module ChainSpec.
Import SuspendersQuerySet.
Local Open Scope nat_scope.
Section ChainSpec.
Context {F : Type} `{IsFilter F}.

(** The instance [copy] builds at position [n + 7] from the instance [o]:
    its lists and its [FilterDict] are the new objects that follow it. *)
Definition copied (n : nat) (o : QuerySetObj) (kv : list (string * (polarity * F)))
  : QuerySetObj :=
  {| conn := conn o;
     _min_score := _min_score o;
     _from := _from o;
     _page_size := _page_size o;
     _sort := n + 8;
     _must_search_set := n + 9;
     _optional_search_set := n + 10;
     _filters := match kv with [] => n + 13 | _ => n + 12 end;
     _negative_boost_queries := match kv with [] => n + 15 | _ => n + 14 end;
     _aggs_fields := match kv with [] => n + 14 | _ => n + 13 end;
     _is_none_set := _is_none_set o;
     _result_set := None;
     minimum_should_match := minimum_should_match o;
     aggregations_use_sampler := aggregations_use_sampler o;
     _track_total_hits := _track_total_hits o |}.

(** The objects [copy] adds to a store of size [n] when it copies the
    instance [o], whose lists and filters are those of [st]. *)
Definition copy_cells (n : nat) (instance : QuerySetObj) (st : QState)
  : list (cell F) :=
  [CSortList []; CQueries []; CQueries []; CDict []; CFilterDict (n + 3);
   CQueries []; CAggs []; CQuerySet instance;
   CSortList (s_sort st); CQueries (s_must_search_set st);
   CQueries (s_optional_search_set st); CDict (s_filters st)]
  ++ match s_filters st with
     | [] => [CDict []; CFilterDict (n + 12)]
     | _ => [CFilterDict (n + 11)]
     end
  ++ [CAggs (s_aggs_fields st); CQueries (s_negative_boost_queries st)].

(** The store with the objects of a copy added, the new instance being
    [instance]. *)
Definition with_copy (w : world F) (instance : QuerySetObj) (st : QState) : world F :=
  {| heap := heap w ++ copy_cells (length (heap w)) instance st;
     trace := trace w; DEBUG := DEBUG w |}.

Definition after_copy (w : world F) (o : QuerySetObj) (st : QState) : world F :=
  with_copy w (copied (length (heap w)) o (s_filters st)) st.

(** The values of an instance whose scalar attributes are those of [o] and
    whose lists and filters are those of [st]. *)
Definition state_with (o : QuerySetObj) (st : QState (F := F)) : QState (F := F) :=
  {| s_min_score := _min_score o;
     s_from := _from o;
     s_page_size := _page_size o;
     s_sort := s_sort st;
     s_must_search_set := s_must_search_set st;
     s_optional_search_set := s_optional_search_set st;
     s_filters := s_filters st;
     s_negative_boost_queries := s_negative_boost_queries st;
     s_aggs_fields := s_aggs_fields st;
     s_is_none_set := _is_none_set o;
     s_minimum_should_match := minimum_should_match o;
     s_aggregations_use_sampler := aggregations_use_sampler o;
     s_track_total_hits := _track_total_hits o |}.

(** [st] with another window. *)
Definition with_window (from page_size : Z) (st : QState (F := F)) : QState (F := F) :=
  {| s_min_score := s_min_score st;
     s_from := from;
     s_page_size := page_size;
     s_sort := s_sort st;
     s_must_search_set := s_must_search_set st;
     s_optional_search_set := s_optional_search_set st;
     s_filters := s_filters st;
     s_negative_boost_queries := s_negative_boost_queries st;
     s_aggs_fields := s_aggs_fields st;
     s_is_none_set := s_is_none_set st;
     s_minimum_should_match := s_minimum_should_match st;
     s_aggregations_use_sampler := s_aggregations_use_sampler st;
     s_track_total_hits := s_track_total_hits st |}.

(** [st] with another sort. *)
Definition with_sort (sort : list json) (st : QState (F := F)) : QState (F := F) :=
  {| s_min_score := s_min_score st;
     s_from := s_from st;
     s_page_size := s_page_size st;
     s_sort := sort;
     s_must_search_set := s_must_search_set st;
     s_optional_search_set := s_optional_search_set st;
     s_filters := s_filters st;
     s_negative_boost_queries := s_negative_boost_queries st;
     s_aggs_fields := s_aggs_fields st;
     s_is_none_set := s_is_none_set st;
     s_minimum_should_match := s_minimum_should_match st;
     s_aggregations_use_sampler := s_aggregations_use_sampler st;
     s_track_total_hits := s_track_total_hits st |}.

(** [st] with more negative-boost queries. *)
Definition with_suppressed (more : list (Query F)) (st : QState (F := F))
  : QState (F := F) :=
  {| s_min_score := s_min_score st;
     s_from := s_from st;
     s_page_size := s_page_size st;
     s_sort := s_sort st;
     s_must_search_set := s_must_search_set st;
     s_optional_search_set := s_optional_search_set st;
     s_filters := s_filters st;
     s_negative_boost_queries := s_negative_boost_queries st ++ more;
     s_aggs_fields := s_aggs_fields st;
     s_is_none_set := s_is_none_set st;
     s_minimum_should_match := s_minimum_should_match st;
     s_aggregations_use_sampler := s_aggregations_use_sampler st;
     s_track_total_hits := s_track_total_hits st |}.

(** [st] with one more aggregation. *)
Definition with_aggregation (a : TermsAggregation) (st : QState (F := F))
  : QState (F := F) :=
  {| s_min_score := s_min_score st;
     s_from := s_from st;
     s_page_size := s_page_size st;
     s_sort := s_sort st;
     s_must_search_set := s_must_search_set st;
     s_optional_search_set := s_optional_search_set st;
     s_filters := s_filters st;
     s_negative_boost_queries := s_negative_boost_queries st;
     s_aggs_fields := s_aggs_fields st ++ [a];
     s_is_none_set := s_is_none_set st;
     s_minimum_should_match := s_minimum_should_match st;
     s_aggregations_use_sampler := s_aggregations_use_sampler st;
     s_track_total_hits := s_track_total_hits st |}.

(** [o2] refers to the same lists and filters as [o1]. *)
Definition same_parts (o1 o2 : QuerySetObj) : Prop :=
  _sort o2 = _sort o1 /\ _must_search_set o2 = _must_search_set o1
  /\ _optional_search_set o2 = _optional_search_set o1
  /\ _filters o2 = _filters o1
  /\ _negative_boost_queries o2 = _negative_boost_queries o1
  /\ _aggs_fields o2 = _aggs_fields o1.

End ChainSpec.
End ChainSpec.

(** ** Requests *)

Module ExecuteSpec.
Import SuspendersQuerySet.
Section ExecuteSpec.
Context {F : Type} `{IsFilter F}.

(** The store after one more event. *)
Definition sent (e : event) (w : world F) : world F :=
  {| heap := heap w; trace := trace w ++ [e]; DEBUG := DEBUG w |}.

(** The body [count] sends for a query set that compiles to [body]. *)
Definition count_body (st : QState (F := F)) (query : json) : json :=
  JDict ([("query", query)] ++ opt_key (negb (s_from st =? 0)) "from" (JInt (s_from st))).

End ExecuteSpec.
End ExecuteSpec.

(** ** Filters added in a loop *)

Module FilterChainSpec.
Import SuspendersQuerySet.
Section FilterChainSpec.
Context {F : Type} `{IsFilter F}.





End FilterChainSpec.
End FilterChainSpec.

(** ** Hits *)

Module DocumentSpec.

(** Every dictionary of the value that is reached through dictionaries
    alone has pairwise different keys, as a Python dictionary has. *)
Fixpoint unique_keys (v : json) : bool :=
  match v with
  | JDict kv =>
      (fix go (kv : list (string * json)) : bool :=
         match kv with
         | [] => true
         | (k, x) :: r => negb (dict_has r k) && unique_keys x && go r
         end) kv
  | _ => true
  end.




End DocumentSpec.

(** ** Maps *)

Module ModelSpec.

(** A map with a date field and a nullable field. *)
Definition event_fields : list (string * models.field) :=
  [("id", models.SearchField false false);
   ("starts", models.SearchField true false);
   ("note", models.SearchField false true);
   ("owner", models.SubMap)].

End ModelSpec.

(** ** Field declarations *)

Module FieldSpec.

(** The constructors that pass one [type] on to [SearchField]. *)
Definition typed_constructors
  : list (string * (list (string * json) -> res fields.SearchField)) :=
  [("text", fields.TextField_init); ("keyword", fields.KeywordField_init);
   ("integer", fields.IntegerField_init); ("double", fields.DoubleField_init);
   ("date", fields.DateField_init); ("boolean", fields.BooleanField_init)].

End FieldSpec.

(** ** Ranges *)

Module RangeSpec.

(** The operator that bounds from the other side. *)
Definition mirrored (op : string) : string :=
  if String.eqb op "gt" then "lt"
  else if String.eqb op "gte" then "lte"
  else if String.eqb op "lt" then "gt"
  else "gte".

End RangeSpec.

(** ** Bulk actions *)

Module BulkSpec.
Import bulk_manager.

(** The action [index] queues. *)
Definition index_action (id doc index : json) : json :=
  JDict [("_op_type", JStr "index"); ("_index", index); ("_id", id); ("_source", doc)].

(** The action [delete] queues. *)
Definition delete_action (id index : json) : json :=
  JDict [("_op_type", JStr "delete"); ("_index", index); ("_id", id)].

(** The actions [m] would send, if [m] is a manager. *)
Definition pending {Conn} (w : bulk_world Conn) (m : nat) : option (list json) :=
  actions w <$> managers w !! m.

(** Two managers over two connections, as created for two maps. *)
Definition two_managers : bulk_world nat :=
  {| class_actions := [];
     managers := [{| conn := 1%nat; chunk_size := 500; own_actions := None |};
                  {| conn := 2%nat; chunk_size := 500; own_actions := None |}];
     calls := [] |}.

End BulkSpec.

(** ** Clients that fail *)

Module Outages.
Import SuspendersQuerySet Fixtures.

(** A client that cannot reach its server. *)
Definition es_down : Elasticsearch :=
  {| es_search := fun _ _ _ _ => IOError "Connection refused";
     es_count := fun _ _ _ => IOError "Connection refused" |}.

(** The store after [SuspendersQuerySet(es_down)]. *)
Definition w_down : world filters.Filter :=
  Eval cbv in (init es_down empty_world).1.

(** A client whose server refuses every request without naming a root
    cause. *)
Definition es_vague : Elasticsearch :=
  {| es_search := fun _ _ _ _ =>
       TransportError (JDict [("error", JDict [("root_cause", JList [])])]) (JInt 400);
     es_count := fun _ _ _ =>
       TransportError (JDict [("error", JDict [("root_cause", JList [])])]) (JInt 400) |}.

(** The store after [SuspendersQuerySet(es_vague)]. *)
Definition w_vague : world filters.Filter :=
  Eval cbv in (init es_vague empty_world).1.

(** What a new query set compiles to. *)
Definition match_all_body : json :=
  JDict [("sort", JList [JStr "_score"; JStr "id"]); ("size", JInt 10);
         ("query", JDict [("match_all", JDict [])]);
         ("track_total_hits", JBool false)].

(** A model class whose objects are their fields. *)
Definition as_document (fields : json) : res json := OK fields.


End Outages.

(** * Properties *)

(** ** Boolean-query validation *)

Module BoolQueryProofs.
Import BoolQuerySpec.
Section BoolQueryProofs.
Context {F : Type} `{IsFilter F}.

Lemma truthy_int_spec (o : option Z) :
  truthy_int o = true <-> exists n, o = Some n /\ n <> 0.
Proof.
  destruct o as [n|]; simpl.
  - rewrite negb_true_iff, Z.eqb_neq. split; [eauto|]. intros (m & [= ->] & ?); done.
  - split; [done|]. intros (m & [=] & _).
Qed.

(** C4 (as amended): construction of a [BoolQuery] raises, at construction,
    exactly when no must, should or must-not clause is present, or must-not
    clauses stand alone outside a filter context, or a non-zero
    [minimum_should_match] comes without should clauses; in every other case
    it returns the query built from its arguments. *)
Theorem BoolQuery_init_raises_iff
    (options : option (list (string * json)))
    (must maybe must_not : option (list (Query F))) (filter : option (Query F))
    (minimum_should_match : option Z) (acts_as_filter : bool) :
  (raises (BoolQuery_init options must maybe must_not filter
             minimum_should_match acts_as_filter) = true
   <-> no_clause_at_all must maybe must_not
       \/ must_not_alone must maybe must_not acts_as_filter
       \/ msm_nonzero_without_should maybe minimum_should_match)
  /\ (raises (BoolQuery_init options must maybe must_not filter
                minimum_should_match acts_as_filter) = false
      <-> BoolQuery_init options must maybe must_not filter
            minimum_should_match acts_as_filter
          = OK (BoolQuery (default [] options) must maybe must_not filter
                  minimum_should_match)).
Proof.
  unfold no_clause_at_all, must_not_alone, msm_nonzero_without_should.
  rewrite <- truthy_int_spec. unfold BoolQuery_init.
  destruct (truthy_int minimum_should_match), (truthy_list must),
    (truthy_list maybe), (truthy_list must_not), acts_as_filter; simpl;
    (split; [split; [intros; try discriminate; tauto | intros Hc; try reflexivity;
     decompose [and or] Hc; discriminate] | split; [intros ?; try discriminate; reflexivity
     | intros ?; try discriminate; reflexivity]]).
Qed.

End BoolQueryProofs.

(** C4 (counterexample): with one must clause, no should clause and
    [minimum_should_match=0], the parameter is set and there is no should
    clause, yet construction succeeds. *)
Lemma BoolQuery_init_msm_zero_accepted :
  msm_set_without_should (F := filters.Filter) None (Some 0)
  /\ BoolQuery_init None (Some [MatchAllQuery]) None None None (Some 0) false
     = OK (BoolQuery (F := filters.Filter) [] (Some [MatchAllQuery]) None None None (Some 0)).
Proof. split; [split; [discriminate | reflexivity] | reflexivity]. Qed.

End BoolQueryProofs.

(** ** Result-set decoding *)

Module ResultSetProofs.
Import ResultSetSpec.

Lemma getitem_dict (kv : list (string * json)) (k : string) (v : json) :
  dict_get kv k = Some v -> getitem (JDict kv) k = OK v.
Proof. intros E. simpl. by rewrite E. Qed.

Lemma contains_dict (kv : list (string * json)) (k : string) :
  contains k (JDict kv) = OK (dict_has kv k).
Proof. reflexivity. Qed.

Lemma ResultSet_init_total (response hits : list (string * json))
    (t : json) (r : option json) :
  well_formed response hits ->
  decode_total (JDict hits) = OK (t, r) ->
  exists rs, ResultSet_init (JDict response) = OK rs
             /\ total rs = t /\ total_relation rs = r.
Proof.
  intros [Hh Hd Hs Hm Ha] Ht. unfold ResultSet_init.
  rewrite (getitem_dict _ _ _ Hh). simpl.
  unfold dict_has in Hd, Hs, Hm.
  destruct (dict_get hits "hits") as [docs|] eqn:Ed; [|done].
  destruct (dict_get response "_shards") as [sh|] eqn:Es; [|done].
  destruct (dict_get hits "max_score") as [ms|] eqn:Em; [|done].
  simpl. rewrite Ht. simpl.
  destruct (decode_aggregations (JDict response)) as [aggs|e] eqn:Eg; [|done].
  simpl. eexists. split; [reflexivity|]. done.
Qed.

(** C7: a response whose total is a plain integer [n] decodes to total [n]
    with relation ["eq"]; one whose total is an object with [value] [n] and
    [relation] [r] decodes to total [n] with relation [r]; one without a
    total decodes to the total [None].  The three shapes exclude each
    other, being the three values of one lookup. *)
Theorem ResultSet_init_decodes_total (response hits : list (string * json)) :
  well_formed response hits ->
  (forall n, dict_get hits "total" = Some (JInt n) ->
     exists rs, ResultSet_init (JDict response) = OK rs
                /\ total rs = JInt n /\ total_relation rs = Some (JStr "eq"))
  /\ (forall t n r, dict_get hits "total" = Some (JDict t) ->
        dict_get t "value" = Some n -> dict_get t "relation" = Some r ->
        exists rs, ResultSet_init (JDict response) = OK rs
                   /\ total rs = n /\ total_relation rs = Some r)
  /\ (dict_get hits "total" = None ->
        exists rs, ResultSet_init (JDict response) = OK rs
                   /\ total rs = JNull /\ total_relation rs = None).
Proof.
  intros Hwf. repeat split.
  - intros n Hn. apply (ResultSet_init_total _ _ _ _ Hwf).
    unfold decode_total. rewrite contains_dict. unfold dict_has. rewrite Hn. simpl.
    by rewrite Hn.
  - intros t n r Ht Hv Hr. apply (ResultSet_init_total _ _ _ _ Hwf).
    unfold decode_total. rewrite contains_dict. unfold dict_has. rewrite Ht. simpl.
    rewrite Ht. simpl. by rewrite Hv, Hr.
  - intros Hn. apply (ResultSet_init_total _ _ _ _ Hwf).
    unfold decode_total. rewrite contains_dict. unfold dict_has. by rewrite Hn.
Qed.

Lemma ResultSet_init_decodes_total_witness :
  well_formed response_gte hits_gte
  /\ exists rs, ResultSet_init (JDict response_gte) = OK rs
                /\ total rs = JInt 5 /\ total_relation rs = Some (JStr "gte").
Proof.
  assert (Hwf : well_formed response_gte hits_gte) by (split; reflexivity).
  split; [exact Hwf|].
  apply (proj1 (proj2 (ResultSet_init_decodes_total response_gte hits_gte Hwf))
           [("value", JInt 5); ("relation", JStr "gte")] (JInt 5) (JStr "gte"));
    reflexivity.
Defined.

(** C10: for a result set built from a response whose hit list is [docs],
    [len] is the number of hits in [docs], and the truth value is [True]
    exactly when there is no hit: the reverse of the convention for
    containers. *)
Theorem ResultSet_bool_inverted (response hits : json) (docs : list json)
    (rs : ResultSet) :
  getitem response "hits" = OK hits ->
  getitem hits "hits" = OK (JList docs) ->
  ResultSet_init response = OK rs ->
  ResultSet_len rs = OK (Z.of_nat (length docs))
  /\ ResultSet_bool rs = OK (Z.of_nat (length docs) =? 0)
  /\ (ResultSet_bool rs = OK true <-> docs = []).
Proof.
  intros Hh Hd Hi. unfold ResultSet_init in Hi. rewrite Hh in Hi. simpl in Hi.
  rewrite Hd in Hi. simpl in Hi.
  destruct (getitem response "_shards"); [|done]. simpl in Hi.
  destruct (decode_total hits); [|done]. simpl in Hi.
  destruct (getitem hits "max_score"); [|done]. simpl in Hi.
  destruct (decode_aggregations response); [|done]. simpl in Hi.
  injection Hi as <-. unfold ResultSet_len, ResultSet_bool. simpl.
  split; [done|]. split; [done|].
  destruct docs; simpl; split; intros E; try done.
Qed.

Lemma ResultSet_bool_inverted_witness :
  exists rs, ResultSet_init (JDict response_one) = OK rs
             /\ ResultSet_len rs = OK 1 /\ ResultSet_bool rs = OK false.
Proof.
  eexists. split; [reflexivity|].
  pose proof (ResultSet_bool_inverted (JDict response_one) (JDict hits_one) _ _
                eq_refl eq_refl eq_refl) as (Hl & Hb & _).
  split; [exact Hl | exact Hb].
Defined.

End ResultSetProofs.

(** ** Classification of transport errors *)

Module ErrorProofs.
Import ErrorSpec.

Lemma __match_error_raises (error status request_body : json) :
  raises (__match_error error status request_body) = true.
Proof.
  unfold __match_error. destruct (getitem error "type") as [t|]; [|done]. simpl.
  repeat case_match; done.
Qed.

(** C8 (as amended): the class raised is decided by the payload.  A payload
    that is not a dictionary, or has no [error] entry, raises [UnknownError].
    When [error] is a dictionary whose [root_cause] is a list that starts
    with a dictionary of type [t], the first entry decides:
    [index_not_found_exception] raises [IndexMissingException],
    [document_missing_exception] raises [DocumentMissingException],
    [too_complex_to_determinize_exception] raises [TooComplexToDetermine] and
    any other type raises [SearchError].  When [error] is not a dictionary,
    the function raises [ValueError] with that payload. *)
Theorem transport_error_classification (result status request_body : json) :
  ((isinstance_dict result = false
    \/ exists kv, result = JDict kv /\ dict_get kv "error" = None) ->
   raise_on_transport_error result status request_body
   = Raise (UnknownError result status request_body))
  /\ (forall kv err first rest t,
        result = JDict kv ->
        dict_get kv "error" = Some (JDict err) ->
        dict_get err "root_cause" = Some (JList (JDict first :: rest)) ->
        dict_get first "type" = Some t ->
        raise_on_transport_error result status request_body
        = Raise
            (if is_str t "index_not_found_exception"
             then IndexMissingException (JDict first) status request_body
             else if is_str t "document_missing_exception"
             then DocumentMissingException (JDict first) status request_body
             else if is_str t "too_complex_to_determinize_exception"
             then TooComplexToDetermine (JDict first) status request_body
             else SearchError (JDict first) status request_body))
  /\ (forall kv raw_error,
        result = JDict kv ->
        dict_get kv "error" = Some raw_error ->
        not_subscriptable raw_error ->
        raise_on_transport_error result status request_body
        = Raise (ValueError raw_error)).
Proof.
  repeat split.
  - intros [Hd | (kv & -> & He)]; unfold raise_on_transport_error.
    + by rewrite Hd.
    + simpl. unfold dict_has. by rewrite He.
  - intros kv err first rest t -> He Hr Ht. unfold raise_on_transport_error.
    simpl. unfold dict_has. rewrite He. simpl. rewrite Hr. simpl.
    unfold __match_error. simpl. rewrite Ht. simpl.
    destruct (is_str t "index_not_found_exception"); [reflexivity|].
    destruct (is_str t "document_missing_exception"); [reflexivity|].
    destruct (is_str t "too_complex_to_determinize_exception"); reflexivity.
  - intros kv raw_error -> He Hn. unfold raise_on_transport_error.
    simpl. unfold dict_has. rewrite He. simpl.
    destruct raw_error; simpl; try reflexivity. destruct Hn.
Qed.

Lemma transport_error_classification_witness :
  raise_on_transport_error (JDict index_missing_payload) (JInt 404) (JStr "body")
  = Raise (IndexMissingException
             (JDict [("type", JStr "index_not_found_exception");
                     ("reason", JStr "no such index")])
             (JInt 404) (JStr "body"))
  /\ raise_on_transport_error (JStr "gateway timeout") (JInt 504) (JStr "body")
     = Raise (UnknownError (JStr "gateway timeout") (JInt 504) (JStr "body"))
  /\ raise_on_transport_error (JDict [("error", JStr "boom")]) (JInt 500) (JStr "body")
     = Raise (ValueError (JStr "boom")).
Proof.
  split; [|split].
  - exact (proj1 (proj2 (transport_error_classification
             (JDict index_missing_payload) (JInt 404) (JStr "body")))
             index_missing_payload _ _ [] (JStr "index_not_found_exception")
             eq_refl eq_refl eq_refl eq_refl).
  - exact (proj1 (transport_error_classification
             (JStr "gateway timeout") (JInt 504) (JStr "body"))
             (or_introl eq_refl)).
  - exact (proj2 (proj2 (transport_error_classification
             (JDict [("error", JStr "boom")]) (JInt 500) (JStr "body")))
             _ (JStr "boom") eq_refl eq_refl I).
Defined.

(** C8 (counterexample): an error payload that is a plain string is
    malformed, yet [ValueError] is raised for it, not [UnknownError]; and for
    an empty [root_cause] nothing is raised at all. *)
Lemma transport_error_not_always_classified :
  raise_on_transport_error (JDict [("error", JStr "boom")]) (JInt 500) (JStr "body")
  = Raise (ValueError (JStr "boom"))
  /\ raise_on_transport_error (JDict [("error", JStr "boom")]) (JInt 500) (JStr "body")
     <> Raise (UnknownError (JDict [("error", JStr "boom")]) (JInt 500) (JStr "body"))
  /\ raise_on_transport_error
       (JDict [("error", JDict [("root_cause", JList [])])]) (JInt 500) (JStr "body")
     = OK tt.
Proof. split; [reflexivity | split; [discriminate | reflexivity]]. Qed.

End ErrorProofs.

(** ** Model reconstruction *)

Module ModelProofs.
Section ModelProofs.
Variable int_of_string : string -> option Z.
Variable parse_datetime : string -> res json.
Variable fields : list (string * models.field).

Lemma dict_has_set {V} (d : list (string * V)) (k k' : string) (v : V) :
  dict_has d k = true -> dict_has (dict_set d k' v) k = true.
Proof.
  unfold dict_has. induction d as [|[a x] d IH]; simpl; [done|].
  destruct (String.eqb a k) eqn:E.
  - intros _. destruct (String.eqb a k'); simpl; by rewrite E.
  - intros Hk. destruct (String.eqb a k'); simpl; rewrite E; auto.
Qed.

Lemma dict_has_set_same {V} (d : list (string * V)) (k : string) (v : V) :
  dict_has (dict_set d k v) k = true.
Proof.
  unfold dict_has. induction d as [|[a x] d IH]; simpl.
  - by rewrite String.eqb_refl.
  - destruct (String.eqb a k) eqn:E; simpl; by rewrite E.
Qed.

Lemma load_datetimes_keeps (keys : list string) (lf lf' : list (string * json))
    (k : string) :
  dict_has lf k = true ->
  models.load_datetimes parse_datetime keys lf = OK lf' ->
  dict_has lf' k = true.
Proof.
  revert lf. induction keys as [|key keys IH]; simpl; intros lf Hk E.
  - by injection E as <-.
  - destruct (models.convert_str_to_datetime parse_datetime _) as [v|]; [|done].
    simpl in E. eapply IH; [|exact E]. by apply dict_has_set.
Qed.

Lemma add_nulls_keeps (names : list string) (lf : list (string * json)) (k : string) :
  dict_has lf k = true -> dict_has (models.add_nulls names lf) k = true.
Proof.
  revert lf. induction names as [|n names IH]; simpl; intros lf Hk; [done|].
  apply IH. destruct (dict_has lf n); [done|]. by apply dict_has_set.
Qed.

(** After the class's own [process_load_fields] has returned, an id is
    always present: the check that follows it cannot fire. *)
Lemma process_load_fields_has_id (lf lf' : list (string * json)) :
  models.process_load_fields int_of_string parse_datetime fields lf = OK lf' ->
  dict_has lf' "id" = true.
Proof.
  unfold models.process_load_fields. intros E.
  destruct (getitem (JDict lf) "id") as [i|]; [|done]. simpl in E.
  destruct (models.int int_of_string i) as [n|]; [|done]. simpl in E.
  destruct (models.load_datetimes _ _ _) as [l|] eqn:El; [|done]. simpl in E.
  injection E as <-. apply add_nulls_keeps.
  eapply load_datetimes_keeps; [|exact El]. apply dict_has_set_same.
Qed.

(** With a normalization that returns load fields without an id, the
    structured failure is raised. *)
Lemma type_from_fields_with_reports_missing_id
    (process : list (string * json) -> res (list (string * json)))
    (base lf : list (string * json)) :
  process (flat_map (fun kv =>
             if existsb (String.eqb (fst kv)) (models.complex_field_names fields)
             then [] else [kv]) base) = OK lf ->
  dict_has lf "id" = false ->
  models.type_from_fields_with fields process base
  = Raise (TypeError "id not present in load_fields").
Proof.
  intros E Hid. unfold models.type_from_fields_with. rewrite E. simpl. by rewrite Hid.
Qed.

Lemma dict_get_flat_map_none (base : list (string * json)) (p : string * json -> bool)
    (k : string) :
  dict_get base k = None ->
  dict_get (flat_map (fun kv => if p kv then [] else [kv]) base) k = None.
Proof.
  induction base as [|[a x] base IH]; simpl; [done|].
  destruct (String.eqb a k) eqn:E; [done|]. intros Hk.
  destruct (p (a, x)); simpl; [auto|]. rewrite E. auto.
Qed.

(** C9 (the code at the failing inputs): for a flat document without an
    [id] entry, reconstruction raises [KeyError] for the key [id], out of
    [process_load_fields], and not the structured failure. *)
Theorem type_from_fields_without_id_KeyError (base : list (string * json)) :
  dict_get base "id" = None ->
  models.type_from_fields int_of_string parse_datetime fields base
  = Raise (KeyError "id").
Proof.
  intros Hid. unfold models.type_from_fields, models.type_from_fields_with,
    models.process_load_fields.
  simpl. by rewrite (dict_get_flat_map_none _ _ _ Hid).
Qed.

End ModelProofs.

Lemma type_from_fields_without_id_KeyError_witness :
  dict_get [("name", JStr "AAA Tester")] "id" = None
  /\ models.type_from_fields (fun _ => None) (fun s => OK (JStr s))
       [("id", models.SearchField false false);
        ("document_type", models.SearchField false false)]
       [("name", JStr "AAA Tester")]
     = Raise (KeyError "id").
Proof.
  split; [reflexivity|].
  apply (type_from_fields_without_id_KeyError (fun _ => None) (fun s => OK (JStr s))
           [("id", models.SearchField false false);
            ("document_type", models.SearchField false false)]
           [("name", JStr "AAA Tester")]).
  reflexivity.
Defined.

End ModelProofs.

(** ** Compilation of the query *)

Module CompileProofs.
Import SuspendersQuerySet CompileSpec.
Section CompileProofs.
Context {F : Type} `{IsFilter F}.

(** [BoolQuery.to_dict], with its helper named. *)
Lemma to_dict_BoolQuery (options : list (string * json))
    (must maybe must_not : option (list (Query F))) (filter : option (Query F))
    (msm : option Z) :
  queries.to_dict (BoolQuery options must maybe must_not filter msm)
  = (ms ← ser_opt must;
     ss ← ser_opt maybe;
     ns ← ser_opt must_not;
     fs ← match filter with
          | Some f => d ← queries.to_dict f; OK [("filter", d)]
          | None => OK []
          end;
     OK (JDict [("bool",
                 JDict (match msm with
                        | Some n => opt_key (negb (n =? 0)) "minimum_should_match" (JInt n)
                        | None => []
                        end
                        ++ opt_key (truthy_list must) "must" (JList ms)
                        ++ opt_key (truthy_list maybe) "should" (JList ss)
                        ++ opt_key (truthy_list must_not) "must_not" (JList ns)
                        ++ fs))])).
Proof.
  destruct must as [must|], maybe as [maybe|], must_not as [must_not|],
    filter as [f|]; reflexivity.
Qed.

Lemma serialize_filters (fs : list F) :
  _serialize_inner_queries (map FilterQ fs) = OK (map filter_to_dict fs).
Proof. induction fs as [|f fs IH]; simpl; [done|]. by rewrite IH. Qed.

Lemma filters_some (kv : list (string * (polarity * F))) :
  kv <> [] ->
  nonempty (FilterDict.positive_filters kv) || nonempty (FilterDict.negative_filters kv)
  = true.
Proof.
  destruct kv as [|[k [[] f]] kv]; [done| |]; intros _; simpl; [done|].
  by rewrite orb_true_r.
Qed.

Lemma truthy_list_Some {A} (l : list A) : truthy_list (Some l) = nonempty l.
Proof. by destruct l. Qed.

Lemma nonempty_map {A B} (f : A -> B) (l : list A) : nonempty (map f l) = nonempty l.
Proof. by destruct l. Qed.

Lemma filter_context_ok (st : QState) :
  s_filters st <> [] ->
  exists q, filter_context st = OK q
            /\ queries.to_dict q = OK (filter_bool (s_filters st)).
Proof.
  intros Hne. pose proof (filters_some _ Hne) as Hsome.
  unfold filter_context, filter_bool.
  destruct (FilterDict.positive_filters (s_filters st)) as [|p P],
    (FilterDict.negative_filters (s_filters st)) as [|n N];
    simpl in Hsome; try done;
    (eexists; split; [reflexivity|]);
    rewrite to_dict_BoolQuery; unfold ser_opt; simpl;
    rewrite ?serialize_filters; simpl; rewrite ?serialize_filters; reflexivity.
Qed.

Lemma has_values_ne (kv : list (string * (polarity * F))) :
  kv <> [] -> FilterDict.has_values kv = true.
Proof. by destruct kv. Qed.

Lemma search_context_ok (msm : Z) (must should : list (Query F)) (ms ss : list json) :
  must <> [] \/ should <> [] ->
  _serialize_inner_queries must = OK ms ->
  _serialize_inner_queries should = OK ss ->
  exists q,
    BoolQuery_init None (Some must) (Some should) (Some []) None
      (if nonempty should then Some msm else None) false = OK q
    /\ queries.to_dict q = OK (search_bool msm must should ms ss).
Proof.
  intros Hne Hm Hs. unfold BoolQuery_init, search_bool.
  destruct must as [|m must], should as [|s should]; simpl;
    try (destruct Hne; done);
    rewrite ?andb_false_r;
    (eexists; split; [reflexivity|]);
    rewrite to_dict_BoolQuery; unfold ser_opt; simpl default; simpl truthy_list;
    cbv iota; rewrite ?Hm, ?Hs; simpl in *;
    try (injection Hm as <-); try (injection Hs as <-); reflexivity.
Qed.

(** C1 (as amended): for a query set without negative-boost queries, the
    compiled query is [match_all] when there is no must query, no should
    query and no filter; a [constant_score] around the filter-context [bool]
    when there are only filters; and, when there are must or should queries
    (which serialize to [ms] and [ss]), the search-context [bool], wrapped,
    if there are filters too, as the only [must] entry of an outer [bool]
    whose [filter] key holds the filter-context [bool]. *)
Theorem serialized_query_shape (st : QState) :
  s_negative_boost_queries st = [] ->
  (s_must_search_set st = [] -> s_optional_search_set st = [] ->
   s_filters st = [] ->
   _serialized_query st = OK (JDict [("match_all", JDict [])]))
  /\ (s_must_search_set st = [] -> s_optional_search_set st = [] ->
      s_filters st <> [] ->
      _serialized_query st
      = OK (JDict [("constant_score",
                    JDict [("filter", filter_bool (s_filters st))])]))
  /\ (forall ms ss,
        s_must_search_set st <> [] \/ s_optional_search_set st <> [] ->
        _serialize_inner_queries (s_must_search_set st) = OK ms ->
        _serialize_inner_queries (s_optional_search_set st) = OK ss ->
        let inner := search_bool (s_minimum_should_match st)
                       (s_must_search_set st) (s_optional_search_set st) ms ss in
        (s_filters st <> [] ->
         _serialized_query st
         = OK (JDict [("bool",
                       JDict [("must", JList [inner]);
                              ("filter", filter_bool (s_filters st))])]))
        /\ (s_filters st = [] -> _serialized_query st = OK inner)).
Proof.
  intros Hnb. unfold _serialized_query. rewrite Hnb. simpl. repeat split.
  - intros -> -> ->. reflexivity.
  - intros -> -> Hf. simpl. rewrite (has_values_ne _ Hf).
    destruct (filter_context_ok st Hf) as (q & -> & Hq). simpl. by rewrite Hq.
  - intros Hf.
    destruct (search_context_ok (s_minimum_should_match st) _ _ _ _ H0 H1 H2)
      as (q & Hi & Hq).
    replace (nonempty (s_must_search_set st) || nonempty (s_optional_search_set st))
      with true
      by (destruct H0 as [Hm|Ho];
          [destruct (s_must_search_set st) | destruct (s_optional_search_set st)];
          try done; by rewrite orb_true_r).
    rewrite Hi, (has_values_ne _ Hf). simpl.
    destruct (filter_context_ok st Hf) as (fq & -> & Hfq). simpl.
    by rewrite Hq, Hfq.
  - intros Hf.
    destruct (search_context_ok (s_minimum_should_match st) _ _ _ _ H0 H1 H2)
      as (q & Hi & Hq).
    replace (nonempty (s_must_search_set st) || nonempty (s_optional_search_set st))
      with true
      by (destruct H0 as [Hm|Ho];
          [destruct (s_must_search_set st) | destruct (s_optional_search_set st)];
          try done; by rewrite orb_true_r).
    rewrite Hi, Hf. simpl. exact Hq.
Qed.

End CompileProofs.

Lemma serialized_query_shape_witness :
  s_negative_boost_queries both_contexts = []
  /\ _serialized_query both_contexts
     = OK (JDict
        [("bool",
          JDict
            [("must",
              JList
                [JDict
                   [("bool",
                     JDict
                       [("minimum_should_match", JInt 1);
                        ("must",
                         JList [JDict [("match",
                                  JDict [("name",
                                          JDict [("query", JStr "Baloney");
                                                 ("max_expansions", JInt 50)])])]]);
                        ("should",
                         JList [JDict [("term", JDict [("uuid", JStr "2")])]])])]]);
             ("filter",
              JDict
                [("bool",
                  JDict
                    [("must",
                      JList [JDict [("in",
                               JDict [("tags",
                                       JList [JStr "hello"; JStr "world"])])]]);
                     ("must_not",
                      JList [JDict [("eq",
                               JDict [("draft", JList [JBool true])])]])])])])]).
Proof.
  split; [reflexivity|].
  pose proof (serialized_query_shape both_contexts eq_refl) as (_ & _ & Hboth).
  assert (Hctx : s_must_search_set both_contexts <> []
                 \/ s_optional_search_set both_contexts <> [])
    by (left; discriminate).
  specialize (Hboth
    [JDict [("match", JDict [("name", JDict [("query", JStr "Baloney");
                                             ("max_expansions", JInt 50)])])]]
    [JDict [("term", JDict [("uuid", JStr "2")])]]
    Hctx eq_refl eq_refl).
  destruct Hboth as [Hboth _]. rewrite Hboth by discriminate.
  vm_compute. reflexivity.
Defined.

(** C1 (counterexample): a query set with no must query, no should query
    and no filter, but with a negative-boost query, does not compile to
    [match_all]: the [match_all] query is handed to [NegativeBoost], whose
    [to_dict] raises. *)
Lemma serialized_query_with_negative_boost :
  s_must_search_set suppressed_only = []
  /\ s_optional_search_set suppressed_only = []
  /\ s_filters suppressed_only = []
  /\ _serialized_query suppressed_only = Raise (TypeError "object is not iterable")
  /\ _serialized_query suppressed_only <> OK (JDict [("match_all", JDict [])]).
Proof. repeat split; try reflexivity. discriminate. Qed.

End CompileProofs.

(** ** Instances in the store: chaining, execution, counting *)

Module StoreProofs.
Import SuspendersQuerySet StoreSpec.
Local Open Scope nat_scope.

Ltac munfold :=
  unfold mbind, mret, M_bind, M_ret, bind, ret, lift, raise, read, alloc, write,
    emit, get_trace, get_DEBUG in *.

Section StoreProofs.
Context {F : Type} `{IsFilter F}.

Lemma extends_prefix (h h' : list (cell F)) :
  take (length h) h' = h -> extends h h'.
Proof.
  intros E l c Hl. rewrite <- E in Hl.
  apply lookup_take_Some in Hl. tauto.
Qed.

Lemma snapshot_of_instance (n : nat) (w : world F) (q : loc) :
  instance_from n (heap w) q -> exists st, snapshot q w = (w, OK st).
Proof.
  intros (_ & o & Hq & (_ & s & Hs & Ks) & (_ & m & Hm & Km) & (_ & p & Hp & Kp)
          & (_ & d & Hf & _ & kv & Hd & Kd) & (_ & b & Hb & Kb) & (_ & a & Ha & Ka)).
  destruct s; try discriminate Ks. destruct m; try discriminate Km.
  destruct p; try discriminate Kp. destruct kv; try discriminate Kd.
  destruct b; try discriminate Kb. destruct a; try discriminate Ka.
  unfold snapshot, get_qs, get_sort, get_queries, get_aggs, FilterDict.filters,
    FilterDict.get_dict. munfold.
  rewrite Hq; cbn. rewrite Hs; cbn. rewrite Hm; cbn. rewrite Hp; cbn.
  rewrite Hf; cbn. rewrite Hd; cbn. rewrite Hb; cbn. rewrite Ha; cbn. eauto.
Qed.

Lemma snapshot_extends (w w' : world F) (q : loc) (st : QState) :
  snapshot q w = (w, OK st) -> extends (heap w) (heap w') ->
  snapshot q w' = (w', OK st).
Proof.
  intros Hs He. revert Hs. unfold extends in He.
  unfold snapshot, get_qs, get_sort, get_queries, get_aggs, FilterDict.filters,
    FilterDict.get_dict. munfold. cbn.
  repeat (match goal with
          | |- context [heap w !! ?l] =>
              let E := fresh "E" in
              destruct (heap w !! l) as [[]|] eqn:E; try discriminate;
              try rewrite (He _ _ E); cbn
          end).
  intros [= <-]. reflexivity.
Qed.

Lemma lookup_app_add (h e : list (cell F)) (k : nat) :
  (h ++ e) !! (length h + k) = e !! k.
Proof. rewrite lookup_app_r by lia. f_equal. lia. Qed.

Lemma lookup_app_last (h : list (cell F)) (c : cell F) :
  (h ++ [c]) !! length h = Some c.
Proof. by rewrite list_lookup_middle. Qed.

(** One step of running a program on a store [h ++ new], where the objects
    of [h] are known by hypotheses and those of [new] are listed. *)
Ltac heap_step :=
  rewrite <- ?app_assoc; cbn [app]; rewrite ?length_app; cbn [length];
  first
    [ match goal with
      | H : ?h !! ?l = Some _ |- context [(?h ++ _) !! ?l] =>
          rewrite (lookup_app_l_Some _ _ _ _ H)
      end
    | match goal with
      | H : ?h !! ?l = Some _ |- context [?h !! ?l] => rewrite H
      end
    | rewrite lookup_app_add
    | rewrite insert_app_r ];
  cbn.

(** *** Monotonicity of the instance predicates *)

Lemma points_mono (n : nat) (h h' : list (cell F)) (l : loc) (k : kind) :
  (forall l c, n <= l -> h !! l = Some c ->
               exists c', h' !! l = Some c' /\ kind_of c' = kind_of c
                          /\ (kind_of c = KFilterDict -> c' = c)) ->
  points n h l k -> points n h' l k.
Proof.
  intros Hk (Hn & c & Hl & Hc). split; [done|].
  destruct (Hk _ _ Hn Hl) as (c' & Hl' & Hc' & _). exists c'. split; [done|congruence].
Qed.

Lemma fields_ok_mono (n : nat) (h h' : list (cell F)) (o : QuerySetObj) :
  (forall l c, n <= l -> h !! l = Some c ->
               exists c', h' !! l = Some c' /\ kind_of c' = kind_of c
                          /\ (kind_of c = KFilterDict -> c' = c)) ->
  fields_ok n h o -> fields_ok n h' o.
Proof.
  intros Hk (Hs & Hm & Hp & (Hn & d & Hf & Hd) & Hb & Ha).
  destruct (Hk _ _ Hn Hf) as (c' & Hl' & _ & Hc').
  rewrite (Hc' eq_refl) in Hl'.
  split; [|split; [|split; [|split; [|split]]]]; eauto using points_mono.
  split; [done|]. exists d. eauto using points_mono.
Qed.

Lemma insert_keeps_kinds (h : list (cell F)) (l : loc) (c c' : cell F) :
  h !! l = Some c -> kind_of c' = kind_of c -> kind_of c <> KFilterDict ->
  forall l1 c1, h !! l1 = Some c1 ->
    exists c2, <[l:=c']> h !! l1 = Some c2 /\ kind_of c2 = kind_of c1
               /\ (kind_of c1 = KFilterDict -> c2 = c1).
Proof.
  intros Hl Hk Hnf l1 c1 Hl1. destruct (decide (l = l1)) as [->|Hne].
  - exists c'. rewrite list_lookup_insert_eq by (by eapply lookup_lt_Some).
    rewrite Hl in Hl1. injection Hl1 as <-. split; [done|]. split; [done|].
    intros. done.
  - exists c1. by rewrite list_lookup_insert_ne.
Qed.

Lemma app_keeps_kinds (h e : list (cell F)) :
  forall l1 c1, h !! l1 = Some c1 ->
    exists c2, (h ++ e) !! l1 = Some c2 /\ kind_of c2 = kind_of c1
               /\ (kind_of c1 = KFilterDict -> c2 = c1).
Proof. intros l1 c1 Hl1. exists c1. by rewrite (lookup_app_l_Some _ _ _ _ Hl1). Qed.

(** *** A program logic for the store monad *)

Lemma hoare_bind {A B} (P : world F -> Prop) (m : M F A) (k : A -> M F B)
    (Q : res A -> world F -> Prop) (R : res B -> world F -> Prop) :
  hoare P m Q ->
  (forall a, hoare (Q (OK a)) (k a) R) ->
  (forall e w, Q (Raise e) w -> R (Raise e) w) ->
  hoare P (m ≫= k) R.
Proof.
  intros Hm Hk He w HP. specialize (Hm w HP). munfold.
  destruct (m w) as [w' [a|e]]; simpl in *; [by apply Hk | by apply He].
Qed.

Lemma hoare_conseq {A} (P P' : world F -> Prop) (m : M F A)
    (Q Q' : res A -> world F -> Prop) :
  hoare P' m Q' -> (forall w, P w -> P' w) -> (forall r w, Q' r w -> Q r w) ->
  hoare P m Q.
Proof. intros Hm HP HQ w Hw. apply HQ, Hm, HP, Hw. Qed.

Lemma hoare_ret {A} (P : world F -> Prop) (a : A) :
  hoare P (mret a) (fun r w => P w /\ r = OK a).
Proof. intros w HP. by split. Qed.

Lemma hoare_lift {A} (P : world F -> Prop) (x : res A) :
  hoare P (lift x) (fun r w => P w /\ r = x).
Proof. intros w HP. by split. Qed.

Lemma hoare_raise {A} (P : world F -> Prop) (e : exn) :
  hoare P (raise (A := A) e) (fun r w => P w /\ r = Raise e).
Proof. intros w HP. by split. Qed.

(** The loop keeps what every round keeps. *)
Lemma hoare_for {A} (I : world F -> Prop) (l : list A) (body : A -> M F unit) :
  (forall x, hoare I (body x) (fun _ w => I w)) ->
  hoare I (for_ l body) (fun _ w => I w).
Proof.
  intros Hb. induction l as [|x l IH]; simpl.
  - intros w HI. done.
  - eapply hoare_bind; [apply Hb | intros a; apply IH | done].
Qed.

(** The loop returns when every round does. *)
Lemma hoare_for_total {A} (I : world F -> Prop) (l : list A) (body : A -> M F unit) :
  (forall x, hoare I (body x) (fun r w => I w /\ r = OK tt)) ->
  hoare I (for_ l body) (fun r w => I w /\ r = OK tt).
Proof.
  intros Hb. induction l as [|x l IH]; simpl.
  - intros w HI. done.
  - eapply hoare_bind; [apply Hb | | ].
    + intros []. eapply hoare_conseq; [apply IH | | done]. by intros w [? _].
    + by intros e w [_ ?].
Qed.

(** *** The clone owns its parts *)

Lemma owns_instance (n : nat) (h0 : list (cell F)) (q : loc) (o : QuerySetObj)
    (w : world F) :
  owns n h0 q o w -> instance_from n (heap w) q.
Proof. intros (_ & ? & ? & ?). split; eauto. Qed.

Lemma hoare_get_qs (n : nat) (h0 : list (cell F)) (q : loc) (o : QuerySetObj) :
  hoare (owns n h0 q o) (get_qs q) (fun r w => owns n h0 q o w /\ r = OK o).
Proof.
  intros w Ho. pose proof Ho as (_ & _ & Hq & _).
  unfold get_qs. munfold. rewrite Hq. done.
Qed.

Lemma owns_write_part (n : nat) (h0 : list (cell F)) (q : loc) (o : QuerySetObj)
    (w : world F) (l : loc) (c c' : cell F) :
  owns n h0 q o w -> n <= l -> heap w !! l = Some c ->
  kind_of c' = kind_of c -> kind_of c <> KFilterDict -> kind_of c <> KQuerySet ->
  owns n h0 q o
    {| heap := <[l:=c']> (heap w); trace := trace w; DEBUG := DEBUG w |}.
Proof.
  intros (Ht & Hn & Hq & Hf) Hl Hc Hk Hnf Hnq.
  split; [|split; [|split]]; simpl.
  - by rewrite take_insert_ge.
  - done.
  - rewrite list_lookup_insert_ne; [done|]. intros ->. rewrite Hq in Hc.
    injection Hc as <-. done.
  - eapply fields_ok_mono; [|exact Hf]. intros l1 c1 _.
    by apply insert_keeps_kinds with (c := c).
Qed.

Lemma owns_alloc (n : nat) (h0 : list (cell F)) (q : loc) (o : QuerySetObj)
    (w : world F) (c : cell F) :
  owns n h0 q o w ->
  owns n h0 q o
    {| heap := heap w ++ [c]; trace := trace w; DEBUG := DEBUG w |}.
Proof.
  intros (Ht & Hn & Hq & Hf). split; [|split; [|split]]; simpl.
  - rewrite take_app_le; [done|]. apply lookup_lt_Some in Hq. lia.
  - done.
  - by apply lookup_app_l_Some.
  - eapply fields_ok_mono; [|exact Hf]. intros l1 c1 _. apply app_keeps_kinds.
Qed.

Lemma owns_emit (n : nat) (h0 : list (cell F)) (q : loc) (o : QuerySetObj)
    (w : world F) (e : event) :
  owns n h0 q o w ->
  owns n h0 q o
    {| heap := heap w; trace := trace w ++ [e]; DEBUG := DEBUG w |}.
Proof. done. Qed.

Lemma hoare_append_query (n : nat) (h0 : list (cell F)) (q : loc) (o : QuerySetObj)
    (l : loc) (x : Query F) :
  (forall h : list (cell F), fields_ok n h o -> points n h l KQueries) ->
  hoare (owns n h0 q o) (append_query l x)
    (fun r w => owns n h0 q o w /\ r = OK tt).
Proof.
  intros Hl w Ho. pose proof Ho as (_ & _ & _ & Hf).
  destruct (Hl _ Hf) as (Hn & c & Hc & Hk). destruct c; try discriminate Hk.
  unfold append_query, get_queries. munfold. rewrite Hc. simpl.
  split; [|done]. by eapply owns_write_part.
Qed.

Lemma hoare_append_agg (n : nat) (h0 : list (cell F)) (q : loc) (o : QuerySetObj)
    (a : TermsAggregation) :
  hoare (owns n h0 q o) (append_agg (_aggs_fields o) a)
    (fun r w => owns n h0 q o w /\ r = OK tt).
Proof.
  intros w Ho. pose proof Ho as (_ & _ & _ & Hf).
  destruct Hf as (_ & _ & _ & _ & _ & Hn & c & Hc & Hk).
  destruct c; try discriminate Hk.
  unfold append_agg, get_aggs. munfold. rewrite Hc. simpl.
  split; [|done]. by eapply owns_write_part.
Qed.

Lemma hoare_modify (n : nat) (h0 : list (cell F)) (q : loc) (o : QuerySetObj)
    (f : QuerySetObj -> QuerySetObj) :
  (forall h : list (cell F), fields_ok n h o -> fields_ok n h (f o)) ->
  hoare (owns n h0 q o) (modify q f)
    (fun r w => owns n h0 q (f o) w /\ r = OK tt).
Proof.
  intros Hf w (Ht & Hn & Hq & Ho).
  unfold modify, get_qs. munfold. rewrite Hq. simpl.
  split; [|done]. split; [|split; [|split]]; simpl.
  - by rewrite take_insert_ge.
  - done.
  - apply list_lookup_insert_eq. by eapply lookup_lt_Some.
  - apply Hf. eapply fields_ok_mono; [|exact Ho]. intros l1 c1 _.
    by apply insert_keeps_kinds with (c := CQuerySet o).
Qed.

(** *** [FilterDict.add_positive] and [add_negative], step by step *)

Lemma add_positive_run (w : world F) (fl d : loc)
    (kv : list (string * (polarity * F))) (key : string) (v : F) :
  heap w !! fl = Some (CFilterDict d) -> heap w !! d = Some (CDict kv) ->
  FilterDict.add_positive fl key v w
  = add_outcome w d kv (if is_multi v then String.append "+" key else key) Plus v.
Proof.
  intros Hfl Hd.
  unfold FilterDict.add_positive, FilterDict.__check, FilterDict.set_item,
    FilterDict.filters, FilterDict.get_dict, add_outcome.
  munfold. rewrite Hfl. simpl. rewrite Hd. simpl.
  destruct (dict_get kv _) as [[prev f]|];
    [destruct (merge f v); [|destruct (DEBUG w) eqn:ED]|];
    cbn; repeat (first [rewrite Hfl | rewrite Hd]; cbn); rewrite ?ED; reflexivity.
Qed.

Lemma add_negative_run (w : world F) (fl d : loc)
    (kv : list (string * (polarity * F))) (key : string) (v : F) :
  heap w !! fl = Some (CFilterDict d) -> heap w !! d = Some (CDict kv) ->
  FilterDict.add_negative fl key v w
  = add_outcome w d kv (if is_multi v then String.append "-" key else key) Minus v.
Proof.
  intros Hfl Hd.
  unfold FilterDict.add_negative, FilterDict.__check, FilterDict.set_item,
    FilterDict.filters, FilterDict.get_dict, add_outcome.
  munfold. rewrite Hfl. simpl. rewrite Hd. simpl.
  destruct (dict_get kv _) as [[prev f]|];
    [destruct (merge f v); [|destruct (DEBUG w) eqn:ED]|];
    cbn; repeat (first [rewrite Hfl | rewrite Hd]; cbn); rewrite ?ED; reflexivity.
Qed.

Lemma owns_add_outcome (n : nat) (h0 : list (cell F)) (q : loc) (o : QuerySetObj)
    (w : world F) (d : loc) (kv : list (string * (polarity * F)))
    (key : string) (t : polarity) (v : F) :
  owns n h0 q o w -> n <= d -> heap w !! d = Some (CDict kv) ->
  owns n h0 q o (add_outcome w d kv key t v).1.
Proof.
  intros Ho Hn Hd. unfold add_outcome.
  destruct (dict_get kv key) as [[prev f]|]; [destruct (merge f v); [|destruct (DEBUG w)]|];
    simpl; try done.
  - by eapply owns_write_part.
  - apply (owns_write_part n h0 q o
             {| heap := heap w;
                trace := trace w ++ [Log (FilterDict.overwrite_message key prev f t v)];
                DEBUG := DEBUG w |}
             d (CDict kv)); try done.
  - by eapply owns_write_part.
Qed.

Lemma hoare_add_positive (n : nat) (h0 : list (cell F)) (q : loc) (o : QuerySetObj)
    (key : string) (v : F) :
  hoare (owns n h0 q o) (FilterDict.add_positive (_filters o) key v)
    (fun _ w => owns n h0 q o w).
Proof.
  intros w Ho. pose proof Ho as (_ & _ & _ & Hf).
  destruct Hf as (_ & _ & _ & (_ & d & Hfl & Hn & c & Hd & Hk) & _).
  destruct c; try discriminate Hk.
  rewrite (add_positive_run _ _ _ _ _ _ Hfl Hd). by apply owns_add_outcome.
Qed.

Lemma hoare_add_negative (n : nat) (h0 : list (cell F)) (q : loc) (o : QuerySetObj)
    (key : string) (v : F) :
  hoare (owns n h0 q o) (FilterDict.add_negative (_filters o) key v)
    (fun _ w => owns n h0 q o w).
Proof.
  intros w Ho. pose proof Ho as (_ & _ & _ & Hf).
  destruct Hf as (_ & _ & _ & (_ & d & Hfl & Hn & c & Hd & Hk) & _).
  destruct c; try discriminate Hk.
  rewrite (add_negative_run _ _ _ _ _ _ Hfl Hd). by apply owns_add_outcome.
Qed.

(** *** [copy] *)

Ltac new_part :=
  cbn; split; [apply Nat.le_add_r|]; eexists; split;
  [rewrite lookup_app_add; reflexivity | try reflexivity].

Lemma copy_spec (w : world F) (q : loc) (o : QuerySetObj) :
  heap w !! q = Some (CQuerySet o) -> fields_ok 0 (heap w) o ->
  exists w' q' o',
    copy q w = (w', OK q')
    /\ owns (length (heap w)) (heap w) q' o' w'
    /\ trace w' = trace w /\ DEBUG w' = DEBUG w
    /\ same_scalars o o' /\ _result_set o' = None.
Proof.
  intros Hq ((_ & s & Hs & Ks) & (_ & m & Hm & Km) & (_ & p & Hp & Kp)
             & (_ & d & Hf & _ & kv & Hd & Kd) & (_ & b & Hb & Kb) & (_ & a & Ha & Ka)).
  destruct s; try discriminate Ks. destruct m; try discriminate Km.
  destruct p; try discriminate Kp. destruct kv; try discriminate Kd.
  destruct b; try discriminate Kb. destruct a; try discriminate Ka.
  unfold copy, init, list_copy, get_qs, FilterDict.copy, FilterDict.init,
    FilterDict.filters, FilterDict.get_dict.
  munfold. cbn. rewrite Hq. cbn. repeat heap_step.
  destruct d0; cbn; repeat heap_step;
    (eexists _, _, _; split; [reflexivity|]; split;
     [unfold owns, fields_ok, filters_ok, points; cbn;
      split; [apply take_app_length|]; split; [apply Nat.le_add_r|]; split;
      [rewrite lookup_app_add; reflexivity|];
      (split; [new_part|]; split; [new_part|]; split; [new_part|];
       split; [|split; new_part]);
      (cbn; split; [apply Nat.le_add_r|]; eexists; split;
       [rewrite lookup_app_add; reflexivity|]; new_part)
     |repeat split; reflexivity]).
Qed.

(** *** The bodies of the chainable methods, run on the clone *)

Lemma hoare_step {A B} (P Q : world F -> Prop) (m : M F A) (k : A -> M F B)
    (a : A) (R : res B -> world F -> Prop) :
  hoare P m (fun r w => Q w /\ r = OK a) ->
  hoare Q (k a) R ->
  hoare P (m ≫= k) R.
Proof.
  intros Hm Hk. eapply hoare_bind; [exact Hm | |].
  - intros a' w [HQ [= ->]]. by apply Hk.
  - intros e w [_ [=]].
Qed.

Lemma hoare_lift_bind {A B} (P : world F -> Prop) (x : res A) (k : A -> M F B)
    (R : res B -> world F -> Prop) :
  (forall a, x = OK a -> hoare P (k a) R) ->
  (forall e w, x = Raise e -> P w -> R (Raise e) w) ->
  hoare P (lift x ≫= k) R.
Proof.
  intros Hk He. eapply hoare_bind; [apply hoare_lift | |].
  - intros a w [HP Hx]. by apply Hk.
  - intros e w [HP Hx]. by apply He.
Qed.

Lemma hoare_mret {A} (P : world F -> Prop) (a : A) (R : res A -> world F -> Prop) :
  (forall w, P w -> R (OK a) w) -> hoare P (mret a) R.
Proof. intros HR w HP. by apply HR. Qed.

Lemma hoare_raise_to {A} (P : world F -> Prop) (e : exn)
    (R : res A -> world F -> Prop) :
  (forall w, P w -> R (Raise e) w) -> hoare P (raise e) R.
Proof. intros HR w HP. by apply HR. Qed.

Lemma flags_kept_refl (o : QuerySetObj) : flags_kept o o.
Proof. by split. Qed.

Lemma kept_raise (n : nat) (h0 : list (cell F)) (q : loc) (o : QuerySetObj)
    (e : exn) (w : world F) :
  owns n h0 q o w -> kept n h0 q o (Raise e) w.
Proof. intros Ho. split; [eauto using flags_kept_refl|]. intros a [=]. Qed.

Lemma kept_ok (n : nat) (h0 : list (cell F)) (q : loc) (o : QuerySetObj)
    (w : world F) :
  owns n h0 q o w -> kept n h0 q o (OK q) w.
Proof. intros Ho. split; [eauto using flags_kept_refl|]. by intros a [= <-]. Qed.

Section Bodies.
Variables (n : nat) (h0 : list (cell F)) (q : loc) (o : QuerySetObj).

Lemma body_modify (f : QuerySetObj -> QuerySetObj) :
  (forall h : list (cell F), fields_ok n h o -> fields_ok n h (f o)) ->
  hoare (owns n h0 q o) (modify q f;; mret q)
    (fun r w => owns n h0 q (f o) w /\ r = OK q).
Proof.
  intros Hf. eapply hoare_step; [by apply hoare_modify | apply hoare_ret].
Qed.

Lemma body_add_optional_query (query : Query F) :
  hoare (owns n h0 q o)
    (o ← get_qs q; append_query (_optional_search_set o) query;; mret q)
    (fun r w => owns n h0 q o w /\ r = OK q).
Proof.
  eapply hoare_step; [apply hoare_get_qs|].
  eapply hoare_step; [|apply hoare_ret].
  apply hoare_append_query. intros h Hf. apply Hf.
Qed.

Lemma body_filters_loop (fs : list F) (step : loc -> string -> F -> M F unit) :
  (forall key v, hoare (owns n h0 q o) (step (_filters o) key v)
                   (fun _ w => owns n h0 q o w)) ->
  hoare (owns n h0 q o)
    (o ← get_qs q; for_ fs (fun f => step (_filters o) (name f) f);; mret q)
    (kept n h0 q o).
Proof.
  intros Hstep. eapply hoare_step; [apply hoare_get_qs|].
  eapply hoare_bind; [apply hoare_for; intros f; apply Hstep | |].
  - intros ?. apply hoare_mret. intros w Ho; simpl in Ho; eapply kept_ok; eassumption.
  - intros e w Ho; simpl in Ho; eapply kept_raise; eassumption.
Qed.

Lemma body_filter (args : list (F + json)) (kwargs : list (string * json)) :
  hoare (owns n h0 q o)
    (fs ← lift (_make_filter_list args kwargs);
     o ← get_qs q;
     for_ fs (fun f => FilterDict.add_positive (_filters o) (name f) f);;
     mret q)
    (kept n h0 q o).
Proof.
  apply hoare_lift_bind.
  - intros fs _. apply (body_filters_loop fs FilterDict.add_positive).
    intros key v. apply hoare_add_positive.
  - intros e w _ Ho; simpl in Ho; eapply kept_raise; eassumption.
Qed.

Lemma body_exclude (args : list (F + json)) (kwargs : list (string * json)) :
  hoare (owns n h0 q o)
    (fs ← lift (_make_filter_list args kwargs);
     o ← get_qs q;
     for_ fs (fun f => FilterDict.add_negative (_filters o) (name f) f);;
     mret q)
    (kept n h0 q o).
Proof.
  apply hoare_lift_bind.
  - intros fs _. apply (body_filters_loop fs FilterDict.add_negative).
    intros key v. apply hoare_add_negative.
  - intros e w _ Ho; simpl in Ho; eapply kept_raise; eassumption.
Qed.

Lemma body_suppress (args : list (F + json)) (kwargs : list (string * json)) :
  hoare (owns n h0 q o)
    (filters ← lift (_make_filter_list args kwargs);
     o ← get_qs q;
     for_ filters (fun f => append_query (_negative_boost_queries o) (FilterQ f));;
     mret q)
    (kept n h0 q o).
Proof.
  apply hoare_lift_bind.
  - intros fs _. eapply hoare_step; [apply hoare_get_qs|].
    eapply hoare_step; [|apply hoare_mret; intros w Ho; simpl in Ho; eapply kept_ok; eassumption].
    apply hoare_for_total. intros f. apply hoare_append_query.
    intros h Hf. apply Hf.
  - intros e w _ Ho; simpl in Ho; eapply kept_raise; eassumption.
Qed.

Lemma body_match_text (kwargs : list (string * json)) :
  hoare (owns n h0 q o)
    ('(key, values, options) ← lift (parse_kwargs kwargs);
     values ← lift (if is_string_or_not_iterable values then OK [values]
                    else iterate values);
     o ← get_qs q;
     for_ values (fun value =>
       x ← lift (MatchQuery_init key value options);
       append_query (_must_search_set o) x);;
     mret q)
    (kept n h0 q o).
Proof.
  apply hoare_lift_bind; [|intros e w _ Ho; simpl in Ho; eapply kept_raise; eassumption].
  intros [[key values] options] _.
  apply hoare_lift_bind; [|intros e w _ Ho; simpl in Ho; eapply kept_raise; eassumption].
  intros vs _. eapply hoare_step; [apply hoare_get_qs|].
  eapply hoare_bind; [apply hoare_for | |].
  - intros value. apply hoare_lift_bind; [|done].
    intros x _. eapply hoare_conseq; [apply hoare_append_query | done |].
    + intros h Hf. apply Hf.
    + by intros r w [Ho _].
  - intros ?. apply hoare_mret. intros w Ho; simpl in Ho; eapply kept_ok; eassumption.
  - intros e w Ho; simpl in Ho; eapply kept_raise; eassumption.
Qed.

Lemma body_sorted_by (orderings : list string) :
  hoare (owns n h0 q o)
    (result ← lift (orderings_to_sort orderings);
     l ← alloc (CSortList result);
     modify q (set_sort l);;
     mret q)
    (kept n h0 q o).
Proof.
  apply hoare_lift_bind; [|intros e w _ Ho; simpl in Ho; eapply kept_raise; eassumption].
  intros result _.
  eapply hoare_bind with
    (Q := fun r w => exists l, r = OK l /\ owns n h0 q o w
                               /\ points n (heap w) l KSort).
  - intros w Ho. exists (length (heap w)). split; [done|].
    split; [by apply owns_alloc|]. split.
    + destruct Ho as (_ & Hn & Hq & _). apply lookup_lt_Some in Hq.
      simpl. eapply Nat.le_trans; [exact Hn|]. by apply Nat.lt_le_incl.
    + eexists. split; [apply lookup_app_last | done].
  - intros l. eapply hoare_conseq with
      (P' := fun w => owns n h0 q o w /\ points n (heap w) l KSort)
      (Q' := fun r w => owns n h0 q (set_sort l o) w /\ r = OK q).
    + intros w [Ho Hl]. pose proof Ho as (Ht & Hn & Hq & Hf).
      unfold modify, get_qs. munfold. rewrite Hq. simpl. split; [|done].
      split; [simpl; by rewrite take_insert_ge|]. split; [done|]. split; simpl.
      * apply list_lookup_insert_eq. by eapply lookup_lt_Some.
      * assert (Hf' : fields_ok n (heap w) (set_sort l o)).
        { destruct Hf as (_ & Hf). split; [exact Hl | exact Hf]. }
        eapply fields_ok_mono; [|exact Hf']. intros l1 c1 _.
        by apply insert_keeps_kinds with (c := CQuerySet o).
    + intros w (l' & [= <-] & Ho & Hl). done.
    + intros r w [Ho ->]. split; [|by intros a [= <-]].
      exists (set_sort l o). split; [exact Ho | by split].
  - intros e w (l & [=] & _).
Qed.

Lemma body_aggregation (facet : res TermsAggregation) :
  hoare (owns n h0 q o)
    (facet ← lift facet; o ← get_qs q; append_agg (_aggs_fields o) facet;; mret q)
    (kept n h0 q o).
Proof.
  apply hoare_lift_bind; [|intros e w _ Ho; simpl in Ho; eapply kept_raise; eassumption].
  intros a _. eapply hoare_step; [apply hoare_get_qs|].
  eapply hoare_step; [apply hoare_append_agg|].
  apply hoare_mret. intros w Ho; simpl in Ho; eapply kept_ok; eassumption.
Qed.

End Bodies.

(** *** Every chainable method *)

Lemma kept_outcome (c : call F) (n : nat) (h0 : list (cell F)) (q : loc)
    (o : QuerySetObj) (r : res loc) (w : world F) :
  always_returns c = false -> kept n h0 q o r w -> outcome c n h0 q o r w.
Proof.
  intros Hc [Ho Hr]. split; [done|]. destruct r as [a|e]; [|eauto].
  left. f_equal. by apply Hr.
Qed.

Lemma total_outcome (c : call F) (n : nat) (h0 : list (cell F)) (q : loc)
    (o o2 : QuerySetObj) (r : res loc) (w : world F) :
  flags_kept o o2 -> owns n h0 q o2 w /\ r = OK q -> outcome c n h0 q o r w.
Proof. intros Hk [Ho ->]. split; eauto. Qed.

Lemma raise_outcome (c : call F) (n : nat) (h0 : list (cell F)) (q : loc)
    (o : QuerySetObj) (e : exn) (w : world F) :
  always_returns c = false -> owns n h0 q o w -> outcome c n h0 q o (Raise e) w.
Proof. intros Hc Ho. split; eauto using flags_kept_refl. Qed.

Lemma call_body (c : call F) :
  exists body : loc -> M F loc,
    apply_call c = clone body
    /\ forall n h0 q o, hoare (owns n h0 q o) (body q) (outcome c n h0 q o).
Proof.
  destruct c; (eexists; split; [reflexivity|]); intros n h0 q o; cbv beta.
  - eapply hoare_conseq; [apply body_filter | done | intros r w; by apply kept_outcome].
  - eapply hoare_conseq; [apply body_exclude | done | intros r w; by apply kept_outcome].
  - eapply hoare_conseq; [apply body_suppress | done | intros r w; by apply kept_outcome].
  - eapply hoare_conseq; [apply body_match_text | done | intros r w; by apply kept_outcome].
  - eapply hoare_conseq; [apply body_add_optional_query | done
                         | intros r w; by apply total_outcome].
  - eapply hoare_conseq; [apply body_sorted_by | done | intros r w; by apply kept_outcome].
  - eapply hoare_conseq; [apply body_aggregation | done | intros r w; by apply kept_outcome].
  - destruct page as [page|], page_size as [page_size|];
      try (apply hoare_lift_bind; [intros ? [=] | intros e w _ Ho]; simpl;
           by eapply raise_outcome);
      try (apply hoare_lift_bind; [intros a [= <-] | intros ? ? [=]];
           apply hoare_lift_bind; [intros ? [=] | intros e w _ Ho]; simpl;
           by eapply raise_outcome).
    apply hoare_lift_bind; [intros a [= <-] | intros ? ? [=]].
    apply hoare_lift_bind; [intros b [= <-] | intros ? ? [=]].
    simpl. destruct (Z.leb_spec page 0%Z); simpl.
    { apply hoare_raise_to. intros w Ho. eapply raise_outcome; [|done]. simpl.
      destruct (Z.ltb_spec 0 page); [lia|done]. }
    destruct (Z.leb_spec page_size 0%Z); simpl.
    { apply hoare_raise_to. intros w Ho. eapply raise_outcome; [|done]. simpl.
      destruct (Z.ltb_spec 0 page_size); [lia|]. apply andb_false_r. }
    eapply hoare_conseq; [apply body_modify | done | intros r w; by apply total_outcome].
    done.
  - destruct start as [start|], end_ as [end_|];
      try (apply hoare_lift_bind; [intros ? [=] | intros e w _ Ho]; simpl;
           by eapply raise_outcome);
      try (apply hoare_lift_bind; [intros a [= <-] | intros ? ? [=]];
           apply hoare_lift_bind; [intros ? [=] | intros e w _ Ho]; simpl;
           by eapply raise_outcome).
    apply hoare_lift_bind; [intros a [= <-] | intros ? ? [=]].
    apply hoare_lift_bind; [intros b [= <-] | intros ? ? [=]].
    simpl. destruct (Z.gtb_spec 0 start); simpl.
    { apply hoare_raise_to. intros w Ho. eapply raise_outcome; [|done]. simpl.
      destruct (Z.leb_spec 0 start); [lia|done]. }
    destruct (Z.gtb_spec start end_); simpl.
    { apply hoare_raise_to. intros w Ho. eapply raise_outcome; [|done]. simpl.
      destruct (Z.ltb_spec start end_); [lia|]. apply andb_false_r. }
    destruct (Z.gtb_spec 1 (end_ - start)); simpl.
    { apply hoare_raise_to. intros w Ho. eapply raise_outcome; [|done]. simpl.
      destruct (Z.ltb_spec start end_); [lia|]. apply andb_false_r. }
    eapply hoare_conseq; [apply body_modify | done | intros r w; by apply total_outcome].
    done.
  - eapply hoare_conseq; [apply body_modify | done | intros r w; by apply total_outcome].
    done.
  - eapply hoare_conseq; [apply body_modify | done | intros r w; by apply total_outcome].
    done.
  - eapply hoare_conseq; [apply body_modify | done | intros r w; by apply total_outcome].
    done.
  - eapply hoare_conseq; [apply body_modify | done | intros r w; by apply total_outcome].
    done.
  - eapply hoare_conseq; [apply body_modify | done | intros r w; by apply total_outcome].
    done.
  - apply hoare_mret. intros w Ho. eapply total_outcome; [apply flags_kept_refl|].
    by split.
Qed.

Lemma clone_run {A} (function : loc -> M F A) (w : world F) (q : loc)
    (o : QuerySetObj) :
  heap w !! q = Some (CQuerySet o) -> fields_ok 0 (heap w) o ->
  exists w1 q' o',
    owns (length (heap w)) (heap w) q' o' w1
    /\ trace w1 = trace w /\ DEBUG w1 = DEBUG w
    /\ same_scalars o o' /\ _result_set o' = None
    /\ clone function q w = function q' w1.
Proof.
  intros Hq Hf. destruct (copy_spec w q o Hq Hf) as (w1 & q' & o' & Hc & Hrest).
  exists w1, q', o'. repeat (split; [apply Hrest|]).
  unfold clone. munfold. by rewrite Hc.
Qed.

Lemma points_weaken (n : nat) (h : list (cell F)) (l : loc) (k : kind) :
  points n h l k -> points 0 h l k.
Proof. intros (_ & Hl). split; [apply Nat.le_0_l | done]. Qed.

Lemma instance_from_weaken (n : nat) (h : list (cell F)) (q : loc) :
  instance_from n h q -> instance_from 0 h q.
Proof.
  intros (_ & o & Hq & Hs & Hm & Hp & (_ & d & Hf & Hd) & Hb & Ha).
  split; [apply Nat.le_0_l|]. exists o. split; [done|].
  repeat (split; [by eapply points_weaken|]).
  split; [|split; by eapply points_weaken].
  split; [apply Nat.le_0_l|]. exists d. split; [done|]. by eapply points_weaken.
Qed.

Lemma to_dict_of_extends (w w' : world F) (q : loc) :
  is_instance w q -> extends (heap w) (heap w') ->
  (to_dict_of q w').2 = (to_dict_of q w).2.
Proof.
  intros Hi He. destruct (snapshot_of_instance _ _ _ Hi) as (st & Hs).
  pose proof (snapshot_extends _ _ _ _ Hs He) as Hs'.
  unfold to_dict_of. munfold. by rewrite Hs, Hs'.
Qed.

(** C2: a call [c] of any chainable method on an instance [q] leaves the
    store as it was up to its old size, so that [q.to_dict()] is what it was;
    if the call returns, it returns an instance that did not exist before,
    hence is not [q]; and a call that cannot raise does return. *)
Theorem chainable_call_leaves_original (w : world F) (q : loc) (c : call F) :
  is_instance w q ->
  take (length (heap w)) (heap (apply_call c q w).1) = heap w
  /\ (to_dict_of q (apply_call c q w).1).2 = (to_dict_of q w).2
  /\ (forall q', (apply_call c q w).2 = OK q' ->
        q' <> q /\ heap w !! q' = None /\ is_instance (apply_call c q w).1 q')
  /\ (always_returns c = true -> exists q', (apply_call c q w).2 = OK q').
Proof.
  intros Hi. pose proof Hi as (_ & o & Hq & Hf).
  destruct (call_body c) as (body & -> & Hbody).
  destruct (clone_run body w q o Hq Hf) as (w1 & q1 & o1 & Ho & _ & _ & _ & _ & ->).
  destruct (Hbody _ _ _ _ w1 Ho) as [(o2 & (Ht & Hn & Hq2 & Hf2) & _) Hr].
  assert (Hext : take (length (heap w)) (heap (body q1 w1).1) = heap w) by done.
  split; [done|]. split; [|split].
  - apply to_dict_of_extends; [done | by apply extends_prefix].
  - intros q' Hq'. destruct Hr as [Hr | (_ & e & Hr)]; rewrite Hr in Hq'; [|done].
    injection Hq' as <-. split; [|split].
    + intros ->. apply lookup_lt_Some in Hq. lia.
    + by apply lookup_ge_None_2.
    + eapply instance_from_weaken. split; eauto.
  - intros Hc. destruct Hr as [Hr | (Hc' & _)]; [eauto | congruence].
Qed.

(** *** [none] *)

Lemma modify_run (w : world F) (q : loc) (o : QuerySetObj)
    (f : QuerySetObj -> QuerySetObj) :
  heap w !! q = Some (CQuerySet o) ->
  (modify q f;; mret q) w
  = ({| heap := <[q:=CQuerySet (f o)]> (heap w); trace := trace w;
        DEBUG := DEBUG w |}, OK q).
Proof. intros Hq. unfold modify, get_qs. munfold. by rewrite Hq. Qed.

Lemma none_spec (w : world F) (q : loc) :
  is_instance w q ->
  exists w1 q1 o1,
    none q w = (w1, OK q1)
    /\ owns (length (heap w)) (heap w) q1 o1 w1
    /\ trace w1 = trace w
    /\ _is_none_set o1 = true /\ _result_set o1 = None.
Proof.
  intros (_ & o & Hq & Hf). unfold none.
  destruct (clone_run (fun self => modify self (set_is_none_set true);; mret self)
              w q o Hq Hf) as (w0 & q1 & o0 & Ho & Ht & _ & _ & Hr & ->).
  pose proof Ho as (_ & _ & Hq1 & _).
  pose proof (body_modify (length (heap w)) (heap w) q1 o0 (set_is_none_set true)
                (fun h Hf0 => Hf0) w0 Ho) as [Ho1 _].
  cbv beta. rewrite (modify_run _ _ _ _ Hq1) in *.
  eexists _, _, _. split; [reflexivity|]. split; [exact Ho1|]. done.
Qed.

Lemma empty_result_set_run (w : world F) :
  empty_result_set w
  = ({| heap := heap w ++ [CResultSet the_empty_result_set]; trace := trace w;
        DEBUG := DEBUG w |}, OK (length (heap w))).
Proof. reflexivity. Qed.

Lemma none_instance_runs (w : world F) (q : loc) (indexes : json)
    (query_params : list (string * json)) :
  none_instance w q ->
  (exists rs r,
     (execute indexes query_params q w).2 = OK (Some r)
     /\ heap (execute indexes query_params q w).1 !! r = Some (CResultSet rs)
     /\ ResultSet_len rs = OK 0%Z /\ total rs = JInt 0
     /\ trace (execute indexes query_params q w).1 = trace w)
  /\ count indexes q w = (w, OK (JInt 0))
  /\ to_dict_of q w = (w, OK (JDict [("is_none", JBool true)])).
Proof.
  intros (Hi & o & Hq & Hs & Hr). split; [|split].
  - exists the_empty_result_set, (length (heap w)).
    unfold execute, get_qs. munfold. rewrite Hq. cbn. rewrite Hr, Hs. cbn.
    split; [done|]. split; [apply lookup_app_last|]. done.
  - unfold count, get_qs. munfold. rewrite Hq. cbn. by rewrite Hr, Hs.
  - destruct (snapshot_of_instance _ _ _ Hi) as (st & Hst).
    assert (Hnone : s_is_none_set st = true).
    { revert Hst. unfold snapshot, get_qs. munfold. rewrite Hq. cbn.
      repeat (match goal with
              | |- context [match ?x with (_, _) => _ end] =>
                  destruct x as [? [?|?]]; cbn; try discriminate
              end).
      intros [= _ <-]. exact Hs. }
    unfold to_dict_of. munfold. rewrite Hst. unfold to_dict. by rewrite Hnone.
Qed.

Lemma none_makes_none_instance (w : world F) (q : loc) :
  is_instance w q ->
  exists w1 q1, none q w = (w1, OK q1) /\ trace w1 = trace w /\ none_instance w1 q1.
Proof.
  intros Hi. destruct (none_spec w q Hi) as (w1 & q1 & o1 & Hn & Ho & Ht & Hs & Hr).
  exists w1, q1. split; [done|]. split; [done|]. split.
  - eapply instance_from_weaken, owns_instance, Ho.
  - exists o1. by destruct Ho as (_ & _ & Hq1 & _).
Qed.

Lemma chained_none_instance (w : world F) (q : loc) (c : call F) (q' : loc) :
  none_instance w q -> (apply_call c q w).2 = OK q' ->
  none_instance (apply_call c q w).1 q'.
Proof.
  intros ((_ & o & Hq & Hf) & o' & Hq' & Hs & _).
  rewrite Hq in Hq'. injection Hq' as <-.
  destruct (call_body c) as (body & -> & Hbody).
  destruct (clone_run body w q o Hq Hf)
    as (w1 & q1 & o1 & Ho & _ & _ & Hsame & Hr1 & ->).
  destruct (Hbody _ _ _ _ w1 Ho) as [(o2 & Ho2 & Hk1 & Hk2) Hr].
  intros Hret. destruct Hr as [Hr | (_ & e & Hr)]; rewrite Hr in Hret; [|done].
  injection Hret as <-. split.
  - eapply instance_from_weaken, owns_instance, Ho2.
  - exists o2. split; [by destruct Ho2 as (_ & _ & ? & _)|]. split.
    + apply Hk1. destruct Hsame as (_ & _ & _ & _ & -> & _). exact Hs.
    + by rewrite Hk2.
Qed.

(** C6: an instance on which [none()] was called answers [execute] with a
    new result set that has no document and total 0, answers [count] with
    0, adds no event to the trace in either case (no request goes out), and
    compiles to the marker [{"is_none": True}]; [none()] on any instance
    returns such an instance; and so does every chainable method called
    on such an instance. *)
Theorem none_short_circuits :
  (forall (w : world F) (q : loc) (indexes : json)
          (query_params : list (string * json)),
     none_instance w q ->
     (exists rs r,
        (execute indexes query_params q w).2 = OK (Some r)
        /\ heap (execute indexes query_params q w).1 !! r = Some (CResultSet rs)
        /\ ResultSet_len rs = OK 0%Z /\ total rs = JInt 0
        /\ trace (execute indexes query_params q w).1 = trace w)
     /\ count indexes q w = (w, OK (JInt 0))
     /\ to_dict_of q w = (w, OK (JDict [("is_none", JBool true)])))
  /\ (forall (w : world F) (q : loc),
        is_instance w q ->
        exists w1 q1,
          none q w = (w1, OK q1) /\ trace w1 = trace w /\ none_instance w1 q1)
  /\ (forall (w : world F) (q : loc) (c : call F) (q' : loc),
        none_instance w q -> (apply_call c q w).2 = OK q' ->
        none_instance (apply_call c q w).1 q').
Proof.
  split; [|split].
  - apply none_instance_runs.
  - apply none_makes_none_instance.
  - apply chained_none_instance.
Qed.

(** *** [execute] and [count] *)

Lemma snapshot_is_none_set (w w' : world F) (q : loc) (o : QuerySetObj)
    (st : QState) :
  heap w !! q = Some (CQuerySet o) -> snapshot q w = (w', OK st) ->
  s_is_none_set st = _is_none_set o.
Proof.
  intros Hq. unfold snapshot, get_qs. munfold. rewrite Hq. cbn.
  repeat (match goal with
          | |- context [match ?x with (_, _) => _ end] =>
              destruct x as [? [?|?]]; cbn; try discriminate
          end).
  by intros [= _ <-].
Qed.

Lemma to_dict_has_query (st : QState) (body : json) :
  s_is_none_set st = false -> to_dict st = OK body ->
  exists kv query, body = JDict kv /\ dict_get kv "query" = Some query.
Proof.
  intros Hn. unfold to_dict. rewrite Hn.
  destruct (_serialized_query st) as [query|]; [|done]. simpl.
  destruct (nonempty (s_aggs_fields st)).
  - destruct (_serialized_aggregations st); [|done]. simpl.
    intros [= <-]. eauto.
  - intros [= <-]. eauto.
Qed.

Lemma execute_cached (w : world F) (q : loc) (o : QuerySetObj) (r : loc)
    (indexes : json) (query_params : list (string * json)) :
  heap w !! q = Some (CQuerySet o) -> _result_set o = Some r ->
  execute indexes query_params q w = (w, OK (Some r)).
Proof.
  intros Hq Hr. unfold execute, get_qs. munfold. rewrite Hq. cbn. by rewrite Hr.
Qed.

Lemma execute_again_cached (k : nat) (w : world F) (q : loc) (o : QuerySetObj)
    (r : loc) (indexes : json) (query_params : list (string * json)) :
  heap w !! q = Some (CQuerySet o) -> _result_set o = Some r ->
  execute_again k indexes query_params q w = (w, OK (Some r)).
Proof.
  intros Hq Hr. induction k as [|k IH]; simpl.
  - by eapply execute_cached.
  - munfold. by rewrite (execute_cached _ _ _ _ _ _ Hq Hr).
Qed.

Lemma execute_first (w : world F) (q : loc) (o : QuerySetObj) (st : QState)
    (body raw : json) (rs : ResultSet) (indexes : json)
    (query_params : list (string * json)) :
  heap w !! q = Some (CQuerySet o) ->
  _result_set o = None -> _is_none_set o = false ->
  snapshot q w = (w, OK st) -> to_dict st = OK body ->
  es_search (conn o) (trace w) body indexes query_params = Response raw ->
  ResultSet_init raw = OK rs ->
  execute indexes query_params q w
  = ({| heap := <[q:=CQuerySet (set_result_set (Some (length (heap w))) o)]>
                  (heap w ++ [CResultSet rs]);
        trace := trace w ++ [Search body indexes query_params];
        DEBUG := DEBUG w |},
     OK (Some (length (heap w)))).
Proof.
  intros Hq Hr Hn Hs Hb He Hi.
  unfold execute, to_dict_of, raw_search, _execute_callback, modify, get_qs.
  munfold. rewrite Hq. cbn -[snapshot]. rewrite Hr, Hn. cbn -[snapshot].
  rewrite Hs. cbn. rewrite Hb. cbn. rewrite He. cbn. rewrite Hi. cbn.
  by rewrite (lookup_app_l_Some _ _ _ _ Hq).
Qed.

Lemma count_cached (w : world F) (q : loc) (o : QuerySetObj) (r : loc)
    (rs : ResultSet) (indexes : json) :
  heap w !! q = Some (CQuerySet o) -> _result_set o = Some r ->
  heap w !! r = Some (CResultSet rs) ->
  count indexes q w = (w, OK (total rs)).
Proof.
  intros Hq Hr Hrs. unfold count, get_qs, get_result_set. munfold.
  rewrite Hq. cbn. rewrite Hr. cbn. by rewrite Hrs.
Qed.

(** A [count] on an instance that has not executed sends one count
    request and leaves the store as it is: nothing is kept for later. *)
Lemma count_uncached (w : world F) (q : loc) (o : QuerySetObj) (st : QState)
    (body : json) (indexes : json) :
  heap w !! q = Some (CQuerySet o) ->
  _result_set o = None -> _is_none_set o = false ->
  snapshot q w = (w, OK st) -> to_dict st = OK body ->
  exists count_body,
    heap (count indexes q w).1 = heap w
    /\ trace (count indexes q w).1 = trace w ++ [Count count_body indexes].
Proof.
  intros Hq Hr Hn Hs Hb.
  assert (Hsn : s_is_none_set st = false)
    by (rewrite <- Hn; by eapply snapshot_is_none_set).
  destruct (to_dict_has_query _ _ Hsn Hb) as (kv & query & -> & Hquery).
  unfold count, to_dict_of, raw_count, get_qs.
  munfold. rewrite Hq. cbn -[snapshot]. rewrite Hr, Hn. cbn -[snapshot].
  rewrite Hs. cbn. rewrite Hb. cbn. rewrite Hquery. cbn.
  unfold dict_has. destruct (dict_get kv "from") as [from|]; cbn;
    (eexists; destruct (es_count _ _ _ _) as [raw| | |]; cbn;
     [destruct (getitem raw "count")| |destruct (raise_on_transport_error _ _ _)|];
     cbn; split; reflexivity).
Qed.

(** C3 (as amended): on an instance that has no cached result and is not a
    none-set, a first [execute] whose search is answered and decoded sends
    exactly that one search request and keeps the result set on the
    instance; every later [execute], however many, returns the same result
    set and leaves the store and the trace as they are; so does a later
    [count], which reads the total off the kept result set.  A [count]
    before any [execute] sends a count request and keeps nothing. *)
Theorem execute_caches_count_does_not (w : world F) (q : loc) (o : QuerySetObj)
    (st : QState) (body raw : json) (rs : ResultSet) (indexes : json)
    (query_params : list (string * json)) :
  heap w !! q = Some (CQuerySet o) ->
  _result_set o = None -> _is_none_set o = false ->
  snapshot q w = (w, OK st) -> to_dict st = OK body ->
  es_search (conn o) (trace w) body indexes query_params = Response raw ->
  ResultSet_init raw = OK rs ->
  let w1 := (execute indexes query_params q w).1 in
  let r := length (heap w) in
  (execute indexes query_params q w).2 = OK (Some r)
  /\ heap w1 !! r = Some (CResultSet rs)
  /\ trace w1 = trace w ++ [Search body indexes query_params]
  /\ searches (trace w1) = S (searches (trace w))
  /\ (forall k indexes' query_params',
        execute_again k indexes' query_params' q w1 = (w1, OK (Some r)))
  /\ (forall indexes', count indexes' q w1 = (w1, OK (total rs)))
  /\ (exists count_body,
        heap (count indexes q w).1 = heap w
        /\ trace (count indexes q w).1 = trace w ++ [Count count_body indexes]).
Proof.
  intros Hq Hr Hn Hs Hb He Hi w1 r. subst w1 r.
  rewrite (execute_first _ _ _ _ _ _ _ _ _ Hq Hr Hn Hs Hb He Hi). cbn.
  pose proof (lookup_lt_Some _ _ _ Hq) as Hlt.
  assert (Hq1 : <[q:=CQuerySet (set_result_set (Some (length (heap w))) o)]>
                  (heap w ++ [CResultSet rs]) !! q
                = Some (CQuerySet (set_result_set (Some (length (heap w))) o))).
  { apply list_lookup_insert_eq. rewrite length_app. simpl. lia. }
  assert (Hr1 : <[q:=CQuerySet (set_result_set (Some (length (heap w))) o)]>
                  (heap w ++ [CResultSet rs]) !! length (heap w)
                = Some (CResultSet rs)).
  { rewrite list_lookup_insert_ne by lia. apply lookup_app_last. }
  split; [done|]. split; [done|]. split; [done|]. split; [|split; [|split]].
  - unfold searches. rewrite List.filter_app, length_app. simpl. lia.
  - intros k indexes' query_params'. by eapply execute_again_cached.
  - intros indexes'. by eapply count_cached.
  - by eapply count_uncached.
Qed.

(** *** [FilterDict]: merge first, report afterwards *)

Lemma dict_set_present {V} (d : list (string * V)) (k : string) (v v' : V) :
  dict_get d k = Some v -> length (dict_set d k v') = length d
                           /\ dict_get (dict_set d k v') k = Some v'.
Proof.
  induction d as [|[a x] d IH]; simpl; [done|].
  destruct (String.eqb a k) eqn:E; simpl.
  - intros _. by rewrite E.
  - intros Hk. rewrite E. destruct (IH Hk) as [-> ->]. done.
Qed.

Lemma dict_set_absent {V} (d : list (string * V)) (k : string) (v : V) :
  dict_get d k = None -> dict_set d k v = d ++ [(k, v)].
Proof.
  induction d as [|[a x] d IH]; simpl; [done|].
  destruct (String.eqb a k); [done|]. intros Hk. by rewrite IH.
Qed.

(** How [add_positive] treats a filter [v] filed under [key] in a
    [FilterDict] whose dictionary is [kv]. *)
Lemma add_positive_merges_first (w : world F) (fl d : loc)
    (kv : list (string * (polarity * F))) (key0 : string) (v : F) :
  heap w !! fl = Some (CFilterDict d) -> heap w !! d = Some (CDict kv) ->
  let key := if is_multi v then String.append "+" key0 else key0 in
  let after := FilterDict.add_positive fl key0 v w in
  (forall prev f merged,
     dict_get kv key = Some (prev, f) -> merge f v = Some merged ->
     after.2 = OK tt /\ trace after.1 = trace w
     /\ heap after.1 !! d = Some (CDict (dict_set kv key (Plus, merged)))
     /\ length (dict_set kv key (Plus, merged)) = length kv)
  /\ (forall prev f,
        dict_get kv key = Some (prev, f) -> merge f v = None ->
        if DEBUG w
        then after = (w, Raise (ValueError
                                  (FilterDict.overwrite_message key prev f Plus v)))
        else after.2 = OK tt
             /\ trace after.1
                = trace w ++ [Log (FilterDict.overwrite_message key prev f Plus v)]
             /\ heap after.1 !! d = Some (CDict (dict_set kv key (Plus, v))))
  /\ (dict_get kv key = None ->
      after.2 = OK tt /\ trace after.1 = trace w
      /\ heap after.1 !! d = Some (CDict (kv ++ [(key, (Plus, v))]))).
Proof.
  intros Hfl Hd key after. subst after.
  rewrite (add_positive_run _ _ _ _ _ _ Hfl Hd). fold key. unfold add_outcome.
  pose proof (lookup_lt_Some _ _ _ Hd) as Hlt.
  split; [|split].
  - intros prev f merged Hk Hm. rewrite Hk, Hm. simpl.
    split; [done|]. split; [done|]. split.
    + by apply list_lookup_insert_eq.
    + by apply (dict_set_present _ _ _ _ Hk).
  - intros prev f Hk Hm. rewrite Hk, Hm. destruct (DEBUG w); simpl; [done|].
    split; [done|]. split; [done|]. by apply list_lookup_insert_eq.
  - intros Hk. rewrite Hk. simpl. split; [done|]. split; [done|].
    rewrite (dict_set_absent _ _ _ Hk). by apply list_lookup_insert_eq.
Qed.

End StoreProofs.
End StoreProofs.

(** ** The modelled filters: merging membership filters *)

Module FilterProofs.
Import filters JsonInduction.

Lemma json_eqb_eq (a b : json) : json_eqb a b = true <-> a = b.
Proof.
  revert b. induction a as [|x|x|x y|x|l IH|kv IH] using json_induction;
    intros c; destruct c; simpl; try (split; [discriminate|discriminate]).
  - done.
  - rewrite Bool.eqb_true_iff. split; congruence.
  - rewrite Z.eqb_eq. split; congruence.
  - rewrite andb_true_iff, Z.eqb_eq, Pos.eqb_eq. split; [intros []|intros [=]]; by subst.
  - rewrite String.eqb_eq. split; congruence.
  - revert l0. induction IH as [|x l Hx _ IHl]; intros [|y l'];
      try (split; [discriminate|discriminate]); [done|].
    rewrite andb_true_iff, Hx, IHl. split; [intros [-> [= ->]]|intros [= -> ->]]; done.
  - revert kv0. induction IH as [|[k x] kv Hx _ IHkv]; intros [|[k' y] kv'];
      try (split; [discriminate|discriminate]); [done|].
    simpl in Hx. rewrite !andb_true_iff, String.eqb_eq, Hx, IHkv.
    split; [intros [[-> ->] [= ->]]|intros [= -> -> ->]]; done.
Qed.

Lemma mem_In (v : json) (l : list json) : mem v l = true <-> In v l.
Proof.
  unfold mem. rewrite existsb_exists. split.
  - intros (x & Hx & E). apply json_eqb_eq in E. by subst.
  - intros Hv. exists v. split; [done|]. by apply json_eqb_eq.
Qed.

Lemma union_In (a b : list json) (x : json) :
  In x (union a b) <-> In x a \/ In x b.
Proof.
  revert a. induction b as [|v b IH]; intros a; simpl; [tauto|].
  rewrite IH. destruct (mem v a) eqn:E.
  - apply mem_In in E. split; [tauto|]. intros [?|[<-|?]]; tauto.
  - rewrite in_app_iff. simpl. tauto.
Qed.

End FilterProofs.

(** ** A concrete client and store *)

Module FixtureProofs.
Import SuspendersQuerySet StoreSpec StoreProofs Fixtures.

Lemma w0_instance : is_instance w0 q0.
Proof.
  unfold is_instance, instance_from, fields_ok, filters_ok, points. cbn.
  repeat match goal with
         | |- _ /\ _ => split
         | |- exists _, _ => eexists
         | |- (_ <= _)%nat => apply Nat.le_0_l
         | |- _ = _ => reflexivity
         end.
Defined.

End FixtureProofs.

(** ** The properties of instances on the concrete store *)

Module InstanceProofs.
Import SuspendersQuerySet StoreSpec StoreProofs Fixtures FixtureProofs.

Lemma chainable_call_leaves_original_witness :
  is_instance w0 q0
  /\ take (length (heap w0)) (heap (apply_call call_filter_12 q0 w0).1) = heap w0
  /\ (to_dict_of q0 (apply_call call_filter_12 q0 w0).1).2 = (to_dict_of q0 w0).2
  /\ (forall q', (apply_call call_filter_12 q0 w0).2 = OK q' ->
        q' <> q0 /\ heap w0 !! q' = None
        /\ is_instance (apply_call call_filter_12 q0 w0).1 q')
  /\ (always_returns call_filter_12 = true ->
      exists q', (apply_call call_filter_12 q0 w0).2 = OK q').
Proof.
  split; [exact w0_instance|].
  exact (chainable_call_leaves_original w0 q0 call_filter_12 w0_instance).
Defined.

Lemma execute_caches_count_does_not_witness :
  (execute JNull [] q0 w0).2 = OK (Some 8%nat)
  /\ trace (execute JNull [] q0 w0).1
     = [Search
          (JDict [("sort", JList [JStr "_score"; JStr "id"]); ("size", JInt 10);
                  ("query", JDict [("match_all", JDict [])]);
                  ("track_total_hits", JBool false)])
          JNull []]
  /\ (forall k indexes' query_params',
        execute_again k indexes' query_params' q0 (execute JNull [] q0 w0).1
        = ((execute JNull [] q0 w0).1, OK (Some 8%nat)))
  /\ (forall indexes',
        count indexes' q0 (execute JNull [] q0 w0).1
        = ((execute JNull [] q0 w0).1, OK (JInt 1))).
Proof.
  edestruct (execute_caches_count_does_not w0 q0)
    as (Hr & _ & Ht & _ & Hagain & Hcount & _);
    [reflexivity | reflexivity | reflexivity | reflexivity | reflexivity
    | reflexivity | reflexivity |].
  split; [exact Hr|]. split; [exact Ht|]. split; [exact Hagain | exact Hcount].
Defined.

(** The methods that check their arguments return on arguments that pass:
    each of these calls on the new instance returns the clone. *)
Example checked_calls_return :
  (apply_call (call_exclude [inl tags_in_field] []) q0 w0).2 = OK 15%nat
  /\ (apply_call (call_suppress [] [("draft", JBool true)]) q0 w0).2 = OK 15%nat
  /\ (apply_call (call_match_text [("name", JStr "Baloney")]) q0 w0).2 = OK 15%nat
  /\ (apply_call (call_sorted_by ["-position"; "_score"]) q0 w0).2 = OK 15%nat
  /\ (apply_call (call_aggregation (JStr "uuid") (JInt 10) JNull JNull JNull JNull
                    None []) q0 w0).2 = OK 15%nat
  /\ (apply_call (call_paginate (Some 2%Z) (Some 20%Z)) q0 w0).2 = OK 15%nat
  /\ (apply_call (call_slice (Some 10%Z) (Some 5%Z)) q0 w0).2
     = Raise (ValueError (JStr "End must be an integer greater than start")).
Proof. repeat split; vm_compute; reflexivity. Qed.

(** C3 (counterexample): two [count] calls on one fresh instance send two
    count requests, and each is answered by the client. *)
Lemma count_twice_sends_two_requests :
  is_instance w0 q0
  /\ counts (trace ((count JNull q0;; count JNull q0) w0).1) = 2%nat
  /\ ((count JNull q0;; count JNull q0) w0).2 = OK (JInt 6)
  /\ counts (trace ((count JNull q0;; count JNull q0) w0).1) <> 1%nat.
Proof.
  split; [exact w0_instance|]. split; [reflexivity|]. split; [reflexivity|].
  discriminate.
Qed.

Lemma none_short_circuits_witness :
  is_instance w0 q0
  /\ exists w1 q1,
       none q0 w0 = (w1, OK q1) /\ trace w1 = trace w0
       /\ (exists rs r,
             (execute JNull [] q1 w1).2 = OK (Some r)
             /\ heap (execute JNull [] q1 w1).1 !! r = Some (CResultSet rs)
             /\ ResultSet_len rs = OK 0 /\ total rs = JInt 0
             /\ trace (execute JNull [] q1 w1).1 = trace w1)
       /\ count JNull q1 w1 = (w1, OK (JInt 0))
       /\ to_dict_of q1 w1 = (w1, OK (JDict [("is_none", JBool true)])).
Proof.
  split; [exact w0_instance|].
  destruct (none_short_circuits (F := filters.Filter)) as (Hruns & Hnone & _).
  destruct (Hnone w0 q0 w0_instance) as (w1 & q1 & Hn & Ht & Hi).
  exists w1, q1. split; [exact Hn|]. split; [exact Ht|].
  exact (Hruns w1 q1 JNull [] Hi).
Defined.

(** C5: (1) for every filter class, [add_positive] first tries to merge the
    new filter with the one filed under the same key: if that works, the
    merged filter takes the place of the old one, the dictionary keeps its
    size and nothing is reported; if it fails, the overwrite is raised as
    [ValueError] in [DEBUG] mode and otherwise logged, the new filter
    replacing the old one; with no filter under the key, the new one is
    added and nothing is reported.  (2) For the modelled filters, two [in]
    filters on one field merge into the [in] filter on that field whose
    values are those of either.  (3) So
    [filter(field__in=[1, 2]).filter(field__in=[2, 3])] on a new query set
    compiles, without any report, to a single [in] filter on [field] with
    the values 1, 2, 3. *)
Theorem filter_dict_merges_before_reporting :
  (forall (F : Type) (HF : IsFilter F) (w : world F) (fl d : nat)
          (kv : list (string * (polarity * F))) (key0 : string) (v : F),
     heap w !! fl = Some (CFilterDict d) -> heap w !! d = Some (CDict kv) ->
     let key := if is_multi v then String.append "+" key0 else key0 in
     let after := FilterDict.add_positive fl key0 v w in
     (forall prev f merged,
        dict_get kv key = Some (prev, f) -> merge f v = Some merged ->
        after.2 = OK tt /\ trace after.1 = trace w
        /\ heap after.1 !! d = Some (CDict (dict_set kv key (Plus, merged)))
        /\ length (dict_set kv key (Plus, merged)) = length kv)
     /\ (forall prev f,
           dict_get kv key = Some (prev, f) -> merge f v = None ->
           if DEBUG w
           then after = (w, Raise (ValueError
                                     (FilterDict.overwrite_message key prev f Plus v)))
           else after.2 = OK tt
                /\ trace after.1
                   = trace w ++ [Log (FilterDict.overwrite_message key prev f Plus v)]
                /\ heap after.1 !! d = Some (CDict (dict_set kv key (Plus, v))))
     /\ (dict_get kv key = None ->
         after.2 = OK tt /\ trace after.1 = trace w
         /\ heap after.1 !! d = Some (CDict (kv ++ [(key, (Plus, v))]))))
  /\ (forall (fld : string) (a b : list json),
        merge {| filters.field := fld; filters.op := filters.OpIn;
                 filters.values := a |}
              {| filters.field := fld; filters.op := filters.OpIn;
                 filters.values := b |}
        = Some {| filters.field := fld; filters.op := filters.OpIn;
                  filters.values := filters.union a b |}
        /\ forall x, List.In x (filters.union a b) <-> List.In x a \/ List.In x b)
  /\ ((q1 ← filter_12 q0; q2 ← filter_23 q1; to_dict_of q2) w0).2
     = OK (JDict
             [("sort", JList [JStr "_score"; JStr "id"]); ("size", JInt 10);
              ("query",
               JDict
                 [("constant_score",
                   JDict
                     [("filter",
                       JDict
                         [("bool",
                           JDict
                             [("must",
                               JList
                                 [JDict
                                    [("in",
                                      JDict
                                        [("field",
                                          JList [JInt 1; JInt 2; JInt 3])])]])])])])]);
              ("track_total_hits", JBool false)])
  /\ trace ((q1 ← filter_12 q0; q2 ← filter_23 q1; to_dict_of q2) w0).1 = [].
Proof.
  split; [|split; [|split]].
  - intros F HF w fl d kv key0 v Hfl Hd. by apply add_positive_merges_first.
  - intros fld a b. split; [|intros x; apply FilterProofs.union_In].
    simpl. unfold filters.Filter_merge. simpl. by rewrite String.eqb_refl.
  - vm_compute. reflexivity.
  - vm_compute. reflexivity.
Qed.

Lemma filter_dict_merges_before_reporting_witness :
  heap w1 !! 21%nat = Some (CFilterDict 20)
  /\ heap w1 !! 20%nat = Some (CDict [("+field", (Plus, in_field [JInt 1; JInt 2]))])
  /\ (FilterDict.add_positive 21 "field" (in_field [JInt 2; JInt 3]) w1).2 = OK tt
  /\ trace (FilterDict.add_positive 21 "field" (in_field [JInt 2; JInt 3]) w1).1
     = trace w1
  /\ heap (FilterDict.add_positive 21 "field" (in_field [JInt 2; JInt 3]) w1).1
       !! 20%nat
     = Some (CDict [("+field", (Plus, in_field [JInt 1; JInt 2; JInt 3]))]).
Proof.
  split; [reflexivity|]. split; [reflexivity|].
  pose proof (proj1 filter_dict_merges_before_reporting _ _ w1 21%nat 20%nat
                [("+field", (Plus, in_field [JInt 1; JInt 2]))] "field"
                (in_field [JInt 2; JInt 3]) eq_refl eq_refl) as (Hmerge & _ & _).
  destruct (Hmerge Plus (in_field [JInt 1; JInt 2])
              (in_field [JInt 1; JInt 2; JInt 3]) eq_refl eq_refl)
    as (Hr & Ht & Hh & _).
  split; [exact Hr|]. split; [exact Ht | exact Hh].
Defined.

End InstanceProofs.

(** ** Dictionaries *)

Module DictProofs.

Lemma dict_get_set {V} (d : list (string * V)) (k k' : string) (v : V) :
  dict_get (dict_set d k v) k'
  = if String.eqb k k' then Some v else dict_get d k'.
Proof.
  induction d as [|[a x] d IH]; simpl.
  - by destruct (String.eqb k k').
  - destruct (String.eqb a k) eqn:E; simpl.
    + apply String.eqb_eq in E as ->. by destruct (String.eqb k k').
    + rewrite IH. destruct (String.eqb k k') eqn:E'; [|done].
      apply String.eqb_eq in E' as <-. by rewrite E.
Qed.

Lemma dict_set_length {V} (d : list (string * V)) (k : string) (v : V) :
  length (dict_set d k v) = if dict_has d k then length d else S (length d).
Proof.
  unfold dict_has. induction d as [|[a x] d IH]; simpl; [done|].
  destruct (String.eqb a k); simpl; [done|]. rewrite IH.
  by destruct (dict_get d k).
Qed.

End DictProofs.

(** ** Orderings *)

Module SortProofs.
Import SuspendersQuerySet SortSpec.

Lemma orderings_accepted (orderings : list string) :
  forallb (fun o => negb (refused o)) orderings = true ->
  orderings_to_sort orderings = OK (map sort_entry orderings).
Proof.
  induction orderings as [|o l IH]; simpl; [done|].
  intros [Ho Hl]%andb_true_iff. rewrite (IH Hl). unfold refused in Ho.
  assert (Hs : sort_entry o
               = if String.eqb o "_score" then JDict [(o, JStr "desc")]
                 else if startswith o "-" then JDict [(tail o, JStr "desc")]
                 else if startswith o "+" then JDict [(tail o, JStr "asc")]
                 else JDict [(o, JStr "asc")]) by reflexivity.
  rewrite Hs. clear Hs.
  destruct (String.eqb o "_score") eqn:E1; simpl in *; [done|].
  apply negb_true_iff in Ho. rewrite Ho. simpl.
  destruct (startswith o "-"); simpl; [done|].
  destruct (startswith o "+"); done.
Qed.

Lemma ordering_refused (ok : list string) (bad : string) (rest : list string) :
  forallb (fun o => negb (refused o)) ok = true -> refused bad = true ->
  orderings_to_sort (ok ++ bad :: rest)
  = Raise (ValueError (JStr (String.append "Invalid ordering " bad))).
Proof.
  intros Hok Hbad. induction ok as [|o l IH]; simpl.
  - unfold refused in Hbad. apply andb_true_iff in Hbad as [H1 H2].
    apply negb_true_iff in H1. by rewrite H1, H2.
  - simpl in Hok. apply andb_true_iff in Hok as [Ho Hl]. rewrite (IH Hl).
    unfold refused in Ho.
    destruct (String.eqb o "_score") eqn:E1; simpl in *; [done|].
    apply negb_true_iff in Ho. rewrite Ho. simpl.
    destruct (startswith o "-"); simpl; [done|].
    destruct (startswith o "+"); done.
Qed.

Lemma split_at_refused (l : list string) :
  forallb (fun o => negb (refused o)) l = false ->
  exists ok bad rest, l = ok ++ bad :: rest
    /\ forallb (fun o => negb (refused o)) ok = true /\ refused bad = true.
Proof.
  induction l as [|o l IH]; simpl; [done|].
  destruct (refused o) eqn:E; simpl.
  - intros _. exists [], o, l. done.
  - intros Hl. destruct (IH Hl) as (ok & bad & rest & -> & Hok & Hbad).
    exists (o :: ok), bad, rest. simpl. rewrite E. done.
Qed.

(** X1: [sorted_by] accepts a list of orderings exactly when none of them is
    refused; it then yields one entry per ordering, in order; otherwise it
    raises [ValueError] naming the first refused ordering. *)
Theorem orderings_to_sort_total_description (orderings : list string) :
  (forallb (fun o => negb (refused o)) orderings = true
   /\ orderings_to_sort orderings = OK (map sort_entry orderings))
  \/ (exists ok bad rest,
        orderings = ok ++ bad :: rest
        /\ forallb (fun o => negb (refused o)) ok = true /\ refused bad = true
        /\ orderings_to_sort orderings
           = Raise (ValueError (JStr (String.append "Invalid ordering " bad)))).
Proof.
  destruct (forallb (fun o => negb (refused o)) orderings) eqn:E.
  - left. split; [done|]. by apply orderings_accepted.
  - right. destruct (split_at_refused _ E) as (ok & bad & rest & -> & Hok & Hbad).
    exists ok, bad, rest. repeat split; try done. by apply ordering_refused.
Qed.

(** X2: the refusal of names that start with an underscore covers only the
    bare form: with a sign in front, any name is accepted, and [-name] sorts
    on [name] in descending, [+name] in ascending order. *)
Theorem signed_ordering_always_accepted (name : string) :
  orderings_to_sort [String.append "-" name] = OK [JDict [(name, JStr "desc")]]
  /\ orderings_to_sort [String.append "+" name] = OK [JDict [(name, JStr "asc")]].
Proof. split; destruct name; reflexivity. Qed.

End SortProofs.

(** ** Aggregations *)

Module AggregationProofs.
Import SuspendersQuerySet DictProofs AggregationSpec.

Lemma to_dict_single_key (a : TermsAggregation) (d : json) :
  TermsAggregation_to_dict a = OK d -> exists v, d = JDict [(ta_name a, v)].
Proof.
  unfold TermsAggregation_to_dict. case_match; [done|]. intros [= <-]. eauto.
Qed.

Lemma aggregations_app (l1 l2 : list TermsAggregation) (acc : list (string * json)) :
  _serialized_aggregations_from (l1 ++ l2) acc
  = _serialized_aggregations_from l1 acc ≫= _serialized_aggregations_from l2.
Proof.
  revert acc. induction l1 as [|a l1 IH]; intros acc; simpl; [done|].
  destruct (TermsAggregation_to_dict a); simpl; [apply IH | done].
Qed.

Lemma aggregations_other_names (l : list TermsAggregation)
    (acc kv : list (string * json)) (n : string) :
  _serialized_aggregations_from l acc = OK kv ->
  Forall (fun b => ta_name b <> n) l ->
  dict_get kv n = dict_get acc n.
Proof.
  revert acc. induction l as [|a l IH]; intros acc; simpl.
  - by intros [= <-].
  - destruct (TermsAggregation_to_dict a) as [d|] eqn:E; [|done]. simpl.
    intros Hl Hn. inversion Hn as [|? ? Ha Hn']; subst.
    destruct (to_dict_single_key _ _ E) as (v & ->).
    rewrite (IH _ Hl Hn'). simpl. rewrite dict_get_set.
    destruct (String.eqb (ta_name a) n) eqn:E'; [|done].
    by apply String.eqb_eq in E'.
Qed.

Lemma aggregations_length (l : list TermsAggregation) (acc kv : list (string * json)) :
  _serialized_aggregations_from l acc = OK kv ->
  (length kv <= length acc + length l)%nat.
Proof.
  revert acc. induction l as [|a l IH]; intros acc; simpl.
  - intros [= <-]. lia.
  - destruct (TermsAggregation_to_dict a) as [d|] eqn:E; [|done]. simpl.
    destruct (to_dict_single_key _ _ E) as (v & ->). intros Hl.
    apply IH in Hl. simpl in Hl. rewrite dict_set_length in Hl.
    destruct (dict_has acc (ta_name a)); lia.
Qed.

Lemma dict_set_keys {V} (d : list (string * V)) (k x : string) (v : V) :
  In x (map fst (dict_set d k v)) <-> x = k \/ In x (map fst d).
Proof.
  induction d as [|[a y] d IH]; simpl.
  - intuition.
  - destruct (String.eqb a k) eqn:E; simpl.
    + apply String.eqb_eq in E as ->. intuition.
    + rewrite IH. intuition.
Qed.

Lemma dict_set_distinct_keys {V} (d : list (string * V)) (k : string) (v : V) :
  List.NoDup (map fst d) -> List.NoDup (map fst (dict_set d k v)).
Proof.
  induction d as [|[a y] d IH]; simpl; intros Hd.
  - constructor; [intros []|constructor].
  - inversion Hd as [|? ? Ha Hd']; subst.
    destruct (String.eqb a k) eqn:E; simpl; [by constructor|].
    constructor; [|by apply IH].
    rewrite dict_set_keys. intros [->|Hin]; [|done].
    by rewrite String.eqb_refl in E.
Qed.

Lemma aggregations_distinct_names (l : list TermsAggregation)
    (acc kv : list (string * json)) :
  _serialized_aggregations_from l acc = OK kv ->
  List.NoDup (map fst acc) -> List.NoDup (map fst kv).
Proof.
  revert acc. induction l as [|a l IH]; intros acc; simpl.
  - by intros [= <-].
  - destruct (TermsAggregation_to_dict a) as [d|] eqn:E; [|done]. simpl.
    destruct (to_dict_single_key _ _ E) as (v & ->). intros Hl Hacc.
    apply (IH _ Hl). simpl. by apply dict_set_distinct_keys.
Qed.

(** X7: the compiled aggregations hold one entry per name, that of the last
    aggregation registered under it: when the aggregations compile, no name
    occurs twice in the result, and an aggregation [a] with which no later
    aggregation shares its name is reported under its name with its own
    serialization, whatever was registered under that name before. *)
Theorem last_aggregation_of_a_name_wins
    (before after : list TermsAggregation) (a : TermsAggregation)
    (kv : list (string * json)) :
  _serialized_aggregations_from (before ++ a :: after) [] = OK kv ->
  Forall (fun b => ta_name b <> ta_name a) after ->
  (exists v, TermsAggregation_to_dict a = OK (JDict [(ta_name a, v)])
             /\ dict_get kv (ta_name a) = Some v)
  /\ List.NoDup (map fst kv).
Proof.
  intros Hkv Hafter. split.
  - rewrite aggregations_app in Hkv.
    destruct (_serialized_aggregations_from before []) as [acc|]; [|done].
    simpl in Hkv. destruct (TermsAggregation_to_dict a) as [d|] eqn:E; [|done].
    simpl in Hkv. destruct (to_dict_single_key _ _ E) as (v & ->).
    exists v. split; [done|].
    rewrite (aggregations_other_names _ _ _ _ Hkv Hafter). simpl.
    by rewrite dict_get_set, String.eqb_refl.
  - apply (aggregations_distinct_names _ _ _ Hkv). constructor.
Qed.

Lemma last_aggregation_of_a_name_wins_witness :
  dict_get [("tags", JDict [("terms", JDict [("field", JStr "tags"); ("size", JInt 5)])])]
    "tags"
  = Some (JDict [("terms", JDict [("field", JStr "tags"); ("size", JInt 5)])]).
Proof.
  destruct (last_aggregation_of_a_name_wins [tags_of_size 10] [] (tags_of_size 5)
              [("tags", JDict [("terms", JDict [("field", JStr "tags");
                                                ("size", JInt 5)])])]
              eq_refl (Forall_nil _)) as ((v & Hv & Hget) & _).
  injection Hv as <-. exact Hget.
Defined.

End AggregationProofs.

(** ** Suppressed queries *)

Module SuppressProofs.
Import SuspendersQuerySet.
Section SuppressProofs.
Context {F : Type} `{IsFilter F}.

(** Whatever query the positive side is, a [NegativeBoost] that holds it as
    a single object cannot be serialized. *)
Lemma NegativeBoost_single_positive (negative : inner_set F) (q : Query F)
    (negative_boost : json) :
  queries.to_dict (NegativeBoost negative (Some (InnerQuery q)) negative_boost)
  = Raise (TypeError "object is not iterable").
Proof. reflexivity. Qed.

(** The query [_serialized_query] builds before it looks at the
    negative-boost queries is always built: none of the constructor checks
    fires. *)
Lemma selected_query_built (st : QState) :
  exists res : Query F,
    (if nonempty (s_must_search_set st) || nonempty (s_optional_search_set st) then
       res ← BoolQuery_init None (Some (s_must_search_set st))
               (Some (s_optional_search_set st)) (Some []) None
               (if nonempty (s_optional_search_set st)
                then Some (s_minimum_should_match st) else None) false;
       if FilterDict.has_values (s_filters st) then
         f ← filter_context st;
         BoolQuery_init None (Some [res]) None None (Some f) None false
       else OK res
     else
       if FilterDict.has_values (s_filters st) then
         f ← filter_context st;
         ConstantScoreQuery_init (Some f)
       else OK MatchAllQuery) = OK res.
Proof.
  assert (Hf : FilterDict.has_values (s_filters st) = true ->
               exists f, filter_context st = OK f).
  { intros Hv. destruct (CompileProofs.filter_context_ok st) as (f & Hf & _);
      [by destruct (s_filters st) | eauto]. }
  destruct (s_must_search_set st) as [|m ms], (s_optional_search_set st) as [|o os];
    simpl;
    (destruct (FilterDict.has_values (s_filters st));
     [destruct (Hf eq_refl) as (f & ->) | ]; unfold BoolQuery_init; simpl;
     rewrite ?andb_false_r; simpl; eexists; reflexivity).
Qed.

(** X5: a query set that holds a negative-boost query (one on which
    [suppress] has added a filter) cannot be compiled: [_serialized_query]
    raises [TypeError], whatever else the query set holds, and so does
    [to_dict] unless the query set is a none-set. *)
Theorem suppressed_query_set_does_not_compile (st : QState) :
  s_negative_boost_queries st <> [] ->
  _serialized_query st = Raise (TypeError "object is not iterable")
  /\ (s_is_none_set st = false ->
      to_dict st = Raise (TypeError "object is not iterable")).
Proof.
  intros Hnb.
  assert (Hq : _serialized_query st = Raise (TypeError "object is not iterable")).
  { unfold _serialized_query. destruct (selected_query_built st) as (res & ->).
    destruct (s_negative_boost_queries st); [done|]. reflexivity. }
  split; [done|]. intros Hn. unfold to_dict. by rewrite Hn, Hq.
Qed.

End SuppressProofs.

Lemma suppressed_query_set_does_not_compile_witness :
  s_negative_boost_queries CompileSpec.suppressed_only <> []
  /\ to_dict CompileSpec.suppressed_only = Raise (TypeError "object is not iterable").
Proof.
  split; [discriminate|].
  apply (suppressed_query_set_does_not_compile CompileSpec.suppressed_only);
    [discriminate | reflexivity].
Defined.

End SuppressProofs.

(** ** The chainable methods, by the content of the clone *)

Module ChainProofs.
Import SuspendersQuerySet StoreSpec StoreProofs ChainSpec SortSpec.
Local Open Scope nat_scope.

(** One step of running a program on a store [h ++ new], where the objects
    of [h] are known by hypotheses and those of [new] are listed. *)
Ltac store_step :=
  rewrite <- ?app_assoc; cbn [app]; rewrite ?length_app; cbn [length];
  first
    [ match goal with
      | H : ?h !! ?l = Some _ |- context [(?h ++ _) !! ?l] =>
          rewrite (lookup_app_l_Some _ _ _ _ H)
      end
    | match goal with
      | H : ?h !! ?l = Some _ |- context [?h !! ?l] => rewrite H
      end
    | rewrite lookup_app_add
    | rewrite insert_app_r ];
  cbn.

Section ChainProofs.
Context {F : Type} `{IsFilter F}.

Lemma snapshot_parts (w : world F) (q : loc) (o : QuerySetObj) (st : QState) :
  heap w !! q = Some (CQuerySet o) -> snapshot q w = (w, OK st) ->
  heap w !! _sort o = Some (CSortList (s_sort st))
  /\ heap w !! _must_search_set o = Some (CQueries (s_must_search_set st))
  /\ heap w !! _optional_search_set o = Some (CQueries (s_optional_search_set st))
  /\ (exists d, heap w !! _filters o = Some (CFilterDict d)
                /\ heap w !! d = Some (CDict (s_filters st)))
  /\ heap w !! _negative_boost_queries o
     = Some (CQueries (s_negative_boost_queries st))
  /\ heap w !! _aggs_fields o = Some (CAggs (s_aggs_fields st))
  /\ s_min_score st = _min_score o /\ s_from st = _from o
  /\ s_page_size st = _page_size o /\ s_is_none_set st = _is_none_set o
  /\ s_minimum_should_match st = minimum_should_match o
  /\ s_aggregations_use_sampler st = aggregations_use_sampler o
  /\ s_track_total_hits st = _track_total_hits o.
Proof.
  intros Hq. unfold snapshot, get_qs, get_sort, get_queries, get_aggs,
    FilterDict.filters, FilterDict.get_dict. munfold. rewrite Hq. cbn.
  repeat (match goal with
          | |- context [heap w !! ?l] =>
              let E := fresh "E" in
              destruct (heap w !! l) as [[]|] eqn:E; try discriminate; cbn
          end).
  intros [= <-]. cbn. repeat split; try done. eauto.
Qed.

Lemma copy_layout (w : world F) (q : loc) (o : QuerySetObj) (st : QState) :
  heap w !! q = Some (CQuerySet o) -> snapshot q w = (w, OK st) ->
  copy q w = (after_copy w o st, OK (length (heap w) + 7)).
Proof.
  intros Hq Hs.
  destruct (snapshot_parts w q o st Hq Hs)
    as (Hsort & Hmust & Hopt & (d & Hfl & Hd) & Hb & Ha & _).
  unfold copy, init, list_copy, get_qs, FilterDict.copy, FilterDict.init,
    FilterDict.filters, FilterDict.get_dict, after_copy, with_copy, copy_cells, copied.
  munfold. cbn. rewrite Hq. cbn. repeat store_step.
  destruct (s_filters st) as [|e kv] eqn:Ekv; cbn; repeat store_step; reflexivity.
Qed.

Lemma snapshot_from_parts (w : world F) (q : loc) (o : QuerySetObj)
    (sort : list json) (must optional boost : list (Query F)) (d : loc)
    (kv : list (string * (polarity * F))) (aggs : list TermsAggregation) :
  heap w !! q = Some (CQuerySet o) ->
  heap w !! _sort o = Some (CSortList sort) ->
  heap w !! _must_search_set o = Some (CQueries must) ->
  heap w !! _optional_search_set o = Some (CQueries optional) ->
  heap w !! _filters o = Some (CFilterDict d) ->
  heap w !! d = Some (CDict kv) ->
  heap w !! _negative_boost_queries o = Some (CQueries boost) ->
  heap w !! _aggs_fields o = Some (CAggs aggs) ->
  snapshot q w
  = (w, OK {| s_min_score := _min_score o;
              s_from := _from o;
              s_page_size := _page_size o;
              s_sort := sort;
              s_must_search_set := must;
              s_optional_search_set := optional;
              s_filters := kv;
              s_negative_boost_queries := boost;
              s_aggs_fields := aggs;
              s_is_none_set := _is_none_set o;
              s_minimum_should_match := minimum_should_match o;
              s_aggregations_use_sampler := aggregations_use_sampler o;
              s_track_total_hits := _track_total_hits o |}).
Proof.
  intros Hq Hs Hm Hp Hf Hd Hb Ha.
  unfold snapshot, get_qs, get_sort, get_queries, get_aggs, FilterDict.filters,
    FilterDict.get_dict. munfold.
  rewrite Hq; cbn. rewrite Hs; cbn. rewrite Hm; cbn. rewrite Hp; cbn.
  rewrite Hf; cbn. rewrite Hd; cbn. rewrite Hb; cbn. by rewrite Ha.
Qed.

Lemma clone_layout {A} (function : loc -> M F A) (w : world F) (q : loc)
    (o : QuerySetObj) (st : QState) :
  heap w !! q = Some (CQuerySet o) -> snapshot q w = (w, OK st) ->
  clone function q w = function (length (heap w) + 7) (after_copy w o st).
Proof.
  intros Hq Hs. unfold clone. munfold. by rewrite (copy_layout _ _ _ _ Hq Hs).
Qed.

(** The instance of a copy, whatever its scalar attributes have become,
    holds the lists and filters that were copied. *)
Lemma snapshot_with_copy (w : world F) (o o2 : QuerySetObj) (st : QState) :
  same_parts (copied (length (heap w)) o (s_filters st)) o2 ->
  snapshot (length (heap w) + 7) (with_copy w o2 st)
  = (with_copy w o2 st, OK (state_with o2 st)).
Proof.
  intros (Hs & Hm & Hp & Hf & Hb & Ha). simpl in *.
  unfold state_with, with_copy, copy_cells.
  destruct (s_filters st) as [|e kv] eqn:Ekv.
  - apply (snapshot_from_parts _ _ o2 _ _ _ _ (length (heap w) + 12) []);
      rewrite ?Hs, ?Hm, ?Hp, ?Hf, ?Hb, ?Ha; cbn; by rewrite lookup_app_add.
  - apply (snapshot_from_parts _ _ o2 _ _ _ _ (length (heap w) + 11) (e :: kv));
      rewrite ?Hs, ?Hm, ?Hp, ?Hf, ?Hb, ?Ha; cbn; by rewrite lookup_app_add.
Qed.

Lemma modify_with_copy (w : world F) (o2 : QuerySetObj) (st : QState)
    (f : QuerySetObj -> QuerySetObj) :
  (modify (length (heap w) + 7) f;; mret (length (heap w) + 7)) (with_copy w o2 st)
  = (with_copy w (f o2) st, OK (length (heap w) + 7)).
Proof.
  unfold modify, get_qs, with_copy, copy_cells. munfold. cbn.
  rewrite lookup_app_add. cbn. by rewrite insert_app_r.
Qed.

Lemma instance_state (w : world F) (q : loc) :
  is_instance w q ->
  exists o st, heap w !! q = Some (CQuerySet o) /\ snapshot q w = (w, OK st).
Proof.
  intros Hi. destruct (snapshot_of_instance _ _ _ Hi) as (st & Hs).
  destruct Hi as (_ & o & Hq & _). eauto.
Qed.

Lemma same_parts_refl (o : QuerySetObj) : same_parts o o.
Proof. by repeat split. Qed.

(** X4: [paginate(page, page_size)] and [slice((page - 1) * page_size,
    page * page_size)] are the same call: on any instance and for any valid
    page they return the same new instance in the same store, whose window
    starts at [(page - 1) * page_size] and has [page_size] rows, everything
    else being as in the original. *)
Theorem paginate_is_a_slice (w : world F) (q : loc) (page page_size : Z) :
  is_instance w q -> (0 < page)%Z -> (0 < page_size)%Z ->
  exists w' q' st,
    snapshot q w = (w, OK st)
    /\ paginate (Some page) (Some page_size) q w = (w', OK q')
    /\ slice (Some ((page - 1) * page_size)%Z) (Some (page * page_size)%Z) q w
       = (w', OK q')
    /\ snapshot q' w'
       = (w', OK (with_window ((page - 1) * page_size)%Z page_size st)).
Proof.
  intros Hi Hp Hs. destruct (instance_state w q Hi) as (o & st & Hq & Hst).
  destruct (snapshot_parts w q o st Hq Hst)
    as (_ & _ & _ & _ & _ & _ & E1 & E2 & E3 & E4 & E5 & E6 & E7).
  set (n := length (heap w)).
  exists (with_copy w (set_page ((page - 1) * page_size)%Z page_size
                         (copied n o (s_filters st))) st), (n + 7), st.
  split; [done|]. split; [|split].
  - unfold paginate. rewrite (clone_layout _ _ _ _ _ Hq Hst). unfold after_copy.
    cbn -[modify]. munfold.
    replace (page <=? 0)%Z with false by lia.
    replace (page_size <=? 0)%Z with false by lia.
    apply modify_with_copy.
  - unfold slice. rewrite (clone_layout _ _ _ _ _ Hq Hst). unfold after_copy.
    cbn -[modify Z.mul Z.sub]. munfold.
    replace (0 >? (page - 1) * page_size)%Z with false by nia.
    replace ((page - 1) * page_size >? page * page_size)%Z with false by nia.
    replace (page * page_size - (page - 1) * page_size)%Z with page_size by lia.
    replace (1 >? page_size)%Z with false by lia.
    apply modify_with_copy.
  - subst n. rewrite (snapshot_with_copy w o) by (by repeat split).
    unfold state_with, with_window. cbn. by rewrite E1, E4, E5, E6, E7.
Qed.

Lemma state_with_copied (w : world F) (q : loc) (o : QuerySetObj) (st : QState) :
  heap w !! q = Some (CQuerySet o) -> snapshot q w = (w, OK st) ->
  state_with (copied (length (heap w)) o (s_filters st)) st = st.
Proof.
  intros Hq Hst.
  destruct (snapshot_parts w q o st Hq Hst)
    as (_ & _ & _ & _ & _ & _ & E1 & E2 & E3 & E4 & E5 & E6 & E7).
  unfold state_with. cbn. rewrite <- E1, <- E2, <- E3, <- E4, <- E5, <- E6, <- E7.
  by destruct st.
Qed.

Lemma append_query_run (w : world F) (l : loc) (qs : list (Query F)) (x : Query F) :
  heap w !! l = Some (CQueries qs) ->
  append_query l x w
  = ({| heap := <[l:=CQueries (qs ++ [x])]> (heap w);
        trace := trace w; DEBUG := DEBUG w |}, OK tt).
Proof. intros Hl. unfold append_query, get_queries. munfold. by rewrite Hl. Qed.

(** A loop of [append] on one list adds the elements in order. *)
Lemma append_all {A} (g : A -> Query F) (xs : list A) (w : world F) (l : loc)
    (qs : list (Query F)) :
  heap w !! l = Some (CQueries qs) ->
  for_ xs (fun x => append_query l (g x)) w
  = ({| heap := <[l:=CQueries (qs ++ map g xs)]> (heap w);
        trace := trace w; DEBUG := DEBUG w |}, OK tt).
Proof.
  revert w qs. induction xs as [|x xs IH]; intros w qs Hl; simpl.
  - rewrite app_nil_r, list_insert_id by done. by destruct w.
  - unfold mbind, M_bind, bind. rewrite (append_query_run _ _ _ _ Hl).
    rewrite (IH _ (qs ++ [g x])); cbn.
    + by rewrite list_insert_insert_eq, <- app_assoc.
    + apply list_lookup_insert_eq. by eapply lookup_lt_Some.
Qed.

Lemma sorted_by_run (w : world F) (q : loc) (o : QuerySetObj) (st : QState)
    (orderings : list string) (result : list json) :
  heap w !! q = Some (CQuerySet o) -> snapshot q w = (w, OK st) ->
  orderings_to_sort orderings = OK result ->
  exists w' q',
    sorted_by orderings q w = (w', OK q')
    /\ snapshot q' w' = (w', OK (with_sort result st)).
Proof.
  intros Hq Hst Hr.
  destruct (snapshot_parts w q o st Hq Hst)
    as (_ & _ & _ & _ & _ & _ & E1 & E2 & E3 & E4 & E5 & E6 & E7).
  unfold sorted_by. rewrite (clone_layout _ _ _ _ _ Hq Hst).
  unfold after_copy, with_copy, copy_cells, modify, get_qs. munfold. rewrite Hr.
  destruct (s_filters st) as [|e kv] eqn:Ekv; cbn;
    rewrite <- !app_assoc; cbn [app]; rewrite lookup_app_add; cbn;
    rewrite insert_app_r; cbn; rewrite !length_app; cbn [length];
    (eexists _, _; split; [reflexivity|]).
  - erewrite snapshot_from_parts with (d := length (heap w) + 12);
      [ | cbn; rewrite lookup_app_add; reflexivity .. ].
    unfold with_sort. cbn. by rewrite E1, E2, E3, E4, E5, E6, E7, Ekv.
  - erewrite snapshot_from_parts with (d := length (heap w) + 11);
      [ | cbn; rewrite lookup_app_add; reflexivity .. ].
    unfold with_sort. cbn. by rewrite E1, E2, E3, E4, E5, E6, E7, Ekv.
Qed.

Lemma suppress_run (w : world F) (q : loc) (o : QuerySetObj) (st : QState)
    (args : list (F + json)) (kwargs : list (string * json)) (fs : list F) :
  heap w !! q = Some (CQuerySet o) -> snapshot q w = (w, OK st) ->
  _make_filter_list args kwargs = OK fs ->
  exists w' q',
    suppress args kwargs q w = (w', OK q')
    /\ snapshot q' w' = (w', OK (with_suppressed (map FilterQ fs) st))
    /\ trace w' = trace w.
Proof.
  intros Hq Hst Hfs.
  destruct (snapshot_parts w q o st Hq Hst)
    as (_ & _ & _ & _ & _ & _ & E1 & E2 & E3 & E4 & E5 & E6 & E7).
  unfold suppress. rewrite (clone_layout _ _ _ _ _ Hq Hst).
  unfold after_copy, with_copy, copy_cells, get_qs. munfold. rewrite Hfs.
  destruct (s_filters st) as [|e kv] eqn:Ekv; cbn -[for_];
    rewrite lookup_app_add; cbn -[for_].
  - rewrite (append_all FilterQ fs _ _ (s_negative_boost_queries st))
      by (cbn; rewrite lookup_app_add; reflexivity).
    cbn. rewrite insert_app_r. cbn.
    eexists _, _. split; [reflexivity|]. split; [|done].
    erewrite snapshot_from_parts with (d := length (heap w) + 12);
      [ | cbn; rewrite lookup_app_add; reflexivity .. ].
    unfold with_suppressed. cbn. by rewrite E1, E2, E3, E4, E5, E6, E7, Ekv.
  - rewrite (append_all FilterQ fs _ _ (s_negative_boost_queries st))
      by (cbn; rewrite lookup_app_add; reflexivity).
    cbn. rewrite insert_app_r. cbn.
    eexists _, _. split; [reflexivity|]. split; [|done].
    erewrite snapshot_from_parts with (d := length (heap w) + 11);
      [ | cbn; rewrite lookup_app_add; reflexivity .. ].
    unfold with_suppressed. cbn. by rewrite E1, E2, E3, E4, E5, E6, E7, Ekv.
Qed.

Lemma aggregation_run (w : world F) (q : loc) (o : QuerySetObj) (st : QState)
    (term : string) (size min_doc_count order exclude include : json)
    (with_top_hits : option TopHits) (kwargs : list (string * json))
    (facet : TermsAggregation) :
  heap w !! q = Some (CQuerySet o) -> snapshot q w = (w, OK st) ->
  TermsAggregation_init term (Some term) size order include exclude min_doc_count
    with_top_hits (dict_del kwargs "name") = OK facet ->
  exists w' q',
    aggregation (JStr term) size min_doc_count order exclude include with_top_hits
      kwargs q w = (w', OK q')
    /\ snapshot q' w' = (w', OK (with_aggregation facet st))
    /\ trace w' = trace w.
Proof.
  intros Hq Hst Hfacet.
  destruct (snapshot_parts w q o st Hq Hst)
    as (_ & _ & _ & _ & _ & _ & E1 & E2 & E3 & E4 & E5 & E6 & E7).
  unfold aggregation. rewrite (clone_layout _ _ _ _ _ Hq Hst).
  unfold after_copy, with_copy, copy_cells, get_qs, append_agg, get_aggs. munfold.
  rewrite Hfacet.
  destruct (s_filters st) as [|e kv] eqn:Ekv; cbn;
    rewrite lookup_app_add; cbn; rewrite lookup_app_add; cbn;
    rewrite insert_app_r; cbn;
    (eexists _, _; split; [reflexivity|]; split; [|done]).
  - erewrite snapshot_from_parts with (d := length (heap w) + 12);
      [ | cbn; rewrite lookup_app_add; reflexivity .. ].
    unfold with_aggregation. cbn. by rewrite E1, E2, E3, E4, E5, E6, E7, Ekv.
  - erewrite snapshot_from_parts with (d := length (heap w) + 11);
      [ | cbn; rewrite lookup_app_add; reflexivity .. ].
    unfold with_aggregation. cbn. by rewrite E1, E2, E3, E4, E5, E6, E7, Ekv.
Qed.

(** The instance a chainable call returns holds no result set. *)
Lemma call_result_uncached (w : world F) (q : loc) (c : call F) (q' : loc) :
  is_instance w q -> (apply_call c q w).2 = OK q' ->
  exists o', heap (apply_call c q w).1 !! q' = Some (CQuerySet o')
             /\ _result_set o' = None.
Proof.
  intros (_ & o & Hq & Hf) Hret.
  destruct (call_body c) as (body & Hc & Hbody). rewrite Hc in *.
  destruct (clone_run body w q o Hq Hf)
    as (w1 & q1 & o1 & Ho & _ & _ & _ & Hr1 & Hrun).
  rewrite Hrun in *.
  destruct (Hbody _ _ _ _ w1 Ho) as [(o2 & (_ & _ & Hq2 & _) & _ & Hk) Hr].
  destruct Hr as [Hr | (_ & e & Hr)]; rewrite Hr in Hret; [|done].
  injection Hret as <-. exists o2. split; [done|]. by rewrite Hk.
Qed.

(** An instance that has not executed and whose state does not compile
    raises on [execute] and on [count], and nothing is sent. *)
Lemma uncompilable_instance (w : world F) (q : loc) (o : QuerySetObj) (st : QState)
    (e : exn) (indexes : json) (query_params : list (string * json)) :
  heap w !! q = Some (CQuerySet o) -> _result_set o = None ->
  snapshot q w = (w, OK st) -> s_is_none_set st = false -> to_dict st = Raise e ->
  execute indexes query_params q w = (w, Raise e)
  /\ count indexes q w = (w, Raise e).
Proof.
  intros Hq Hr Hst Hn He.
  assert (Hn' : _is_none_set o = false)
    by (rewrite <- Hn; symmetry; by eapply snapshot_is_none_set).
  split.
  - unfold execute, to_dict_of, get_qs. munfold. rewrite Hq. cbn -[snapshot].
    rewrite Hr, Hn'. cbn -[snapshot]. rewrite Hst. cbn. by rewrite He.
  - unfold count, to_dict_of, get_qs. munfold. rewrite Hq. cbn -[snapshot].
    rewrite Hr, Hn'. cbn -[snapshot]. rewrite Hst. cbn. by rewrite He.
Qed.

(** X3: [sorted_by] replaces the sort of the query set, it does not add to
    it: whatever sort the original has, the returned instance sorts by the
    entries of the given orderings alone, and is otherwise as the original. *)
Theorem sorted_by_replaces_the_sort (w : world F) (q : loc) (orderings : list string) :
  is_instance w q ->
  forallb (fun o => negb (refused o)) orderings = true ->
  exists w' q' st,
    snapshot q w = (w, OK st)
    /\ sorted_by orderings q w = (w', OK q')
    /\ snapshot q' w' = (w', OK (with_sort (map sort_entry orderings) st)).
Proof.
  intros Hi Hok. destruct (instance_state w q Hi) as (o & st & Hq & Hst).
  destruct (sorted_by_run w q o st orderings _ Hq Hst
              (SortProofs.orderings_accepted _ Hok)) as (w' & q' & Hrun & Hsnap).
  exists w', q', st. done.
Qed.

Lemma suppressed_to_dict (st : QState) :
  s_negative_boost_queries st <> [] -> s_is_none_set st = false ->
  to_dict st = Raise (TypeError "object is not iterable").
Proof.
  intros Hnb Hn. unfold to_dict, _serialized_query. rewrite Hn.
  destruct (SuppressProofs.selected_query_built st) as (res & ->).
  destruct (s_negative_boost_queries st); [done|]. reflexivity.
Qed.

(** X6: [suppress] with at least one filter returns an instance that cannot
    be used: unless the query set is a none-set, [execute] and [count] on the
    returned instance raise [TypeError] while the request body is compiled,
    so that no request is sent. *)
Theorem suppress_returns_unusable_instance (w : world F) (q : loc)
    (args : list (F + json)) (kwargs : list (string * json)) (f : F) (fs : list F) :
  is_instance w q ->
  _make_filter_list args kwargs = OK (f :: fs) ->
  exists w' q' st,
    snapshot q w = (w, OK st)
    /\ suppress args kwargs q w = (w', OK q')
    /\ trace w' = trace w
    /\ (s_is_none_set st = false ->
        forall indexes query_params,
          execute indexes query_params q' w'
          = (w', Raise (TypeError "object is not iterable"))
          /\ count indexes q' w' = (w', Raise (TypeError "object is not iterable"))).
Proof.
  intros Hi Hfs. destruct (instance_state w q Hi) as (o & st & Hq & Hst).
  destruct (suppress_run w q o st args kwargs _ Hq Hst Hfs)
    as (w' & q' & Hrun & Hsnap & Htr).
  exists w', q', st. split; [done|]. split; [done|]. split; [done|].
  intros Hn indexes query_params.
  destruct (call_result_uncached w q (call_suppress args kwargs) q' Hi)
    as (o' & Hq' & Hr'); [simpl; by rewrite Hrun|].
  simpl in Hq'. rewrite Hrun in Hq'. simpl in Hq'.
  eapply uncompilable_instance; eauto.
  apply suppressed_to_dict; [|done]. simpl. by destruct (s_negative_boost_queries st).
Qed.

Lemma TermsAggregation_to_dict_error (a : TermsAggregation) (e : exn) :
  TermsAggregation_to_dict a = Raise e -> e = RuntimeError "Invalid order value".
Proof. unfold TermsAggregation_to_dict. case_match; [|done]. by intros [= <-]. Qed.

Lemma aggregations_with_invalid_last (l : list TermsAggregation)
    (a : TermsAggregation) (acc : list (string * json)) :
  raises (TermsAggregation_to_dict a) = true ->
  _serialized_aggregations_from (l ++ [a]) acc
  = Raise (RuntimeError "Invalid order value").
Proof.
  intros Ha. revert acc. induction l as [|b l IH]; intros acc; simpl.
  - destruct (TermsAggregation_to_dict a) as [|e] eqn:E; [done|].
    by rewrite (TermsAggregation_to_dict_error _ _ E).
  - destruct (TermsAggregation_to_dict b) as [|e] eqn:E; simpl; [apply IH|].
    by rewrite (TermsAggregation_to_dict_error _ _ E).
Qed.

(** X8: an invalid [order] is not refused when the aggregation is added:
    [aggregation] returns a new instance, and it is compiling that instance,
    hence [to_dict], [execute] and [count] on it, that raises [RuntimeError],
    before any request is sent. *)
Theorem invalid_aggregation_order_fails_late (w : world F) (q : loc)
    (term : string) (size min_doc_count order exclude include : json)
    (with_top_hits : option TopHits) (kwargs : list (string * json)) :
  is_instance w q ->
  forallb (fun kv => String.eqb (fst kv) "regex" || String.eqb (fst kv) "regex_flags"
                     || String.eqb (fst kv) "script") (dict_del kwargs "name") = true ->
  truthy order = true -> valid_order order = false ->
  exists w' q' st,
    snapshot q w = (w, OK st)
    /\ aggregation (JStr term) size min_doc_count order exclude include with_top_hits
         kwargs q w = (w', OK q')
    /\ trace w' = trace w
    /\ (s_is_none_set st = false -> raises (_serialized_query st) = false ->
        to_dict_of q' w' = (w', Raise (RuntimeError "Invalid order value"))
        /\ forall indexes query_params,
             execute indexes query_params q' w'
             = (w', Raise (RuntimeError "Invalid order value"))
             /\ count indexes q' w' = (w', Raise (RuntimeError "Invalid order value"))).
Proof.
  intros Hi Hkw Ht Hv. destruct (instance_state w q Hi) as (o & st & Hq & Hst).
  assert (Hfacet : exists facet,
            TermsAggregation_init term (Some term) size order include exclude
              min_doc_count with_top_hits (dict_del kwargs "name") = OK facet
            /\ raises (TermsAggregation_to_dict facet) = true).
  { unfold TermsAggregation_init. rewrite Hkw. eexists. split; [reflexivity|].
    unfold TermsAggregation_to_dict. cbn [ta_order]. by rewrite Ht, Hv. }
  destruct Hfacet as (facet & Hfacet & Hbad).
  destruct (aggregation_run w q o st term size min_doc_count order exclude include
              with_top_hits kwargs facet Hq Hst Hfacet) as (w' & q' & Hrun & Hsnap & Htr).
  exists w', q', st. split; [done|]. split; [done|]. split; [done|].
  intros Hn Hquery.
  assert (Hto : to_dict (with_aggregation facet st)
                = Raise (RuntimeError "Invalid order value")).
  { unfold to_dict. cbn. rewrite Hn.
    replace (_serialized_query (with_aggregation facet st)) with (_serialized_query st)
      by reflexivity.
    destruct (_serialized_query st) as [query|]; [|done]. cbn.
    replace (nonempty (s_aggs_fields st ++ [facet])) with true
      by (by destruct (s_aggs_fields st)).
    unfold _serialized_aggregations. cbn.
    by rewrite (aggregations_with_invalid_last _ _ _ Hbad). }
  split.
  - unfold to_dict_of. munfold. rewrite Hsnap. cbn. by rewrite Hto.
  - intros indexes query_params.
    destruct (call_result_uncached w q
                (call_aggregation (JStr term) size min_doc_count order exclude include
                   with_top_hits kwargs) q' Hi) as (o' & Hq' & Hr');
      [simpl; by rewrite Hrun|].
    simpl in Hq'. rewrite Hrun in Hq'. simpl in Hq'.
    eapply uncompilable_instance; eauto.
Qed.

(** X9: the instance a chainable method returns never holds a result set,
    also when the instance it was called on has executed: the cached result
    is not carried over to a clone. *)
Theorem chainable_call_returns_unexecuted_instance (w : world F) (q : loc)
    (c : call F) (q' : loc) :
  is_instance w q -> (apply_call c q w).2 = OK q' ->
  exists o', heap (apply_call c q w).1 !! q' = Some (CQuerySet o')
             /\ _result_set o' = None.
Proof. apply call_result_uncached. Qed.

End ChainProofs.
End ChainProofs.

(** ** Requests and their failures *)

Module ExecuteProofs.
Import SuspendersQuerySet StoreSpec StoreProofs ExecuteSpec.
Local Open Scope nat_scope.
Section ExecuteProofs.
Context {F : Type} `{IsFilter F}.

Lemma set_result_set_same (o : QuerySetObj) :
  _result_set o = None -> set_result_set None o = o.
Proof. destruct o. simpl. by intros ->. Qed.

(** [execute] on an instance that holds no result set and is not a
    none-set, by the answer of the client. *)
Lemma execute_sends (w : world F) (q : loc) (o : QuerySetObj) (st : QState)
    (body indexes : json) (query_params : list (string * json)) :
  heap w !! q = Some (CQuerySet o) ->
  _result_set o = None -> _is_none_set o = false ->
  snapshot q w = (w, OK st) -> to_dict st = OK body ->
  execute indexes query_params q w
  = match es_search (conn o) (trace w) body indexes query_params with
    | Response raw =>
        match ResultSet_init raw with
        | OK rs =>
            ({| heap := <[q:=CQuerySet (set_result_set (Some (length (heap w))) o)]>
                          (heap w ++ [CResultSet rs]);
                trace := trace w ++ [Search body indexes query_params];
                DEBUG := DEBUG w |}, OK (Some (length (heap w))))
        | Raise e => (sent (Search body indexes query_params) w, Raise e)
        end
    | IOError msg =>
        (sent (Search body indexes query_params) w,
         Raise (NoServerAvailable (JStr msg) (JInt 500) body))
    | TransportError info status =>
        match raise_on_transport_error info status body with
        | OK _ => (sent (Search body indexes query_params) w, OK None)
        | Raise e => (sent (Search body indexes query_params) w, Raise e)
        end
    | Failure e => (sent (Search body indexes query_params) w, Raise e)
    end.
Proof.
  intros Hq Hr Hn Hs Hb.
  unfold execute, to_dict_of, raw_search, _execute_callback, modify, get_qs, sent.
  munfold. rewrite Hq. cbn -[snapshot]. rewrite Hr, Hn. cbn -[snapshot].
  rewrite Hs. cbn. rewrite Hb. cbn.
  destruct (es_search _ _ _ _ _) as [raw|msg|info status|e]; cbn; try done.
  - destruct (ResultSet_init raw) as [rs|e]; cbn; [|done].
    by rewrite (lookup_app_l_Some _ _ _ _ Hq).
  - destruct (raise_on_transport_error _ _ _) as [[]|e]; cbn; [|done].
    rewrite Hq. cbn. by rewrite (set_result_set_same _ Hr), list_insert_id.
Qed.

Lemma snapshot_sent (w : world F) (q : loc) (st : QState) (e : event) :
  snapshot q w = (w, OK st) -> snapshot q (sent e w) = (sent e w, OK st).
Proof. intros Hs. apply (snapshot_extends _ _ _ _ Hs). by intros l c. Qed.

(** X12: a search that fails in the transport, with an [IOError] or an HTTP
    error of the connection pool, makes [execute] raise [NoServerAvailable]
    with status 500 and the request body; the instance keeps no result, so
    that a further [execute] sends the search again. *)
Theorem failed_search_is_not_cached (w : world F) (q : loc) (o : QuerySetObj)
    (st : QState) (body indexes : json) (query_params : list (string * json))
    (msg : string) :
  heap w !! q = Some (CQuerySet o) ->
  _result_set o = None -> _is_none_set o = false ->
  snapshot q w = (w, OK st) -> to_dict st = OK body ->
  es_search (conn o) (trace w) body indexes query_params = IOError msg ->
  let w1 := sent (Search body indexes query_params) w in
  execute indexes query_params q w
  = (w1, Raise (NoServerAvailable (JStr msg) (JInt 500) body))
  /\ trace (execute indexes query_params q w1).1
     = trace w ++ [Search body indexes query_params; Search body indexes query_params].
Proof.
  intros Hq Hr Hn Hs Hb He w1. split.
  - by rewrite (execute_sends _ _ _ _ _ _ _ Hq Hr Hn Hs Hb), He.
  - rewrite (execute_sends w1 q o st body indexes query_params Hq Hr Hn
               (snapshot_sent _ _ _ _ Hs) Hb).
    destruct (es_search (conn o) (trace w1) body indexes query_params)
      as [raw|m|info status|e]; cbn.
    + destruct (ResultSet_init raw); cbn; by rewrite <- app_assoc.
    + by rewrite <- app_assoc.
    + destruct (raise_on_transport_error _ _ _); cbn; by rewrite <- app_assoc.
    + by rewrite <- app_assoc.
Qed.

(** X13: a transport error whose payload names no root cause (an empty
    [root_cause] list) is swallowed: no exception leaves [execute], which
    returns [None] where a result set is expected and keeps nothing. *)
Theorem error_without_root_cause_is_swallowed (w : world F) (q : loc)
    (o : QuerySetObj) (st : QState) (body indexes : json)
    (query_params : list (string * json)) (info err : list (string * json))
    (status : json) :
  heap w !! q = Some (CQuerySet o) ->
  _result_set o = None -> _is_none_set o = false ->
  snapshot q w = (w, OK st) -> to_dict st = OK body ->
  es_search (conn o) (trace w) body indexes query_params
  = TransportError (JDict info) status ->
  dict_get info "error" = Some (JDict err) ->
  dict_get err "root_cause" = Some (JList []) ->
  execute indexes query_params q w
  = (sent (Search body indexes query_params) w, OK None).
Proof.
  intros Hq Hr Hn Hs Hb He Herr Hroot.
  rewrite (execute_sends _ _ _ _ _ _ _ Hq Hr Hn Hs Hb), He.
  unfold raise_on_transport_error. cbn. unfold dict_has. rewrite Herr. cbn.
  by rewrite Hroot.
Qed.

(** X14: the body of the count request holds the compiled query and, when
    the window does not start at 0, [from]; nothing else of the search body
    (size, sort, [min_score], aggregations) is sent.  The answer's [count]
    entry is returned, and nothing is kept. *)
Theorem count_sends_query_and_from_only (w : world F) (q : loc) (o : QuerySetObj)
    (st : QState) (body query indexes : json) (answer : list (string * json))
    (n : json) :
  heap w !! q = Some (CQuerySet o) ->
  _result_set o = None -> _is_none_set o = false ->
  snapshot q w = (w, OK st) -> to_dict st = OK body ->
  _serialized_query st = OK query ->
  es_count (conn o) (trace w) (count_body st query) indexes = Response (JDict answer) ->
  dict_get answer "count" = Some n ->
  count indexes q w = (sent (Count (count_body st query) indexes) w, OK n).
Proof.
  intros Hq Hr Hn Hs Hb Hquery He Hc.
  assert (Hsn : s_is_none_set st = false)
    by (rewrite <- Hn; by eapply snapshot_is_none_set).
  assert (Hbody : exists kv, body = JDict kv /\ dict_get kv "query" = Some query
            /\ dict_get kv "from"
               = if (s_from st =? 0)%Z then None else Some (JInt (s_from st))).
  { revert Hb. unfold to_dict. rewrite Hsn, Hquery. cbn.
    destruct (nonempty (s_aggs_fields st)).
    - destruct (_serialized_aggregations st); [|done]. cbn. intros [= <-].
      eexists. split; [reflexivity|]. split; [done|].
      destruct (s_min_score st), (s_from st =? 0)%Z; reflexivity.
    - intros [= <-]. eexists. split; [reflexivity|]. split; [done|].
      destruct (s_min_score st), (s_from st =? 0)%Z; reflexivity. }
  destruct Hbody as (kv & -> & Hkq & Hkf).
  unfold count, to_dict_of, raw_count, get_qs, sent, count_body.
  munfold. rewrite Hq. cbn -[snapshot]. rewrite Hr, Hn. cbn -[snapshot].
  rewrite Hs. cbn. rewrite Hb. cbn. rewrite Hkq. cbn. unfold dict_has. rewrite Hkf.
  unfold count_body in He.
  destruct (s_from st =? 0)%Z; cbn in *; rewrite He; cbn; by rewrite Hc.
Qed.

End ExecuteProofs.
End ExecuteProofs.

(** ** Composition of [filter] and [exclude] *)

Module FilterChainProofs.
Import SuspendersQuerySet StoreSpec StoreProofs ChainSpec ChainProofs FilterChainSpec.
Local Open Scope nat_scope.
Section FilterChainProofs.
Context {F : Type} `{IsFilter F}.













End FilterChainProofs.
End FilterChainProofs.

(** ** Cleaning hits *)

Module DocumentProofs.
Import documents DocumentSpec DictProofs JsonInduction.

Lemma dict_has_app {V} (d e : list (string * V)) (k : string) :
  dict_has (d ++ e) k = dict_has d k || dict_has e k.
Proof.
  unfold dict_has. induction d as [|[a x] d IH]; simpl; [done|].
  by destruct (String.eqb a k).
Qed.

Lemma dict_set_new {V} (d : list (string * V)) (k : string) (v : V) :
  dict_has d k = false -> dict_set d k v = d ++ [(k, v)].
Proof.
  unfold dict_has. intros Hk. apply StoreProofs.dict_set_absent.
  by destruct (dict_get d k).
Qed.

(** X18: cleaning does not change a value whose dictionaries have pairwise
    different keys: [_clean_doc_value] returns an equal value (a rebuilt copy
    of the dictionaries, the same object otherwise). *)
Theorem clean_doc_value_preserves (value : json) :
  unique_keys value = true -> _clean_doc_value value = value.
Proof.
  induction value as [| | | | |l IH|kv IH] using json_induction; try done.
  intros Hu. simpl. f_equal.
  assert (Hgo : forall ret,
            (forall k, dict_has ret k = true -> dict_has kv k = false) ->
            (fix go (kv0 ret0 : list (string * json)) : list (string * json) :=
               match kv0 with
               | [] => ret0
               | (k, v) :: r => go r (dict_set ret0 k (_clean_doc_value v))
               end) kv ret = ret ++ kv).
  { clear -IH Hu. induction kv as [|[k x] r IHr]; intros ret Hret.
    - by rewrite app_nil_r.
    - simpl in Hu. apply andb_true_iff in Hu as [Hu Hr].
      apply andb_true_iff in Hu as [Hk Hx]. apply negb_true_iff in Hk.
      inversion IH as [|? ? IHx IHr']; subst. simpl in IHx.
      rewrite (IHx Hx).
      assert (Hnew : dict_has ret k = false).
      { destruct (dict_has ret k) eqn:E; [|done]. apply Hret in E.
        unfold dict_has in E. simpl in E. by rewrite String.eqb_refl in E. }
      rewrite (dict_set_new _ _ _ Hnew). rewrite (IHr IHr' Hr).
      + by rewrite <- app_assoc.
      + intros k' Hk'. rewrite dict_has_app in Hk'. apply orb_true_iff in Hk' as [Hk'|Hk'].
        * apply Hret in Hk'. unfold dict_has in *. simpl in Hk'.
          destruct (String.eqb k k'); [done|]. done.
        * unfold dict_has in Hk'. simpl in Hk'.
          destruct (String.eqb k k') eqn:E; [|done].
          apply String.eqb_eq in E as <-. done. }
  apply (Hgo []). done.
Qed.

Lemma clean_doc_value_preserves_witness :
  unique_keys (JDict [("user", JDict [("name", JStr "kimchy"); ("tags", JList [])])])
  = true
  /\ _clean_doc_value (JDict [("user", JDict [("name", JStr "kimchy");
                                              ("tags", JList [])])])
     = JDict [("user", JDict [("name", JStr "kimchy"); ("tags", JList [])])].
Proof.
  split; [reflexivity|].
  apply (clean_doc_value_preserves
           (JDict [("user", JDict [("name", JStr "kimchy"); ("tags", JList [])])])).
  reflexivity.
Defined.


(** X19: the [id] and the [_score] of a cleaned document are those of the
    hit itself: [id] is the hit's [id], or else its [_id], or else [None],
    and [_score] is the hit's [_score], whatever the stored fields of these
    names hold; a hit without [_score] cannot be cleaned. *)
Theorem clean_doc_takes_id_and_score_from_hit (doc : list (string * json)) :
  (dict_get doc "_score" = None -> raises (_clean_doc (JDict doc)) = true)
  /\ (forall cleaned,
        _clean_doc (JDict doc) = OK cleaned ->
        exists kv,
          cleaned = JDict kv
          /\ dict_get kv "id"
             = Some (default (default JNull (dict_get doc "_id")) (dict_get doc "id"))
          /\ dict_get kv "_score" = dict_get doc "_score").
Proof.
  unfold _clean_doc. simpl.
  destruct (add_fields_of (JDict doc) "_source" []) as [c1|]; simpl; [|by split].
  destruct (add_fields_of (JDict doc) "fields" c1) as [c2|]; simpl; [|by split].
  destruct (dict_get doc "_score") as [score|]; simpl; [|by split].
  split; [done|]. intros cleaned [= <-]. eexists. split; [reflexivity|].
  rewrite !dict_get_set. done.
Qed.



Section Objects.
Variable type_from_fields : json -> res json.

Lemma clean_all_lookup (docs cs : list json) (k : nat) (d : json) :
  clean_all docs = OK cs -> docs !! k = Some d ->
  exists c, _clean_doc d = OK c /\ cs !! k = Some c.
Proof.
  revert cs k. induction docs as [|x docs IH]; intros cs k; simpl; [done|].
  destruct (_clean_doc x) as [c|] eqn:Ec; simpl; [|done].
  destruct (clean_all docs) as [cs'|]; simpl; [|done].
  intros [= <-]. destruct k as [|k]; simpl.
  - intros [= <-]. eauto.
  - intros Hk. by apply IH.
Qed.

Lemma clean_all_length (docs cs : list json) :
  clean_all docs = OK cs -> length cs = length docs.
Proof.
  revert cs. induction docs as [|x docs IH]; intros cs; simpl; [by intros [= <-]|].
  destruct (_clean_doc x); simpl; [|done].
  destruct (clean_all docs) as [cs'|]; simpl; [|done].
  intros [= <-]. simpl. by rewrite (IH cs').
Qed.

Lemma build_all_length (cs objects : list json) :
  build_all type_from_fields cs = OK objects -> (length objects <= length cs)%nat.
Proof.
  revert objects. induction cs as [|c cs IH]; intros objects; simpl.
  - intros [= <-]. done.
  - destruct (type_from_fields c) as [o|]; simpl; [|done].
    destruct (build_all type_from_fields cs) as [os|]; simpl; [|done].
    specialize (IH os eq_refl). intros [= <-]. destruct (truthy o); simpl; lia.
Qed.

Lemma build_all_lookup (cs objects : list json) (k : nat) (c : json) :
  build_all type_from_fields cs = OK objects -> length objects = length cs ->
  cs !! k = Some c ->
  exists obj, type_from_fields c = OK obj /\ objects !! k = Some obj.
Proof.
  revert objects k. induction cs as [|x cs IH]; intros objects k; simpl; [done|].
  destruct (type_from_fields x) as [o|] eqn:Eo; simpl; [|done].
  destruct (build_all type_from_fields cs) as [os|] eqn:Eos; simpl; [|done].
  pose proof (build_all_length _ _ Eos) as Hle.
  intros [= <-]. destruct (truthy o); simpl; [|lia].
  intros [= Hlen]. destruct k as [|k]; simpl.
  - intros [= <-]. eauto.
  - intros Hk. by eapply IH.
Qed.

(** X21: indexing a result set with a negative number is refused with an
    assertion failure and leaves the result set as it is.  With an index
    [k] that is not negative, on a result set that holds no objects yet and
    none of whose objects is dropped when they are built, it returns the
    object built from the cleaned [k]-th hit. *)
Theorem getitem_returns_object_of_kth_hit (rs : ResultSet) :
  (forall i, i < 0 ->
     __getitem__ type_from_fields rs (Index i)
     = (rs, Raise (OtherException
                     "AssertionError: Negative indexing is not supported.")))
  /\ (forall docs rs' objects (k : nat) d,
        _objects rs = [] -> _object_dictionary rs = [] ->
        _documents rs = JList docs ->
        as_objects type_from_fields rs = (rs', OK objects) ->
        length objects = length docs ->
        docs !! k = Some d ->
        exists cleaned obj,
          _clean_doc d = OK cleaned /\ type_from_fields cleaned = OK obj
          /\ __getitem__ type_from_fields rs (Index (Z.of_nat k)) = (rs', OK (inl obj))).
Proof.
  split.
  - intros i Hi. unfold __getitem__. apply Z.ltb_lt in Hi. by rewrite Hi.
  - intros docs rs' objects k d Ho Hd Hdocs Has Hlen Hk.
    unfold __getitem__. destruct (Z.ltb_spec (Z.of_nat k) 0) as [Hneg|_]; [lia|].
    rewrite Has, Nat2Z.id.
    revert Has. unfold as_objects, as_dict. rewrite Ho, Hd, Hdocs. simpl.
    destruct (clean_all docs) as [cs|] eqn:Ecs; simpl; [|done].
    destruct (build_all type_from_fields cs) as [os|] eqn:Eos; simpl; [|done].
    intros [= <- <-].
    destruct (clean_all_lookup _ _ _ _ Ecs Hk) as (c & Hc & Hck).
    rewrite <- (clean_all_length _ _ Ecs) in Hlen.
    destruct (build_all_lookup _ _ _ _ Eos Hlen Hck) as (obj & Hobj & Hok).
    exists c, obj. by rewrite Hok.
Qed.

End Objects.

End DocumentProofs.

(** ** Reading results off a query set *)

Module ReadProofs.
Import SuspendersQuerySet StoreSpec StoreProofs reads ExecuteSpec ExecuteProofs.
Local Open Scope nat_scope.
Section ReadProofs.
Context {F : Type} `{IsFilter F}.
Variable type_from_fields : json -> res json.

Lemma first_of_empty (w w1 : world F) (q r : loc) (rs : ResultSet) :
  execute JNull [] q w = (w1, OK (Some r)) ->
  heap w1 !! r = Some (CResultSet rs) -> ResultSet_len rs = OK 0%Z ->
  first type_from_fields q w = (w1, OK None).
Proof.
  intros He Hr Hl. unfold first, get_result_set. munfold. rewrite He. cbn.
  rewrite Hr. cbn. by rewrite Hl.
Qed.

Lemma first_on_none_instance (w : world F) (q : loc) :
  none_instance w q ->
  (first type_from_fields q w).2 = OK None
  /\ trace (first type_from_fields q w).1 = trace w.
Proof.
  intros Hn.
  destruct (none_instance_runs w q JNull [] Hn) as ((rs & r & He & Hr & Hl & _ & Ht) & _).
  destruct (execute JNull [] q w) as [w1 x] eqn:E. simpl in *. subst x.
  by rewrite (first_of_empty _ _ _ _ _ E Hr Hl).
Qed.

(** X17: on a none-set, [first] returns [None] and sends nothing, and [get]
    never returns an object: it raises what its filter arguments make
    [filter] raise, or else [ObjectDoesNotExist]. *)
Theorem first_and_get_on_none_set (w : world F) (q : loc) :
  none_instance w q ->
  (first type_from_fields q w).2 = OK None
  /\ trace (first type_from_fields q w).1 = trace w
  /\ forall args kwargs,
       (get type_from_fields args kwargs q w).2
       = match (filter args kwargs q w).2 with
         | OK _ => Raise (OtherException "ObjectDoesNotExist")
         | Raise e => Raise e
         end.
Proof.
  intros Hn. destruct (first_on_none_instance w q Hn) as [Hf Ht].
  split; [done|]. split; [done|]. intros args kwargs.
  pose proof (chained_none_instance w q (call_filter args kwargs)) as Hc.
  simpl in Hc. unfold get. munfold.
  destruct (filter args kwargs q w) as [w1 [q1|e]] eqn:E; simpl in *; [|done].
  destruct (first_on_none_instance w1 q1 (Hc q1 Hn eq_refl)) as [Hf1 _].
  destruct (first type_from_fields q1 w1) as [w2 x]. simpl in Hf1. by subst x.
Qed.

(** X15: [result_set_from_dict] decodes the given response and keeps the
    result set on the instance, whatever the instance held: afterwards
    [execute] returns that result set and [count] its total, and neither
    sends a request. *)
Theorem result_set_from_dict_fills_the_cache (w : world F) (q : loc)
    (o : QuerySetObj) (a_dict : json) (rs : ResultSet) :
  heap w !! q = Some (CQuerySet o) -> ResultSet_init a_dict = OK rs ->
  let w' := (result_set_from_dict a_dict q w).1 in
  let r := length (heap w) in
  (result_set_from_dict a_dict q w).2 = OK (Some r)
  /\ heap w' !! r = Some (CResultSet rs)
  /\ trace w' = trace w
  /\ (forall indexes query_params,
        execute indexes query_params q w' = (w', OK (Some r)))
  /\ (forall indexes, count indexes q w' = (w', OK (total rs))).
Proof.
  intros Hq Hi w' r. subst w' r.
  unfold result_set_from_dict, _execute_callback, modify, get_qs. munfold.
  rewrite Hi. cbn. rewrite (lookup_app_l_Some _ _ _ _ Hq). cbn.
  pose proof (lookup_lt_Some _ _ _ Hq) as Hlt.
  assert (Hq1 : <[q:=CQuerySet (set_result_set (Some (length (heap w))) o)]>
                  (heap w ++ [CResultSet rs]) !! q
                = Some (CQuerySet (set_result_set (Some (length (heap w))) o))).
  { apply list_lookup_insert_eq. rewrite length_app. simpl. lia. }
  assert (Hr1 : <[q:=CQuerySet (set_result_set (Some (length (heap w))) o)]>
                  (heap w ++ [CResultSet rs]) !! length (heap w)
                = Some (CResultSet rs)).
  { rewrite list_lookup_insert_ne by lia. apply lookup_app_last. }
  split; [done|]. split; [done|]. split; [done|]. split.
  - intros indexes query_params. by eapply execute_cached.
  - intros indexes. by eapply count_cached.
Qed.

Lemma as_objects_again (rs rs' : ResultSet) (obj : json) (objects : list json) :
  documents.as_objects type_from_fields rs = (rs', OK (obj :: objects)) ->
  documents.as_objects type_from_fields rs' = (rs', OK (obj :: objects))
  /\ _documents rs' = _documents rs.
Proof.
  unfold documents.as_objects, documents.as_dict.
  destruct (_objects rs) as [|x l] eqn:Eo.
  - destruct (_object_dictionary rs) as [|y k] eqn:Ed.
    + destruct (iterate (_documents rs) ≫= documents.clean_all) as [cs|]; [|done].
      destruct (documents.build_all type_from_fields cs) as [os|]; [|done].
      intros [= <- ->]. simpl. done.
    + destruct (documents.build_all type_from_fields (y :: k)) as [os|]; [|done].
      intros [= <- ->]. simpl. done.
  - intros [= <- <- <-]. by rewrite Eo.
Qed.

(** X16: on an instance that has not executed and whose search is answered
    with at least one hit, [first] sends that one search and returns the
    first of the objects built from the hits; the result stays on the
    instance, and a second [first] returns the same object and neither sends
    a request nor changes the store. *)
Theorem first_returns_first_object (w : world F) (q : loc) (o : QuerySetObj)
    (st : QState) (body raw d : json) (docs : list json) (rs rs' : ResultSet)
    (obj : json) (objects : list json) :
  heap w !! q = Some (CQuerySet o) ->
  _result_set o = None -> _is_none_set o = false ->
  snapshot q w = (w, OK st) -> to_dict st = OK body ->
  es_search (conn o) (trace w) body JNull [] = Response raw ->
  ResultSet_init raw = OK rs -> _documents rs = JList (d :: docs) ->
  documents.as_objects type_from_fields rs = (rs', OK (obj :: objects)) ->
  let w' := (first type_from_fields q w).1 in
  (first type_from_fields q w).2 = OK (Some obj)
  /\ trace w' = trace w ++ [Search body JNull []]
  /\ first type_from_fields q w' = (w', OK (Some obj)).
Proof.
  intros Hq Hr Hn Hs Hb He Hi Hd Ha w'. subst w'.
  destruct (as_objects_again _ _ _ _ Ha) as [Ha' Hd'].
  pose proof (lookup_lt_Some _ _ _ Hq) as Hlt.
  set (h1 := <[q:=CQuerySet (set_result_set (Some (length (heap w))) o)]>
               (heap w ++ [CResultSet rs])).
  assert (Hq1 : h1 !! q = Some (CQuerySet (set_result_set (Some (length (heap w))) o))).
  { apply list_lookup_insert_eq. rewrite length_app. simpl. lia. }
  assert (Hr1 : h1 !! length (heap w) = Some (CResultSet rs)).
  { unfold h1. rewrite list_lookup_insert_ne by lia. apply lookup_app_last. }
  assert (Hfirst : first type_from_fields q w
                   = ({| heap := <[length (heap w):=CResultSet rs']> h1;
                         trace := trace w ++ [Search body JNull []];
                         DEBUG := DEBUG w |}, OK (Some obj))).
  { unfold first, documents_of, get_result_set. munfold.
    rewrite (execute_sends _ _ _ _ _ _ _ Hq Hr Hn Hs Hb), He, Hi. cbn. fold h1.
    rewrite Hr1. cbn. unfold ResultSet_len. rewrite Hd. cbn.
    change (Z.of_nat (S (length docs)) >? 0)%Z with true. cbn.
    rewrite Hr1. cbn. by rewrite Ha. }
  rewrite Hfirst. cbn. split; [done|]. split; [done|].
  assert (Hq2 : <[length (heap w):=CResultSet rs']> h1 !! q
                = Some (CQuerySet (set_result_set (Some (length (heap w))) o)))
    by (by rewrite list_lookup_insert_ne by lia).
  assert (Hr2 : <[length (heap w):=CResultSet rs']> h1 !! length (heap w)
                = Some (CResultSet rs')).
  { apply list_lookup_insert_eq. unfold h1. rewrite length_insert, length_app.
    simpl. lia. }
  unfold first, documents_of, get_result_set. munfold.
  erewrite execute_cached by (first [exact Hq2 | reflexivity]). cbn.
  rewrite Hr2. cbn. unfold ResultSet_len. rewrite Hd', Hd. cbn.
  change (Z.of_nat (S (length docs)) >? 0)%Z with true. cbn.
  rewrite Hr2. cbn. rewrite Ha'. cbn. by rewrite list_insert_insert_eq.
Qed.

End ReadProofs.
End ReadProofs.

(** ** Normalization of load fields *)

Module LoadFieldProofs.
Import ModelSpec DictProofs.
Section LoadFieldProofs.
Variable int_of_string : string -> option Z.
Variable parse_datetime : string -> res json.
Variable fields : list (string * models.field).

Lemma load_datetimes_all (keys : list string) (lf lf' : list (string * json)) :
  models.load_datetimes parse_datetime keys lf = OK lf' ->
  Forall (fun k => dict_has lf' k = true) keys.
Proof.
  revert lf. induction keys as [|key keys IH]; simpl; intros lf E; [done|].
  destruct (models.convert_str_to_datetime parse_datetime _) as [v|]; [|done].
  simpl in E. constructor; [|by eapply IH].
  eapply ModelProofs.load_datetimes_keeps; [|exact E].
  apply ModelProofs.dict_has_set_same.
Qed.

Lemma add_nulls_all (names : list string) (lf : list (string * json)) :
  Forall (fun k => dict_has (models.add_nulls names lf) k = true) names.
Proof.
  revert lf. induction names as [|n names IH]; simpl; intros lf; [done|].
  constructor; [|apply IH]. apply ModelProofs.add_nulls_keeps.
  destruct (dict_has lf n) eqn:E; [done|]. apply ModelProofs.dict_has_set_same.
Qed.

Lemma load_datetimes_int (keys : list string) (lf lf' : list (string * json))
    (k : string) (n : Z) :
  dict_get lf k = Some (JInt n) ->
  models.load_datetimes parse_datetime keys lf = OK lf' ->
  dict_get lf' k = Some (JInt n).
Proof.
  revert lf. induction keys as [|key keys IH]; simpl; intros lf Hk E.
  - by injection E as <-.
  - destruct (models.convert_str_to_datetime parse_datetime _) as [v|] eqn:Ev; [|done].
    simpl in E. eapply IH; [|exact E]. rewrite dict_get_set.
    destruct (String.eqb key k) eqn:Ek; [|done].
    apply String.eqb_eq in Ek as ->. rewrite Hk in Ev. simpl in Ev. congruence.
Qed.

Lemma add_nulls_get (names : list string) (lf : list (string * json)) (k : string)
    (v : json) :
  dict_get lf k = Some v -> dict_get (models.add_nulls names lf) k = Some v.
Proof.
  revert lf. induction names as [|n names IH]; simpl; intros lf Hk; [done|].
  apply IH. destruct (dict_has lf n) eqn:E; [done|]. rewrite dict_get_set.
  destruct (String.eqb n k) eqn:En; [|done]. apply String.eqb_eq in En as ->.
  unfold dict_has in E. by rewrite Hk in E.
Qed.

(** X22: when [process_load_fields] returns, the load fields hold the id as
    an integer (the [int] of the id given), an entry for every date field
    and for every nullable field of the map, and every entry they held
    before is still there. *)
Theorem process_load_fields_normalizes (lf lf' : list (string * json)) :
  models.process_load_fields int_of_string parse_datetime fields lf = OK lf' ->
  (exists v n, dict_get lf "id" = Some v /\ models.int int_of_string v = OK n
               /\ dict_get lf' "id" = Some (JInt n))
  /\ Forall (fun k => dict_has lf' k = true) (models.datetime_fields fields)
  /\ Forall (fun k => dict_has lf' k = true) (models.nullable_fields fields)
  /\ (forall k, dict_has lf k = true -> dict_has lf' k = true).
Proof.
  unfold models.process_load_fields. simpl. intros E.
  destruct (dict_get lf "id") as [v|] eqn:Ev; [|done]. simpl in E.
  destruct (models.int int_of_string v) as [n|] eqn:En; [|done]. simpl in E.
  destruct (models.load_datetimes _ _ _) as [l|] eqn:El; [|done]. simpl in E.
  injection E as <-. split; [|split; [|split]].
  - exists v, n. split; [done|]. split; [done|]. apply add_nulls_get.
    eapply load_datetimes_int; [|exact El]. by rewrite dict_get_set, String.eqb_refl.
  - eapply Forall_impl; [|exact (load_datetimes_all _ _ _ El)].
    intros k Hk. by apply ModelProofs.add_nulls_keeps.
  - apply add_nulls_all.
  - intros k Hk. apply ModelProofs.add_nulls_keeps.
    eapply ModelProofs.load_datetimes_keeps; [|exact El].
    by apply ModelProofs.dict_has_set.
Qed.

End LoadFieldProofs.

Lemma process_load_fields_normalizes_witness :
  models.process_load_fields (fun _ => Some 7%Z) (fun s => OK (JStr s)) event_fields
    [("id", JStr "7"); ("name", JStr "launch")]
  = OK [("id", JInt 7); ("name", JStr "launch"); ("starts", JNull); ("note", JNull)]
  /\ Forall (fun k => dict_has [("id", JInt 7); ("name", JStr "launch");
                                ("starts", JNull); ("note", JNull)] k = true)
       (models.nullable_fields event_fields).
Proof.
  split; [reflexivity|].
  apply (process_load_fields_normalizes (fun _ => Some 7%Z) (fun s => OK (JStr s))
           event_fields [("id", JStr "7"); ("name", JStr "launch")]).
  reflexivity.
Defined.

End LoadFieldProofs.

(** ** Field declarations *)

Module FieldProofs.
Import fields FieldSpec DictProofs.

(** X23: [AggregationField] cannot be constructed: whatever keywords it is
    given, its constructor raises [TypeError], because it hands [type] to the
    constructor of [KeywordField], which passes [type] itself. *)
Theorem AggregationField_cannot_be_constructed (kwargs : list (string * json)) :
  exists msg, AggregationField_init kwargs = Raise (TypeError msg).
Proof.
  unfold AggregationField_init, keywords.
  destruct (existsb _ kwargs); simpl; [eauto|].
  unfold KeywordField_init, keywords. simpl. eauto.
Qed.

Lemma dict_get_filter_other {V} (p : string * V -> bool) (d : list (string * V))
    (k : string) :
  (forall kv, fst kv = k -> p kv = true) ->
  dict_get (List.filter p d) k = dict_get d k.
Proof.
  intros Hp. induction d as [|[a x] d IH]; simpl; [done|].
  destruct (String.eqb a k) eqn:E.
  - apply String.eqb_eq in E. rewrite (Hp (a, x) E). simpl.
    apply String.eqb_eq in E. by rewrite E.
  - destruct (p (a, x)); simpl; [by rewrite E|done].
Qed.

Lemma dict_get_filter_out {V} (p : string * V -> bool) (d : list (string * V))
    (k : string) :
  (forall kv, fst kv = k -> p kv = false) ->
  dict_get (List.filter p d) k = None.
Proof.
  intros Hp. induction d as [|[a x] d IH]; simpl; [done|].
  destruct (p (a, x)) eqn:Ep; simpl; [|done].
  destruct (String.eqb a k) eqn:E; [|done].
  apply String.eqb_eq in E. rewrite (Hp (a, x) E) in Ep. done.
Qed.

Lemma has_either (kwargs : list (string * json)) (k1 k2 : string) :
  existsb (fun kv : string * json => String.eqb k1 (fst kv) || String.eqb (fst kv) k2)
    kwargs
  = dict_has kwargs k1 || dict_has kwargs k2.
Proof.
  unfold dict_has. induction kwargs as [|[a x] r IH]; simpl; [done|].
  rewrite IH, (String.eqb_sym k1 a).
  destruct (String.eqb a k1), (String.eqb a k2); simpl; try done;
    rewrite ?orb_true_r; try done; by destruct (dict_get r k1).
Qed.

Lemma keywords_type (ty : string) (kwargs : list (string * json)) :
  keywords [("type", JStr ty)] kwargs
  = if dict_has kwargs "type" || dict_has kwargs "self"
    then Raise (TypeError "got multiple values for argument")
    else OK (("type", JStr ty) :: kwargs).
Proof.
  unfold keywords. rewrite <- has_either.
  replace (existsb (fun kv => dict_has [("type", JStr ty)] (fst kv)
                              || String.eqb (fst kv) "self") kwargs)
    with (existsb (fun kv : string * json =>
                     String.eqb "type" (fst kv) || String.eqb (fst kv) "self") kwargs);
    [done|].
  induction kwargs as [|[a x] r IH]; [done|]. cbn [existsb]. rewrite IH.
  unfold dict_has. cbn [dict_get fst]. by destruct (String.eqb "type" a).
Qed.

(** X24: each of the typed field constructors (text, keyword, integer, double,
    date, boolean) refuses the keywords [type] and [self] and no other;
    otherwise the field's mapping, [to_json], states that type first, then
    holds every keyword given, as it is, except [model_attr] and [nullable],
    which stay on the field. *)
Theorem typed_field_mapping (t : string)
    (init : list (string * json) -> res SearchField) (kwargs : list (string * json)) :
  In (t, init) typed_constructors ->
  if dict_has kwargs "type" || dict_has kwargs "self"
  then exists msg, init kwargs = Raise (TypeError msg)
  else exists f,
    init kwargs = OK f
    /\ to_json f
       = JDict (("type", JStr t)
                :: List.filter (fun kv => negb (String.eqb (fst kv) "model_attr"
                                                || String.eqb (fst kv) "nullable"))
                     kwargs)
    /\ model_attr f = default JNull (dict_get kwargs "model_attr")
    /\ nullable f = default (JBool false) (dict_get kwargs "nullable").
Proof.
  intros Hin. simpl in Hin.
  repeat (destruct Hin as [[= <- <-]|Hin];
          [unfold TextField_init, KeywordField_init, IntegerField_init,
             DoubleField_init, DateField_init, BooleanField_init;
           rewrite keywords_type;
           destruct (dict_has kwargs "type" || dict_has kwargs "self"); simpl;
           [eauto | eexists; repeat split; reflexivity] |]).
  done.
Qed.

Lemma typed_field_mapping_witness :
  In ("date", DateField_init) typed_constructors
  /\ (exists f,
        DateField_init [("nullable", JBool true); ("format", JStr "epoch_millis")] = OK f
        /\ to_json f
           = JDict [("type", JStr "date"); ("format", JStr "epoch_millis")]
        /\ model_attr f = JNull /\ nullable f = JBool true).
Proof.
  split; [simpl; tauto|].
  apply (typed_field_mapping "date" DateField_init
           [("nullable", JBool true); ("format", JStr "epoch_millis")]).
  simpl. tauto.
Defined.

End FieldProofs.

(** ** Ranges *)

Module RangeProofs.
Import pyes_filters RangeSpec.

(** X25: a range built from a lower operator ([gt] or [gte]) and an upper
    operator ([lt] or [lte]) with values that are not [None] serializes to
    exactly these two bounds, the lower one first, in whichever order the two
    were given; with a single operator it serializes to that bound alone. *)
Theorem range_op_serializes_to_its_bounds (field value1 value2 : json)
    (lower upper : string) :
  In lower ["gt"; "gte"] -> In upper ["lt"; "lte"] ->
  is_None value1 = false -> is_None value2 = false ->
  serialize (ESRangeOp_init field (JStr lower) value1 (JStr upper) value2)
  = (field, [(lower, value1); (upper, value2)])
  /\ serialize (ESRangeOp_init field (JStr upper) value2 (JStr lower) value1)
     = (field, [(lower, value1); (upper, value2)])
  /\ serialize (ESRangeOp_init field (JStr lower) value1 JNull JNull)
     = (field, [(lower, value1)])
  /\ serialize (ESRangeOp_init field (JStr upper) value2 JNull JNull)
     = (field, [(upper, value2)]).
Proof.
  intros Hl Hu H1 H2. simpl in Hl, Hu.
  destruct Hl as [<-|[<-|[]]], Hu as [<-|[<-|[]]];
    unfold serialize, ESRangeOp_init; simpl; rewrite ?H1, ?H2; simpl; done.
Qed.

Lemma range_op_serializes_to_its_bounds_witness :
  serialize (ESRangeOp_init (JStr "age") (JStr "lt") (JInt 20) (JStr "gte") (JInt 10))
  = (JStr "age", [("gte", JInt 10); ("lt", JInt 20)]).
Proof.
  apply (range_op_serializes_to_its_bounds (JStr "age") (JInt 10) (JInt 20) "gte" "lt");
    simpl; tauto.
Defined.

(** X26: [negate] turns a range around: called twice it gives the range
    back, and the negation of a range with a lower and an upper bound
    serializes to the mirrored bounds, the former upper value bounding from
    below and the former lower value from above, each as inclusive as it
    was. *)
Theorem negate_mirrors_the_bounds (r : ESRange) :
  negate (negate r) = r
  /\ forall field value1 value2 lower upper,
       In lower ["gt"; "gte"] -> In upper ["lt"; "lte"] ->
       is_None value1 = false -> is_None value2 = false ->
       serialize (negate (ESRangeOp_init field (JStr lower) value1 (JStr upper) value2))
       = (field, [(mirrored upper, value2); (mirrored lower, value1)]).
Proof.
  split; [by destruct r|].
  intros field value1 value2 lower upper Hl Hu H1 H2. simpl in Hl, Hu.
  destruct Hl as [<-|[<-|[]]], Hu as [<-|[<-|[]]];
    unfold serialize, negate, ESRangeOp_init; simpl; rewrite ?H1, ?H2; simpl; done.
Qed.

End RangeProofs.

(** ** Bulk actions *)

Module BulkProofs.
Import bulk_manager BulkSpec.
Section BulkProofs.
Variable Conn : Type.
Variable bulk_helper : Conn -> list json -> Z -> res unit.

(** X27: the bulk manager never sends on its own account for any chunk size
    above 4, the default of 500 included: what [append_action] compares with
    the chunk size is the number of keys of the action (4 for [index], 3 for
    [delete]), not the number of queued actions.  [index] and [delete] then
    only queue their action, however many are queued already. *)
Theorem bulk_actions_wait_for_flush (w : bulk_world Conn) (self : nat)
    (m : BulkManager Conn) (id doc idx : json) :
  managers w !! self = Some m -> 4 < chunk_size m ->
  let wi := (index Conn bulk_helper self id doc idx w).1 in
  let wd := (delete Conn bulk_helper self id idx w).1 in
  (index Conn bulk_helper self id doc idx w).2 = OK tt
  /\ calls wi = calls w
  /\ pending wi self = Some (actions w m ++ [index_action id doc idx])
  /\ (delete Conn bulk_helper self id idx w).2 = OK tt
  /\ calls wd = calls w
  /\ pending wd self = Some (actions w m ++ [delete_action id idx]).
Proof.
  intros Hm Hc wi wd. subst wi wd.
  unfold index, delete, append_action, pending, actions. rewrite Hm. cbn [length].
  rewrite !Z.geb_leb.
  destruct (Z.leb_spec (chunk_size m) (Z.of_nat 4)); [lia|].
  destruct (Z.leb_spec (chunk_size m) (Z.of_nat 3)); [lia|].
  pose proof (lookup_lt_Some _ _ _ Hm) as Hlt.
  destruct (own_actions m) as [l|] eqn:Eo; cbn;
    rewrite ?list_lookup_insert_eq by done; rewrite ?Hm; cbn; rewrite ?Eo; done.
Qed.

(** X28: the list of queued actions belongs to the class, and managers share
    it until their first [flush]: an action queued on one new manager is
    queued on every other new manager as well, and since [flush] gives the
    flushing manager a new list and leaves the shared one as it is, the
    action is sent again, over the other connection, when the other manager
    flushes, whether that second request succeeds or not. *)
Theorem new_managers_share_their_queue (w : bulk_world Conn)
    (m1 m2 : nat) (c1 c2 : Conn) (n1 n2 : Z) (id doc idx : json) :
  managers w !! m1 = Some {| conn := c1; chunk_size := n1; own_actions := None |} ->
  managers w !! m2 = Some {| conn := c2; chunk_size := n2; own_actions := None |} ->
  m1 <> m2 -> 4 < n1 ->
  bulk_helper c1 (class_actions w ++ [index_action id doc idx]) n1 = OK tt ->
  let w1 := (index Conn bulk_helper m1 id doc idx w).1 in
  let w2 := (flush Conn bulk_helper m1 w1).1 in
  let w3 := (flush Conn bulk_helper m2 w2).1 in
  pending w1 m2 = Some (class_actions w ++ [index_action id doc idx])
  /\ calls w3
     = calls w ++ [(c1, class_actions w ++ [index_action id doc idx], n1);
                   (c2, class_actions w ++ [index_action id doc idx], n2)]
  /\ pending w3 m1 = Some [].
Proof.
  intros H1 H2 Hne Hn Hok w1 w2 w3. subst w1 w2 w3.
  pose proof (lookup_lt_Some _ _ _ H1) as Hlt1.
  pose proof (lookup_lt_Some _ _ _ H2) as Hlt2.
  unfold index, append_action, pending. rewrite H1. cbn [length own_actions chunk_size].
  rewrite Z.geb_leb. destruct (Z.leb_spec n1 (Z.of_nat 4)); [lia|]. cbn.
  rewrite H2. cbn. split; [done|].
  unfold flush. cbn. rewrite H1. cbn. unfold index_action in Hok. rewrite Hok. cbn.
  rewrite list_lookup_insert_ne by done. rewrite H2. cbn.
  destruct (bulk_helper c2 _ n2); cbn.
  - rewrite list_lookup_insert_ne by done.
    rewrite list_lookup_insert_eq by done. cbn.
    split; [by rewrite <- app_assoc | done].
  - rewrite list_lookup_insert_eq by done. cbn.
    split; [by rewrite <- app_assoc | done].
Qed.

End BulkProofs.

Lemma bulk_actions_wait_for_flush_witness :
  calls (index nat (fun _ _ _ => OK tt) 0%nat (JInt 7) (JDict []) (JStr "twitter")
           two_managers).1 = []
  /\ pending (index nat (fun _ _ _ => OK tt) 0%nat (JInt 7) (JDict []) (JStr "twitter")
                two_managers).1 0%nat
     = Some [index_action (JInt 7) (JDict []) (JStr "twitter")].
Proof.
  pose proof (bulk_actions_wait_for_flush nat (fun _ _ _ => OK tt) two_managers 0%nat
                _ (JInt 7) (JDict []) (JStr "twitter") eq_refl eq_refl)
    as (_ & Hc & Hp & _).
  split; [exact Hc | exact Hp].
Defined.

Lemma new_managers_share_their_queue_witness :
  calls (flush nat (fun _ _ _ => OK tt) 1%nat
           (flush nat (fun _ _ _ => OK tt) 0%nat
              (index nat (fun _ _ _ => OK tt) 0%nat (JInt 7) (JDict []) (JStr "twitter")
                 two_managers).1).1).1
  = [(1%nat, [index_action (JInt 7) (JDict []) (JStr "twitter")], 500);
     (2%nat, [index_action (JInt 7) (JDict []) (JStr "twitter")], 500)].
Proof.
  pose proof (new_managers_share_their_queue nat (fun _ _ _ => OK tt) two_managers
                0%nat 1%nat 1%nat 2%nat 500 500 (JInt 7) (JDict []) (JStr "twitter")
                eq_refl eq_refl ltac:(discriminate) eq_refl eq_refl) as (_ & Hc & _).
  exact Hc.
Defined.

End BulkProofs.

(** ** Deleting the indexes of a map *)

Module IndexProofs.
Import base_map.


End IndexProofs.

(** ** The chainable methods and requests on the concrete stores *)

Module ChainExamples.
Import SuspendersQuerySet StoreSpec StoreProofs Fixtures FixtureProofs Outages.
Import SortSpec ChainSpec ChainProofs ExecuteSpec ExecuteProofs.
Import FilterChainSpec FilterChainProofs reads ReadProofs.

Lemma paginate_is_a_slice_witness :
  paginate (Some 2) (Some 20) q0 w0 = slice (Some 20) (Some 40) q0 w0.
Proof.
  destruct (paginate_is_a_slice w0 q0 2 20 w0_instance eq_refl eq_refl)
    as (w' & q' & st & _ & Hp & Hs & _).
  rewrite Hp. symmetry. exact Hs.
Defined.

Lemma sorted_by_replaces_the_sort_witness :
  exists w' q' st',
    sorted_by ["-position"; "_score"] q0 w0 = (w', OK q')
    /\ snapshot q' w' = (w', OK st')
    /\ s_sort st' = [JDict [("position", JStr "desc")]; JDict [("_score", JStr "desc")]].
Proof.
  destruct (sorted_by_replaces_the_sort w0 q0 ["-position"; "_score"] w0_instance
              eq_refl) as (w' & q' & st & _ & Hs & Hsnap).
  exists w', q', (with_sort (map sort_entry ["-position"; "_score"]) st).
  split; [exact Hs|]. split; [exact Hsnap | reflexivity].
Defined.

Lemma suppress_returns_unusable_instance_witness :
  exists w' q',
    suppress [] [("draft", JBool true)] q0 w0 = (w', OK q')
    /\ execute JNull [] q' w' = (w', Raise (TypeError "object is not iterable")).
Proof.
  edestruct (suppress_returns_unusable_instance w0 q0 [] [("draft", JBool true)])
    as (w' & q' & st & Hsnap & Hs & _ & Hfail);
    [exact w0_instance | reflexivity |].
  exists w', q'. split; [exact Hs|].
  apply Hfail. apply (f_equal snd) in Hsnap. cbv in Hsnap. by injection Hsnap as <-.
Defined.

Lemma invalid_aggregation_order_fails_late_witness :
  exists w' q',
    aggregation (JStr "tags") (JInt 10) JNull (JStr "sideways") JNull JNull None []
      q0 w0 = (w', OK q')
    /\ execute JNull [] q' w' = (w', Raise (RuntimeError "Invalid order value")).
Proof.
  destruct (invalid_aggregation_order_fails_late w0 q0 "tags" (JInt 10) JNull
              (JStr "sideways") JNull JNull None [] w0_instance eq_refl eq_refl
              eq_refl) as (w' & q' & st & Hsnap & Ha & _ & Hfail).
  exists w', q'. split; [exact Ha|].
  apply (f_equal snd) in Hsnap. cbv in Hsnap. injection Hsnap as <-.
  destruct (Hfail eq_refl eq_refl) as [_ Hrun]. apply Hrun.
Defined.

Lemma chainable_call_returns_unexecuted_instance_witness :
  exists o', heap (apply_call call_filter_12 q0 w0).1 !! 15%nat = Some (CQuerySet o')
             /\ _result_set o' = None.
Proof.
  apply (chainable_call_returns_unexecuted_instance w0 q0 call_filter_12 15%nat
           w0_instance).
  vm_compute. reflexivity.
Defined.

Lemma failed_search_is_not_cached_witness :
  execute JNull [] q0 w_down
  = (sent (Search match_all_body JNull []) w_down,
     Raise (NoServerAvailable (JStr "Connection refused") (JInt 500) match_all_body)).
Proof.
  edestruct (failed_search_is_not_cached w_down q0) as (Hr & _);
    [reflexivity | reflexivity | reflexivity | reflexivity | reflexivity
    | reflexivity |].
  exact Hr.
Defined.

Lemma error_without_root_cause_is_swallowed_witness :
  execute JNull [] q0 w_vague = (sent (Search match_all_body JNull []) w_vague, OK None).
Proof.
  eapply (error_without_root_cause_is_swallowed w_vague q0); reflexivity.
Defined.

Lemma count_sends_query_and_from_only_witness :
  count JNull q0 w0
  = (sent (Count (JDict [("query", JDict [("match_all", JDict [])])]) JNull) w0,
     OK (JInt 6)).
Proof.
  epose proof (count_sends_query_and_from_only w0 q0 _ _ _ _ JNull _ _
                 eq_refl eq_refl eq_refl eq_refl eq_refl eq_refl eq_refl eq_refl)
    as Hc.
  exact Hc.
Defined.

Lemma first_and_get_on_none_set_witness :
  exists w1 q1, none q0 w0 = (w1, OK q1) /\ (first as_document q1 w1).2 = OK None.
Proof.
  destruct (none_makes_none_instance w0 q0 w0_instance) as (w1 & q1 & Hn & _ & Hi).
  exists w1, q1. split; [exact Hn|].
  exact (proj1 (first_and_get_on_none_set as_document w1 q1 Hi)).
Defined.

Lemma result_set_from_dict_fills_the_cache_witness :
  (result_set_from_dict (JDict ResultSetSpec.response_one) q0 w0).2 = OK (Some 8%nat)
  /\ count JNull q0 (result_set_from_dict (JDict ResultSetSpec.response_one) q0 w0).1
     = ((result_set_from_dict (JDict ResultSetSpec.response_one) q0 w0).1, OK (JInt 1)).
Proof.
  epose proof (result_set_from_dict_fills_the_cache w0 q0 _
                 (JDict ResultSetSpec.response_one) _ eq_refl eq_refl)
    as (Hr & _ & _ & _ & Hc).
  split; [exact Hr | exact (Hc JNull)].
Defined.

Lemma first_returns_first_object_witness :
  exists obj,
    (first as_document q0 w0).2 = OK (Some obj)
    /\ trace (first as_document q0 w0).1 = [Search match_all_body JNull []].
Proof.
  epose proof (first_returns_first_object as_document w0 q0 _ _ match_all_body
                 (JDict ResultSetSpec.response_one) _ _ _ _ _ _ eq_refl eq_refl
                 eq_refl eq_refl eq_refl eq_refl eq_refl eq_refl eq_refl)
    as (Hr & Ht & _).
  eexists. split; [exact Hr | exact Ht].
Defined.



End ChainExamples.
